(** * GroupHW_FS: gap events, growth features, strategy selection, backtest

    A shallow embedding of [data_filter.py] (class
    [BenchmarkDataConstructor]) and [data_test.py]
    ([preprocess_financial_data], [strategy_consistent_growth],
    [backtest_strategy]).

    Conventions of the embedding.
    - A pandas table is the list of its rows, in row order; a row is a
      record with one field per column the pipeline reads.
    - A float cell is a [num]: an exact rational, one of the two
      infinities, or [NaN] (pandas' missing value).  The operations follow
      the IEEE rules for infinities, NaN and division by zero; rounding and
      signed zeros are not represented.
    - A date cell is the number of days since 1970-01-01.  Date columns are
      read with [parse_dates] and are taken to be present in every row.
    - [DataFrame] objects that the code updates in place are kept in an
      explicit store (module [Store]). *)

From Stdlib Require Import ZArith QArith Bool List Lia Permutation Sorted.
From Stdlib Require Import OrderedTypeEx.
From Stdlib Require Import Ascii Lqa Qabs.
From Stdlib Require DecimalString DecimalN DecimalPos DecimalFacts.
From stdpp Require Import base option gmap strings.
Import ListNotations.

Local Open Scope Z_scope.

(* ===================================================================== *)
(** ** Float cells                                                        *)
(* ===================================================================== *)

Inductive num : Type :=
| NaN
| NInf
| Fin (q : Q)
| PInf.

Definition isna (x : num) : bool :=
  match x with NaN => true | _ => false end.

Definition notna (x : num) : bool := negb (isna x).

Definition fneg (x : num) : num :=
  match x with
  | NaN => NaN
  | NInf => PInf
  | Fin q => Fin (- q)
  | PInf => NInf
  end.

Definition fadd (x y : num) : num :=
  match x, y with
  | NaN, _ | _, NaN => NaN
  | PInf, NInf | NInf, PInf => NaN
  | PInf, _ | _, PInf => PInf
  | NInf, _ | _, NInf => NInf
  | Fin a, Fin b => Fin (a + b)
  end.

Definition fsub (x y : num) : num :=
  match x, y with
  | NaN, _ | _, NaN => NaN
  | PInf, PInf | NInf, NInf => NaN
  | PInf, _ | _, NInf => PInf
  | NInf, _ | _, PInf => NInf
  | Fin a, Fin b => Fin (a - b)
  end.

(** An infinity scaled by the sign of a finite factor. *)
Definition scale_inf (pos : bool) (q : Q) : num :=
  match (q ?= 0)%Q with
  | Eq => NaN
  | Gt => if pos then PInf else NInf
  | Lt => if pos then NInf else PInf
  end.

Definition fmul (x y : num) : num :=
  match x, y with
  | NaN, _ | _, NaN => NaN
  | PInf, PInf | NInf, NInf => PInf
  | PInf, NInf | NInf, PInf => NInf
  | PInf, Fin q | Fin q, PInf => scale_inf true q
  | NInf, Fin q | Fin q, NInf => scale_inf false q
  | Fin a, Fin b => Fin (a * b)
  end.

Definition fdiv (x y : num) : num :=
  match x, y with
  | NaN, _ | _, NaN => NaN
  | (PInf | NInf), (PInf | NInf) => NaN
  | Fin _, (PInf | NInf) => Fin 0
  | PInf, Fin b => match (b ?= 0)%Q with Lt => NInf | _ => PInf end
  | NInf, Fin b => match (b ?= 0)%Q with Lt => PInf | _ => NInf end
  | Fin a, Fin b =>
      match (b ?= 0)%Q with
      | Eq => match (a ?= 0)%Q with Eq => NaN | Gt => PInf | Lt => NInf end
      | _ => Fin (a / b)
      end
  end.

(** [x > y]; every comparison with NaN is false. *)
Definition fgt (x y : num) : bool :=
  match x, y with
  | NaN, _ | _, NaN => false
  | PInf, PInf => false
  | PInf, _ => true
  | _, PInf => false
  | NInf, _ => false
  | Fin _, NInf => true
  | Fin a, Fin b => match (a ?= b)%Q with Gt => true | _ => false end
  end.

(** Equality of cells up to the representation of the rational. *)
Definition num_eq (x y : num) : Prop :=
  match x, y with
  | NaN, NaN | PInf, PInf | NInf, NInf => True
  | Fin a, Fin b => (a == b)%Q
  | _, _ => False
  end.

Definition num_eqb (x y : num) : bool :=
  match x, y with
  | NaN, NaN | PInf, PInf | NInf, NInf => true
  | Fin a, Fin b => Qeq_bool a b
  | _, _ => false
  end.

(** Decimal literals: [dec n k] is [n / 10^k]. *)
Definition dec (n : Z) (k : positive) : num := Fin (n # (10 ^ k)%positive).
Definition int (n : Z) : num := Fin (inject_Z n).

(* ===================================================================== *)
(** ** Dates                                                              *)
(* ===================================================================== *)

Definition date := Z.

(** Civil date of a day number and back (proleptic Gregorian calendar). *)
Definition civil_from_days (z : date) : Z * Z * Z :=
  let z := z + 719468 in
  let era := z / 146097 in
  let doe := z - era * 146097 in
  let yoe := (doe - doe / 1460 + doe / 36524 - doe / 146096) / 365 in
  let y := yoe + era * 400 in
  let doy := doe - (365 * yoe + yoe / 4 - yoe / 100) in
  let mp := (5 * doy + 2) / 153 in
  let d := doy - (153 * mp + 2) / 5 + 1 in
  let m := if mp <? 10 then mp + 3 else mp - 9 in
  (if m <=? 2 then y + 1 else y, m, d).

Definition days_from_civil (y m d : Z) : date :=
  let y := if m <=? 2 then y - 1 else y in
  let era := y / 400 in
  let yoe := y - era * 400 in
  let doy := (153 * (if 2 <? m then m - 3 else m + 9) + 2) / 5 + d - 1 in
  let doe := yoe * 365 + yoe / 4 - yoe / 100 + doy in
  era * 146097 + doe - 719468.

Definition is_leap (y : Z) : bool :=
  ((y mod 4 =? 0) && negb (y mod 100 =? 0)) || (y mod 400 =? 0).

Definition days_in_month (y m : Z) : Z :=
  if m =? 2 then (if is_leap y then 29 else 28)
  else if (m =? 4) || (m =? 6) || (m =? 9) || (m =? 11) then 30
  else 31.

(** [ts + pd.DateOffset(months=n)]: move [n] months ahead and clip the day
    to the length of the month reached. *)
Definition DateOffset_months (n : Z) (ts : date) : date :=
  let '(y, m, d) := civil_from_days ts in
  let t := y * 12 + (m - 1) + n in
  let y' := t / 12 in
  let m' := t mod 12 + 1 in
  days_from_civil y' m' (Z.min d (days_in_month y' m')).

(** [ts + pd.Timedelta(days=n)]. *)
Definition Timedelta_days (n : Z) (ts : date) : date := ts + n.

Definition year_of (ts : date) : Z := fst (fst (civil_from_days ts)).
Definition month_of (ts : date) : Z := snd (fst (civil_from_days ts)).
Definition quarter_of (ts : date) : Z := (month_of ts - 1) / 3 + 1.

Definition ymd (y m d : Z) : date := days_from_civil y m d.

(* ===================================================================== *)
(** ** Tables                                                             *)
(* ===================================================================== *)

(** A row type knows which of its cells can be missing. *)
Class Row (A : Type) := has_na : A -> bool.

(** Daily trading record (TRD_Dalyr shards). *)
Module Trd.
Record t := mk {
  Stkcd : string;
  Trddt : date;
  Hiprc : num;
  Loprc : num;
  Clsprc : num }.
End Trd.

#[export] Instance Trd_Row : Row Trd.t :=
  fun r => isna (Trd.Hiprc r) || isna (Trd.Loprc r) || isna (Trd.Clsprc r).

(** Quarterly disclosure (IAR_Rept). *)
Module Rept.
Record t := mk {
  Stkcd : string;
  Reptyp : option Z;
  Accper : date;
  Annodt : date;
  Profita : num }.
End Rept.

#[export] Instance Rept_Row : Row Rept.t :=
  fun r => match Rept.Reptyp r with None => true | Some _ => false end
           || isna (Rept.Profita r).

(** Trading record with the lagged high added by [filter_data]. *)
Module TrdPrev.
Record t := mk {
  row : Trd.t;
  prev_Hiprc : num }.
End TrdPrev.

(** Row of the table returned by [filter_data]. *)
Module Gap.
Record t := mk {
  Stkcd : string;
  Reptyp : option Z;
  Annodt : date;
  Trddt : date;
  Loprc : num;
  prev_Hiprc : num;
  gap_pct : num }.
End Gap.

(* ===================================================================== *)
(** ** pandas operations                                                   *)
(* ===================================================================== *)

Section Frames.
Context {A : Type}.

(** [df.dropna()]: rows with a missing cell are removed. *)
Definition dropna `{Row A} (df : list A) : list A :=
  List.filter (fun r => negb (has_na r)) df.

(** [df.sort_values(...)]: rows are put in the order [le]; rows with equal
    keys keep their order.  pandas leaves the order of such rows open when
    sorting by a single column; of a single-column sort the proofs below
    use only that it is sorted and a permutation. *)
Fixpoint insert_sorted (le : A -> A -> bool) (x : A) (l : list A) : list A :=
  match l with
  | [] => [x]
  | y :: l' => if le x y then x :: l else y :: insert_sorted le x l'
  end.

Definition sort_values (le : A -> A -> bool) (df : list A) : list A :=
  fold_right (insert_sorted le) [] df.
End Frames.

(** What sorting needs of a row order. *)
Definition le_total {A} (le : A -> A -> bool) : Prop :=
  forall a b, le a b = true \/ le b a = true.

Definition le_trans {A} (le : A -> A -> bool) : Prop :=
  forall a b c, le a b = true -> le b c = true -> le a c = true.

(** Row orders used by the pipeline. *)
Definition by_date {A} (on : A -> date) (a b : A) : bool := on a <=? on b.

Definition by_code_date {A} (code : A -> string) (on : A -> date) (a b : A) : bool :=
  String.ltb (code a) (code b) || (String.eqb (code a) (code b) && (on a <=? on b)).

(** The rows of one group, in table order. *)
Definition series {A} (code : A -> string) (k : string) (df : list A) : list A :=
  List.filter (fun r => String.eqb (code r) k) df.

(** [groupby(key)[col].shift(periods)] on the column given as (key, value)
    pairs: each row receives the value [periods] rows earlier in its own
    group, NaN when the group has no such row.  [hist] holds, per key, the
    values already passed, latest first. *)
Fixpoint groupby_shift (periods : nat) (hist : gmap string (list num))
    (col : list (string * num)) : list num :=
  match col with
  | [] => []
  | (k, v) :: col' =>
      let h := default [] (hist !! k) in
      nth periods (v :: h) NaN
        :: groupby_shift periods (<[k := v :: h]> hist) col'
  end.

(** [Series.shift(periods)] on the values of one group, [h] being the
    values that came before, latest first. *)
Fixpoint shift_series (periods : nat) (h : list num) (vs : list num) : list num :=
  match vs with
  | [] => []
  | v :: vs' => nth periods (v :: h) NaN :: shift_series periods (v :: h) vs'
  end.

(** [groupby(key)[col].ffill()]: a missing value takes the last value
    present earlier in its group. *)
Fixpoint groupby_ffill (last : gmap string num) (col : list (string * num)) : list num :=
  match col with
  | [] => []
  | (k, v) :: col' =>
      let v' := if isna v then default NaN (last !! k) else v in
      v' :: groupby_ffill (<[k := v']> last) col'
  end.

(** What [pct_change] does with missing values before it divides: releases
    of pandas before 3.0 forward-fill them inside each group, later ones
    leave them. *)
Inductive fill_method := ffill | no_fill.

Definition pct (x prev : num) : num := fsub (fdiv x prev) (int 1).

(** [groupby(key)[col].pct_change(periods)]. *)
Definition groupby_pct_change (fm : fill_method) (periods : nat)
    (col : list (string * num)) : list num :=
  let filled :=
    match fm with
    | ffill => groupby_ffill ∅ col
    | no_fill => map snd col
    end in
  let shifted := groupby_shift periods ∅ (combine (map fst col) filled) in
  map (fun p => pct (fst p) (snd p)) (combine filled shifted).

Section Merge.
Context {L R : Type}.
Variables (lby : L -> string) (lon : L -> date).
Variables (rby : R -> string) (ron : R -> date).

(** [pd.merge_asof(left, right, by, direction='forward')] on tables sorted
    by their [on] column: every left row is kept and receives the first
    right row, in right order, of its group whose key is at or after its
    own; none when there is no such row. *)
Definition asof_forward (right : list R) (l : L) : option R :=
  List.find (fun r => String.eqb (rby r) (lby l) && (lon l <=? ron r)) right.

(** [direction='backward']: the last right row of the group at or before. *)
Definition asof_backward (right : list R) (l : L) : option R :=
  List.find (fun r => String.eqb (rby r) (lby l) && (ron r <=? lon l)) (rev right).

Definition merge_asof_forward (left : list L) (right : list R) : list (L * option R) :=
  map (fun l => (l, asof_forward right l)) left.

Definition merge_asof_backward (left : list L) (right : list R) : list (L * option R) :=
  map (fun l => (l, asof_backward right l)) left.
End Merge.

(* ===================================================================== *)
(** ** data_filter.py: BenchmarkDataConstructor.filter_data               *)
(* ===================================================================== *)

(** [stk_data['prev_Hiprc'] = stk_data.groupby('Stkcd')['Hiprc'].shift(1)] *)
Definition add_prev_Hiprc (stk_data : list Trd.t) : list TrdPrev.t :=
  map (fun p => TrdPrev.mk (fst p) (snd p))
      (combine stk_data
         (groupby_shift 1 ∅ (map (fun r => (Trd.Stkcd r, Trd.Hiprc r)) stk_data))).

(** Columns of the as-of merged table; a disclosure without a match has NaN
    in the columns that come from the trading table. *)
Definition merged_Loprc (m : Rept.t * option TrdPrev.t) : num :=
  match snd m with Some s => Trd.Loprc (TrdPrev.row s) | None => NaN end.

Definition merged_prev_Hiprc (m : Rept.t * option TrdPrev.t) : num :=
  match snd m with Some s => TrdPrev.prev_Hiprc s | None => NaN end.

(** [result['gap_pct'] = (Loprc - prev_Hiprc) / prev_Hiprc * 100] *)
Definition gap_pct_of (Loprc prev_Hiprc : num) : num :=
  fmul (fdiv (fsub Loprc prev_Hiprc) prev_Hiprc) (int 100).

(** The seven output columns of a retained row.  A row without a matched
    session has no trade date; [gap_rows_complete] below shows that the
    comparison never retains such a row. *)
Definition gap_row (m : Rept.t * option TrdPrev.t) : list Gap.t :=
  match snd m with
  | Some s =>
      [ Gap.mk (Rept.Stkcd (fst m)) (Rept.Reptyp (fst m)) (Rept.Annodt (fst m))
               (Trd.Trddt (TrdPrev.row s)) (merged_Loprc m) (merged_prev_Hiprc m)
               (gap_pct_of (merged_Loprc m) (merged_prev_Hiprc m)) ]
  | None => []
  end.

(** [stk_data] once cleaned, sorted by (Stkcd, Trddt) and given its
    [prev_Hiprc] column. *)
Definition sorted_stk_data (stk : list Trd.t) : list Trd.t :=
  sort_values (by_code_date Trd.Stkcd Trd.Trddt) (dropna stk).

Definition lagged_stk_data (stk : list Trd.t) : list TrdPrev.t :=
  add_prev_Hiprc (sorted_stk_data stk).

Definition TrdPrev_Stkcd (s : TrdPrev.t) : string := Trd.Stkcd (TrdPrev.row s).
Definition TrdPrev_Trddt (s : TrdPrev.t) : date := Trd.Trddt (TrdPrev.row s).

(** The as-of merged table of [filter_data], before the comparison. *)
Definition filter_data_merged (stk : list Trd.t) (pft : list Rept.t)
    : list (Rept.t * option TrdPrev.t) :=
  let stk_data := lagged_stk_data stk in
  let pft_data := dropna pft in
  merge_asof_forward Rept.Stkcd Rept.Annodt TrdPrev_Stkcd TrdPrev_Trddt
    (sort_values (by_date Rept.Annodt) pft_data)
    (sort_values (by_date TrdPrev_Trddt) stk_data).

Definition filter_data (stk : list Trd.t) (pft : list Rept.t) : list Gap.t :=
  let merged := filter_data_merged stk pft in
  let result :=
    List.filter (fun m => fgt (merged_Loprc m) (merged_prev_Hiprc m)) merged in
  flat_map gap_row result.

(* ===================================================================== *)
(** ** data_test.py: preprocess_financial_data                            *)
(* ===================================================================== *)

(** Disclosure with the two growth columns.  data_test.py reads the
    instrument codes back from CSV as integers; they are kept as the
    zero-padded strings of data_filter.py, which changes the order between
    instruments in a sorted table and nothing inside an instrument. *)
Module Growth.
Record t := mk {
  rept : Rept.t;
  profit_growth : num;
  profit_growth_2y : num }.
Definition Stkcd (g : t) : string := Rept.Stkcd (rept g).
Definition Annodt (g : t) : date := Rept.Annodt (rept g).
Definition Profita (g : t) : num := Rept.Profita (rept g).
End Growth.

#[export] Instance Growth_Row : Row Growth.t :=
  fun g => has_na (Growth.rept g)
           || isna (Growth.profit_growth g) || isna (Growth.profit_growth_2y g).

(** [Series.pct_change(periods)] on the values of one group. *)
Definition pct_change_series (periods : nat) (vs : list num) : list num :=
  map (fun p => pct (fst p) (snd p)) (combine vs (shift_series periods [] vs)).

Definition Profita_col (fin_data : list Rept.t) : list (string * num) :=
  map (fun r => (Rept.Stkcd r, Rept.Profita r)) fin_data.

Definition preprocess_financial_data (fm : fill_method) (fin_data : list Rept.t)
    : list Growth.t :=
  let fin_data := sort_values (by_code_date Rept.Stkcd Rept.Annodt) fin_data in
  let profit_growth := groupby_pct_change fm 1 (Profita_col fin_data) in
  let profit_growth_2y := groupby_pct_change fm 4 (Profita_col fin_data) in
  map (fun p => Growth.mk (fst p) (fst (snd p)) (snd (snd p)))
      (combine fin_data (combine profit_growth profit_growth_2y)).

(* ===================================================================== *)
(** ** data_test.py: strategy_consistent_growth                           *)
(* ===================================================================== *)

(** Row of the joined table: the gap event, the growth record attached by
    the backward as-of merge (none when nothing matched), and the columns
    [growth_1q_ago], [growth_2q_ago], ... added so far, in that order. *)
Module Sel.
Record t := mk {
  event : Gap.t;
  growth : option Growth.t;
  growth_q_ago : list num }.
Definition Stkcd (m : t) : string := Gap.Stkcd (event m).
Definition Annodt (m : t) : date := Gap.Annodt (event m).
Definition Trddt (m : t) : date := Gap.Trddt (event m).
Definition profit_growth_2y (m : t) : num :=
  match growth m with Some g => Growth.profit_growth_2y g | None => NaN end.
End Sel.

(** [temp]: the growth series with its announce date moved [3*i] months
    ahead, reduced to the join keys and the renamed growth column. *)
Module Lag.
Record t := mk {
  Stkcd : string;
  Annodt : date;
  growth : num }.
End Lag.

Definition temp (i : nat) (fin_data : list Growth.t) : list Lag.t :=
  map (fun g => Lag.mk (Growth.Stkcd g)
                       (DateOffset_months (3 * Z.of_nat i) (Growth.Annodt g))
                       (Growth.profit_growth g))
      fin_data.

Definition lag_matches (m : Sel.t) (t : Lag.t) : bool :=
  String.eqb (Sel.Stkcd m) (Lag.Stkcd t) && (Sel.Annodt m =? Lag.Annodt t).

Definition with_growth_ago (m : Sel.t) (x : num) : Sel.t :=
  Sel.mk (Sel.event m) (Sel.growth m) (Sel.growth_q_ago m ++ [x]).

(** [pd.merge(merged, temp, on=['Stkcd', 'Annodt'], how='left')]: a left
    row is repeated once per matching right row and kept once, with NaN in
    the new column, when nothing matches. *)
Definition merge_left (merged : list Sel.t) (tmp : list Lag.t) : list Sel.t :=
  flat_map
    (fun m =>
       match List.filter (lag_matches m) tmp with
       | [] => [with_growth_ago m NaN]
       | ts => map (fun t => with_growth_ago m (Lag.growth t)) ts
       end)
    merged.

(** What the column [growth_{i}q_ago] of a joined row can hold: the
    single-period growth of a record of the same instrument whose announce
    date, moved [3*i] months ahead, is the row's own date; or NaN when the
    table has no such record. *)
Definition lag_source (fin_data : list Growth.t) (m : Sel.t) (i : nat) (x : num) : Prop :=
  (exists g, In g fin_data /\ Growth.Stkcd g = Sel.Stkcd m /\
             DateOffset_months (3 * Z.of_nat i) (Growth.Annodt g) = Sel.Annodt m /\
             x = Growth.profit_growth g) \/
  (x = NaN /\
   forall g, In g fin_data -> Growth.Stkcd g = Sel.Stkcd m ->
             DateOffset_months (3 * Z.of_nat i) (Growth.Annodt g) <> Sel.Annodt m).

(** The table handed to the loop by the backward as-of merge. *)
Definition strategy_asof (gap_events : list Gap.t) (fin_data : list Growth.t)
    : list (Gap.t * option Growth.t) :=
  merge_asof_backward Gap.Stkcd Gap.Annodt Growth.Stkcd Growth.Annodt
    (sort_values (by_date Gap.Annodt) gap_events)
    (sort_values (by_date Growth.Annodt) (dropna fin_data)).

(** The joined table after the as-of merge and the loop over
    [range(1, 9)]. *)
Definition strategy_merged (gap_events : list Gap.t) (fin_data : list Growth.t)
    : list Sel.t :=
  let merged :=
    map (fun p => Sel.mk (fst p) (snd p) []) (strategy_asof gap_events fin_data) in
  fold_left (fun merged i => merge_left merged (temp i fin_data)) (seq 1 8) merged.

(** [condition = merged['profit_growth_2y'] > 50] *)
Definition condition (m : Sel.t) : bool := fgt (Sel.profit_growth_2y m) (int 50).

Definition strategy_consistent_growth (gap_events : list Gap.t)
    (fin_data : list Growth.t) : list Sel.t :=
  List.filter condition (strategy_merged gap_events fin_data).

(* ===================================================================== *)
(** ** data_test.py: backtest_strategy                                    *)
(* ===================================================================== *)

(** A selected stock with the two date columns the backtest adds. *)
Module Pos.
Record t := mk {
  sel : Sel.t;
  buy_date : date;
  sell_date : date }.
Definition Stkcd (p : t) : string := Sel.Stkcd (sel p).
End Pos.

(** Row of the table returned by [backtest_strategy] (no benchmark). *)
Module Port.
Record t := mk {
  buy_date : date;
  Return : num;
  cum_return : num }.
End Port.

(** [pd.to_datetime] on a column that already holds dates. *)
Definition to_datetime (d : date) : date := d.

Definition default_hold_period : Z := 90.

Definition open_positions (hold_period : Z) (selected_stocks : list Sel.t) : list Pos.t :=
  map (fun s =>
         let buy_date := to_datetime (Sel.Trddt s) in
         Pos.mk s buy_date (Timedelta_days hold_period buy_date))
      selected_stocks.

(** The close of a matched price row; NaN when the as-of merge found none. *)
Definition matched_Clsprc (o : option Trd.t) : num :=
  match o with Some r => Trd.Clsprc r | None => NaN end.

(** Position after both as-of merges against the price table. *)
Definition Priced : Type := (Pos.t * option Trd.t) * option Trd.t.

Definition position (m : Priced) : Pos.t := fst (fst m).
Definition buy_price (m : Priced) : num := matched_Clsprc (snd (fst m)).
Definition sell_price (m : Priced) : num := matched_Clsprc (snd m).

(** [selected_stocks['return'] = sell_price / buy_price - 1] *)
Definition Return (m : Priced) : num := pct (sell_price m) (buy_price m).

Definition priced_positions (positions : list Pos.t) (price_data : list Trd.t)
    : list Priced :=
  let prices := sort_values (by_date Trd.Trddt) price_data in
  let bought :=
    merge_asof_backward Pos.Stkcd Pos.buy_date Trd.Stkcd Trd.Trddt
      (sort_values (by_date Pos.buy_date) positions) prices in
  merge_asof_forward (fun m => Pos.Stkcd (fst m)) (fun m => Pos.sell_date (fst m))
    Trd.Stkcd Trd.Trddt
    (sort_values (by_date (fun m => Pos.sell_date (fst m))) bought) prices.

(** [Series.mean()]: missing values are skipped; NaN when nothing is left. *)
Definition mean (xs : list num) : num :=
  match List.filter notna xs with
  | [] => NaN
  | x :: xs' => fdiv (fold_left fadd xs' x) (int (Z.of_nat (S (length xs'))))
  end.

(** Group keys of [groupby]: the distinct values, ascending. *)
Definition group_keys (ds : list date) : list date :=
  sort_values Z.leb (nodup Z.eq_dec ds).

Definition group (k : date) (col : list (date * num)) : list num :=
  map snd (List.filter (fun r => fst r =? k) col).

(** [groupby(key)[col].mean().reset_index()] *)
Definition groupby_mean (col : list (date * num)) : list (date * num) :=
  map (fun k => (k, mean (group k col))) (group_keys (map fst col)).

(** [Series.cumprod()]: missing entries stay missing and do not enter the
    running product (pandas multiplies by 1 at their place).  [acc] is the
    product so far, none before the first present entry. *)
Fixpoint cumprod_from (acc : option num) (xs : list num) : list num :=
  match xs with
  | [] => []
  | x :: xs' =>
      if isna x then NaN :: cumprod_from acc xs'
      else
        let p := match acc with Some a => fmul a x | None => x end in
        p :: cumprod_from (Some p) xs'
  end.

Definition cumprod (xs : list num) : list num := cumprod_from None xs.

(** The running product after [ys], none while nothing was multiplied. *)
Definition fprod_from (acc : option num) (ys : list num) : option num :=
  fold_left (fun a y => Some (match a with Some a' => fmul a' y | None => y end))
            ys acc.

(** Product of a list, multiplied left to right. *)
Definition fprod (xs : list num) : num :=
  match xs with
  | [] => int 1
  | x :: xs' => fold_left fmul xs' x
  end.

(** [(1 + portfolio_return['return']).cumprod() - 1] *)
Definition cum_returns (returns : list num) : list num :=
  map (fun c => fsub c (int 1)) (cumprod (map (fadd (int 1)) returns)).

Definition portfolio_return (priced : list Priced) : list (date * num) :=
  groupby_mean (map (fun m => (Pos.buy_date (position m), Return m)) priced).

Definition backtest_positions (positions : list Pos.t) (price_data : list Trd.t)
    : list Port.t :=
  let pr := portfolio_return (priced_positions positions price_data) in
  map (fun p => Port.mk (fst (fst p)) (snd (fst p)) (snd p))
      (combine pr (cum_returns (map snd pr))).

Definition backtest_strategy (selected_stocks : list Sel.t) (price_data : list Trd.t)
    (hold_period : Z) : list Port.t :=
  let price_data :=
    map (fun r => Trd.mk (Trd.Stkcd r) (to_datetime (Trd.Trddt r))
                         (Trd.Hiprc r) (Trd.Loprc r) (Trd.Clsprc r)) price_data in
  backtest_positions (open_positions hold_period selected_stocks) price_data.

(* ===================================================================== *)
(** ** The tables of BenchmarkDataConstructor                             *)
(* ===================================================================== *)

(** [self.raw_data] and [self.processed_data] as dictionaries of tables,
    for what [load_csv_files] and [merge_all_data] store in them and for
    the KeyError of a missing entry.  The store of objects, with the
    statements that update a [DataFrame] in place, comes further down
    (module [Store]). *)

(** A cell of a column added by name. *)
Inductive cell : Type :=
| CDate (d : date)
| CInt (z : Z).

(** A [DataFrame] object: the rows over the columns it was loaded or built
    with, and the columns assigned to it by name afterwards. *)
Record DataFrame (A : Type) : Type := mkDataFrame {
  rows : list A;
  added : gmap string (list cell) }.
Arguments mkDataFrame {A} rows added.
Arguments rows {A} d.
Arguments added {A} d.

Definition frame {A} (rs : list A) : DataFrame A := mkDataFrame rs ∅.

(** [df.copy()]: a new object with the same content. *)
Definition copy {A} (df : DataFrame A) : DataFrame A := df.

(** How a method ends: with its value, or with the KeyError of a missing
    dictionary entry (logged by [log_exceptions_inclass] and raised
    again). *)
Inductive outcome (A : Type) : Type :=
| Returned (a : A)
| KeyError (key : string).
Arguments Returned {A} a.
Arguments KeyError {A} key.

Module BenchmarkDataConstructor.

(** [self.raw_data] holds the tables read from the two folders, by file
    name; [self.processed_data] the entries "stk_data" and "pft_data". *)
Record self : Type := mk {
  raw_stk : gmap string (DataFrame Trd.t);
  raw_pft : gmap string (DataFrame Rept.t);
  stk_data : option (DataFrame Trd.t);
  pft_data : option (DataFrame Rept.t) }.

Definition shards : list string :=
  ["TRD_Dalyr0"; "TRD_Dalyr1"; "TRD_Dalyr2"; "TRD_Dalyr3"; "TRD_Dalyr4";
   "TRD_Dalyr5"].

(** The shards in the order of the list, or the first key that is missing. *)
Fixpoint lookup_all (raw : gmap string (DataFrame Trd.t)) (keys : list string)
    : outcome (list (DataFrame Trd.t)) :=
  match keys with
  | [] => Returned []
  | k :: keys' =>
      match raw !! k with
      | None => KeyError k
      | Some df =>
          match lookup_all raw keys' with
          | Returned dfs => Returned (df :: dfs)
          | KeyError k' => KeyError k'
          end
      end
  end.

(** [pd.concat(frames, axis=0)] of tables as loaded. *)
Definition concat (frames : list (DataFrame Trd.t)) : DataFrame Trd.t :=
  frame (flat_map rows frames).

(** [merge_all_data]: how it ends and the object afterwards.  The entry
    "stk_data" is stored before "IAR_Rept" is looked up. *)
Definition merge_all_data (s : self) : outcome unit * self :=
  match lookup_all (raw_stk s) shards with
  | KeyError k => (KeyError k, s)
  | Returned frames =>
      let merged_df := concat frames in
      let s := mk (raw_stk s) (raw_pft s) (Some (copy merged_df)) (pft_data s) in
      match raw_pft s !! "IAR_Rept" with
      | None => (KeyError "IAR_Rept", s)
      | Some rept =>
          (Returned tt, mk (raw_stk s) (raw_pft s) (stk_data s) (Some (copy rept)))
      end
  end.

End BenchmarkDataConstructor.

(* ===================================================================== *)
(** ** Sample tables                                                      *)
(* ===================================================================== *)

Module Samples.

(** Two sessions of "000001" around an announcement on 2020-07-02. *)
Definition stk : list Trd.t :=
  [ Trd.mk "000001" (ymd 2020 7 1) (int 10) (dec 95 1) (dec 98 1);
    Trd.mk "000001" (ymd 2020 7 2) (int 11) (dec 105 1) (dec 108 1) ].

Definition pft : list Rept.t :=
  [ Rept.mk "000001" (Some 2) (ymd 2020 6 30) (ymd 2020 7 2) (int 150) ].

Definition event : Gap.t :=
  Gap.mk "000001" (Some 2) (ymd 2020 7 2) (ymd 2020 7 2)
         (Fin (105 # 10)) (Fin (10 # 1)) (Fin (500 # 100)).

(** The session of 2020-07-02 recorded twice. *)
Definition stk_twice : list Trd.t :=
  [ Trd.mk "000001" (ymd 2020 7 1) (int 10) (dec 95 1) (dec 98 1);
    Trd.mk "000001" (ymd 2020 7 2) (int 11) (dec 105 1) (dec 108 1);
    Trd.mk "000001" (ymd 2020 7 2) (int 11) (dec 105 1) (dec 108 1) ].

(** A disclosure announced after the last session on record. *)
Definition pft_late : list Rept.t :=
  [ Rept.mk "000001" (Some 3) (ymd 2020 9 30) (ymd 2020 10 20) (int 170) ].


(** Five quarterly disclosures of "000001", and one of "000002" filed
    in between. *)
Definition fin : list Rept.t :=
  [ Rept.mk "000001" (Some 1) (ymd 2019 3 31) (ymd 2019 4 28) (int 100);
    Rept.mk "000001" (Some 2) (ymd 2019 6 30) (ymd 2019 7 28) (int 150);
    Rept.mk "000002" (Some 2) (ymd 2019 6 30) (ymd 2019 8 15) (int 40);
    Rept.mk "000001" (Some 3) (ymd 2019 9 30) (ymd 2019 10 28) (int 120);
    Rept.mk "000001" (Some 4) (ymd 2019 12 31) (ymd 2020 1 28) (int 130);
    Rept.mk "000001" (Some 1) (ymd 2020 3 31) (ymd 2020 4 28) (int 160) ].


(** The sixth disclosure of "000001" came without a profit figure. *)
Definition fin_missing_last : list Rept.t :=
  fin ++ [ Rept.mk "000001" (Some 2) (ymd 2020 6 30) (ymd 2020 6 30) NaN ].

Definition growth : list Growth.t := preprocess_financial_data ffill fin.

(** The growth record of the fifth disclosure of "000001". *)
Definition growth_fifth : Growth.t :=
  Growth.mk (Rept.mk "000001" (Some 1) (ymd 2020 3 31) (ymd 2020 4 28) (int 160))
            (Fin (30 # 130)) (Fin (60 # 100)).

Definition growth_missing_last : list Growth.t :=
  preprocess_financial_data ffill fin_missing_last.

(** A gap event announced exactly three months after the fifth
    disclosure. *)
Definition event_aligned : Gap.t :=
  Gap.mk "000001" (Some 2) (ymd 2020 7 28) (ymd 2020 7 28)
         (Fin (105 # 10)) (Fin (10 # 1)) (Fin (500 # 100)).

(** Two instruments whose fifth-quarter profit is a hundred times the
    first-quarter one. *)
Definition fin_surge : list Rept.t :=
  flat_map
    (fun code =>
       [ Rept.mk code (Some 1) (ymd 2019 3 31) (ymd 2019 4 28) (int 1);
         Rept.mk code (Some 2) (ymd 2019 6 30) (ymd 2019 7 28) (int 2);
         Rept.mk code (Some 3) (ymd 2019 9 30) (ymd 2019 10 28) (int 3);
         Rept.mk code (Some 4) (ymd 2019 12 31) (ymd 2020 1 28) (int 4);
         Rept.mk code (Some 1) (ymd 2020 3 31) (ymd 2020 4 28) (int 100) ])
    ["000001"; "000002"].

(** "000001" stops trading after 2020-07-02; "000002" trades on. *)
Definition price_data : list Trd.t :=
  stk ++
  [ Trd.mk "000002" (ymd 2020 7 31) (int 9) (dec 85 1) (int 9);
    Trd.mk "000002" (ymd 2020 8 3) (int 10) (dec 95 1) (int 10);
    Trd.mk "000002" (ymd 2020 11 2) (int 11) (dec 105 1) (int 11) ].

Definition event2 : Gap.t :=
  Gap.mk "000002" (Some 2) (ymd 2020 8 1) (ymd 2020 8 3)
         (Fin (95 # 10)) (Fin (9 # 1)) (Fin (500 # 90)).

Definition selected : list Sel.t :=
  strategy_consistent_growth [event; event2]
    (preprocess_financial_data ffill fin_surge).

(** The selected row of "000001". *)
Definition selected_000001 : Sel.t :=
  Sel.mk event
    (Some (Growth.mk
             (Rept.mk "000001" (Some 1) (ymd 2020 3 31) (ymd 2020 4 28) (int 100))
             (Fin (96 # 4)) (Fin (99 # 1))))
    [NaN; NaN; NaN; NaN; NaN; NaN; NaN; NaN].

Definition backtest : list Port.t := backtest_strategy selected price_data 90.

(** A constructor that has loaded six shards and the disclosures. *)
Definition loaded : BenchmarkDataConstructor.self :=
  BenchmarkDataConstructor.mk
    (list_to_map
       (map (fun k => (k, frame (if String.eqb k "TRD_Dalyr0" then stk else [])))
            BenchmarkDataConstructor.shards))
    (list_to_map [("IAR_Rept", frame pft)])
    None None.

End Samples.

(* ===================================================================== *)
(** ** Further pandas operations                                          *)
(* ===================================================================== *)

(** [Series.ffill()] on the values of one group, [last] being the last
    value present before them (NaN when there is none). *)
Fixpoint ffill_series (last : num) (vs : list num) : list num :=
  match vs with
  | [] => []
  | v :: vs' =>
      let v' := if isna v then last else v in
      v' :: ffill_series v' vs'
  end.

(** [Series.pct_change(periods)] on the values of one group, with the
    fill that goes before the division. *)
Definition pct_change_group (fm : fill_method) (periods : nat) (vs : list num)
    : list num :=
  pct_change_series periods
    match fm with
    | ffill => ffill_series NaN vs
    | no_fill => vs
    end.

(* ===================================================================== *)
(** ** data_filter.py: count_num, the table written out                   *)
(* ===================================================================== *)

(** Row of company_count_by_quarter.csv. *)
Module Count.
Record t := mk {
  Year : Z;
  Quarter : Z;
  Company_Count : nat }.
End Count.

(** The group key of a trading row: [df['year']], [df['quarter']]. *)
Definition year_quarter (r : Trd.t) : Z * Z :=
  (year_of (Trd.Trddt r), quarter_of (Trd.Trddt r)).

Definition pair_eqb (a b : Z * Z) : bool := (fst a =? fst b) && (snd a =? snd b).

Definition pair_leb (a b : Z * Z) : bool :=
  (fst a <? fst b) || ((fst a =? fst b) && (snd a <=? snd b)).

Definition pair_eq_dec (a b : Z * Z) : {a = b} + {a <> b}.
Proof. decide equality; apply Z.eq_dec. Defined.

(** [Series.nunique()] of a column of codes. *)
Definition nunique (codes : list string) : nat :=
  length (nodup String.string_dec codes).

(** [df.groupby(['year', 'quarter'])['Stkcd'].nunique().reset_index()],
    with the columns renamed: one row per (year, quarter) present, keys
    ascending. *)
Definition nunique_by_quarter (df : list Trd.t) : list Count.t :=
  map (fun k =>
         Count.mk (fst k) (snd k)
           (nunique (map Trd.Stkcd
                         (List.filter (fun r => pair_eqb (year_quarter r) k) df))))
      (sort_values pair_leb (nodup pair_eq_dec (map year_quarter df))).

(** The table [count_num] writes: the counts, sorted by
    ['Year', 'Quarter']. *)
Definition count_num_table (df : list Trd.t) : list Count.t :=
  sort_values (fun a b => pair_leb (Count.Year a, Count.Quarter a)
                                   (Count.Year b, Count.Quarter b))
              (nunique_by_quarter df).

(* ===================================================================== *)
(** ** data_test.py: backtest_strategy with a benchmark                   *)
(* ===================================================================== *)

(** Row of the benchmark table: its date and the column
    [index_name + '_close']. *)
Module Idx.
Record t := mk {
  date : date;
  close : num }.
End Idx.

(** The three columns taken from the benchmark table in the last merge. *)
Module Bench.
Record t := mk {
  date : date;
  benchmark_return : num;
  benchmark_cum : num }.
End Bench.

(** [Series.fillna(v)] on one cell. *)
Definition fillna (v x : num) : num := if isna x then v else x.

(** [pd.merge_asof(left, right, on='date', direction='backward')], without
    groups: the last right row dated at or before the left date. *)
Definition asof_date_backward (right : list Idx.t) (d : date) : option Idx.t :=
  List.find (fun r => Idx.date r <=? d) (rev right).

Definition matched_close (o : option Idx.t) : num :=
  match o with Some r => Idx.close r | None => NaN end.

(** [pd.merge(portfolio_return, benchmark[...], left_on='buy_date',
    right_on='date', how='left')]. *)
Definition merge_benchmark (pr : list Port.t) (bench : list Bench.t)
    : list (Port.t * option Bench.t) :=
  flat_map
    (fun p =>
       match List.filter (fun b => Bench.date b =? Port.buy_date p) bench with
       | [] => [(p, None)]
       | bs => map (fun b => (p, Some b)) bs
       end)
    pr.

Section Benchmark.

(** The logarithm of a positive finite number, as [np.log] returns it. *)
Variable ln : Q -> Q.

(** [np.log] on one cell: NaN below zero, -inf at zero. *)
Definition np_log (x : num) : num :=
  match x with
  | NaN | NInf => NaN
  | PInf => PInf
  | Fin q =>
      match (q ?= 0)%Q with
      | Lt => NaN
      | Eq => NInf
      | Gt => Fin (ln q)
      end
  end.

(** The benchmark table after the as-of merge with the buy dates, with its
    columns [benchmark_return] and [benchmark_cum]. *)
Definition benchmark_table (dates : list date) (benchmark : list Idx.t)
    : list Bench.t :=
  let benchmark :=
    map (fun r => Idx.mk (to_datetime (Idx.date r)) (Idx.close r)) benchmark in
  let benchmark := sort_values (by_date Idx.date) benchmark in
  let merged := map (fun d => (d, asof_date_backward benchmark d)) dates in
  let close := ffill_series NaN (map (fun m => matched_close (snd m)) merged) in
  let benchmark_return :=
    map (fun p => fillna (int 0) (np_log (fdiv (fst p) (snd p))))
        (combine close (shift_series 1 [] close)) in
  let benchmark_cum := cum_returns benchmark_return in
  map (fun p => Bench.mk (fst (fst p)) (snd (fst p)) (snd p))
      (combine (combine (map fst merged) benchmark_return) benchmark_cum).

(** [backtest_strategy(selected_stocks, price_data, hold_period,
    benchmark=benchmark)]. *)
Definition backtest_strategy_benchmark (selected_stocks : list Sel.t)
    (price_data : list Trd.t) (hold_period : Z) (benchmark : list Idx.t)
    : list (Port.t * option Bench.t) :=
  let portfolio_return := backtest_strategy selected_stocks price_data hold_period in
  merge_benchmark portfolio_return
    (benchmark_table (map Port.buy_date portfolio_return) benchmark).

End Benchmark.

(* ===================================================================== *)
(** ** data_filter.py: load_csv_files                                     *)
(* ===================================================================== *)

(** [str(n)] of a non-negative integer. *)
Definition str_of_N (n : N) : string :=
  DecimalString.NilEmpty.string_of_uint (N.to_uint n).

Fixpoint zeros (n : nat) (s : string) : string :=
  match n with
  | O => s
  | S n' => String "0"%char (zeros n' s)
  end.

(** [s.zfill(width)] on a string that has no sign: zeros on the left up
    to [width] characters, nothing for a longer string. *)
Definition zfill (width : nat) (s : string) : string :=
  zeros (width - String.length s) s.

(** [df["Stkcd"].astype(str).str.zfill(6)] on one cell of an integer
    column of non-negative codes. *)
Definition Stkcd_str (code : N) : string := zfill 6 (str_of_N code).

(** The integer [pd.read_csv] gives a cell made of digits, leading zeros
    allowed (the main program of data_test.py reads the codes back this
    way); none for any other cell. *)
Definition int_of_str (s : string) : option N :=
  match s with
  | EmptyString => None
  | _ => option_map N.of_uint (DecimalString.NilEmpty.uint_of_string s)
  end.

(** Rows as [pd.read_csv] returns them, the code column still integer. *)
Module RawTrd.
Record t := mk {
  Stkcd : N;
  Trddt : date;
  Hiprc : num;
  Loprc : num;
  Clsprc : num }.
End RawTrd.

Module RawRept.
Record t := mk {
  Stkcd : N;
  Reptyp : option Z;
  Accper : date;
  Annodt : date;
  Profita : num }.
End RawRept.

Definition Trd_of_raw (r : RawTrd.t) : Trd.t :=
  Trd.mk (Stkcd_str (RawTrd.Stkcd r)) (RawTrd.Trddt r) (RawTrd.Hiprc r)
         (RawTrd.Loprc r) (RawTrd.Clsprc r).

Definition Rept_of_raw (r : RawRept.t) : Rept.t :=
  Rept.mk (Stkcd_str (RawRept.Stkcd r)) (RawRept.Reptyp r) (RawRept.Accper r)
          (RawRept.Annodt r) (RawRept.Profita r).

(** [s.startswith(pre)] and [s.endswith(suf)]. *)
Definition startswith (s pre : string) : bool := String.prefix pre s.

Fixpoint list_prefix (pre s : list ascii) : bool :=
  match pre, s with
  | [], _ => true
  | _ :: _, [] => false
  | a :: pre', b :: s' => Ascii.eqb a b && list_prefix pre' s'
  end.

Definition endswith (s suf : string) : bool :=
  list_prefix (rev (String.list_ascii_of_string suf)) (rev (String.list_ascii_of_string s)).

(** [os.path.splitext(filename)[0]] for a name without a directory part,
    as [os.listdir] gives them: the name up to its last dot, or the whole
    name when there is no dot or only dots come before the last one. *)
Fixpoint rfind_dot (cs : list ascii) : option nat :=
  match cs with
  | [] => None
  | c :: cs' =>
      match rfind_dot cs' with
      | Some i => Some (S i)
      | None => if Ascii.eqb c "."%char then Some O else None
      end
  end.

Definition splitext_root (filename : string) : string :=
  let cs := String.list_ascii_of_string filename in
  match rfind_dot cs with
  | Some dotIndex =>
      if existsb (fun c => negb (Ascii.eqb c "."%char)) (firstn dotIndex cs)
      then String.string_of_list_ascii (firstn dotIndex cs)
      else filename
  | None => filename
  end.

(** What the [try] block of one file comes to: the table read, or an
    exception, which is logged as a warning and goes no further. *)
Inductive read_result (A : Type) : Type :=
| ReadOk (rows : list A)
| ReadFailed.
Arguments ReadOk {A} rows.
Arguments ReadFailed {A}.

(** [self.raw_data] as [load_csv_files] fills it: one dictionary for the
    tables of both folders. *)
Definition raw_table : Type := DataFrame Trd.t + DataFrame Rept.t.

(** One loop over [os.listdir(folder)] for a folder that exists, the
    listing given in the order [os.listdir] returns it and with what
    reading each file comes to.  The memory report logged after each file
    stores nothing and is left out. *)
Definition load_folder {Raw : Type} (store : list Raw -> raw_table)
    (listing : list (string * read_result Raw)) (raw_data : gmap string raw_table)
    : gmap string raw_table :=
  fold_left
    (fun raw_data file =>
       if endswith (fst file) ".csv" then
         if startswith (fst file) "~$" then raw_data
         else
           match snd file with
           | ReadOk rows => <[splitext_root (fst file) := store rows]> raw_data
           | ReadFailed => raw_data
           end
       else raw_data)
    listing raw_data.

Definition store_stk (rows : list RawTrd.t) : raw_table :=
  inl (copy (frame (map Trd_of_raw rows))).

Definition store_pft (rows : list RawRept.t) : raw_table :=
  inr (copy (frame (map Rept_of_raw rows))).

(** [load_csv_files]: the stock folder, then the disclosure folder. *)
Definition load_csv_files (stk_listing : list (string * read_result RawTrd.t))
    (pft_listing : list (string * read_result RawRept.t))
    (raw_data : gmap string raw_table) : gmap string raw_table :=
  load_folder store_pft pft_listing (load_folder store_stk stk_listing raw_data).

(* ===================================================================== *)
(** ** More sample data                                                   *)
(* ===================================================================== *)

Module MoreSamples.

(** Two quotes of a benchmark index. *)
Definition index : list Idx.t :=
  [ Idx.mk (ymd 2020 6 30) (int 1000);
    Idx.mk (ymd 2020 8 3) (int 1100) ].

(** A stock folder with one readable shard, its lock file, a shard that
    cannot be read and a text file. *)
Definition shard0 : list RawTrd.t :=
  [ RawTrd.mk 1 (ymd 2020 7 1) (int 10) (dec 95 1) (dec 98 1);
    RawTrd.mk 1 (ymd 2020 7 2) (int 11) (dec 105 1) (dec 108 1) ].

Definition stk_listing : list (string * read_result RawTrd.t) :=
  [ ("TRD_Dalyr0.csv", ReadOk shard0);
    ("~$TRD_Dalyr0.csv", ReadOk []);
    ("TRD_Dalyr1.csv", ReadFailed);
    ("readme.txt", ReadFailed) ].

Definition rept : list RawRept.t :=
  [ RawRept.mk 1 (Some 2) (ymd 2020 6 30) (ymd 2020 7 2) (int 150) ].

Definition pft_listing : list (string * read_result RawRept.t) :=
  [ ("IAR_Rept.csv", ReadOk rept) ].

(** The gap event of "000002" as a selected row. *)
Definition selected_000002 : Sel.t := Sel.mk Samples.event2 None [].

End MoreSamples.

(* ===================================================================== *)
(** ** Single-column sorts, ties in any order                             *)
(* ===================================================================== *)

(** [df.sort_values(col)] on one date column: pandas sorts with an
    unstable algorithm, so rows with equal dates can come out in any
    order, and in a different one from one call to another.  A [date_sort]
    stands for one such call; [sorts_by_date] says what every call
    guarantees; [stable_sort] is the one used by the definitions above. *)
Definition date_sort : Type := forall A : Type, (A -> date) -> list A -> list A.

Definition sorts_by_date (s : date_sort) : Prop :=
  forall (A : Type) (on : A -> date) (l : list A),
    Permutation (s A on l) l /\
    StronglySorted (fun a b => on a <= on b) (s A on l).

Definition stable_sort : date_sort := fun A on => sort_values (by_date on).

(** [filter_data] with its two single-column sorts done by [s]. *)
Definition filter_data_merged_with (s : date_sort) (stk : list Trd.t)
    (pft : list Rept.t) : list (Rept.t * option TrdPrev.t) :=
  let stk_data := lagged_stk_data stk in
  let pft_data := dropna pft in
  merge_asof_forward Rept.Stkcd Rept.Annodt TrdPrev_Stkcd TrdPrev_Trddt
    (s _ Rept.Annodt pft_data) (s _ TrdPrev_Trddt stk_data).

Definition filter_data_with (s : date_sort) (stk : list Trd.t) (pft : list Rept.t)
    : list Gap.t :=
  let merged := filter_data_merged_with s stk pft in
  let result :=
    List.filter (fun m => fgt (merged_Loprc m) (merged_prev_Hiprc m)) merged in
  flat_map gap_row result.

(** A disclosure and the event row made of it have the same instrument,
    report type and announce date. *)
Definition row_of_disclosure (d : Rept.t) (e : Gap.t) : Prop :=
  Gap.Stkcd e = Rept.Stkcd d /\ Gap.Reptyp e = Rept.Reptyp d /\
  Gap.Annodt e = Rept.Annodt d.

(** [strategy_consistent_growth] with its two single-column sorts done by
    [s]. *)
Definition strategy_asof_with (s : date_sort) (gap_events : list Gap.t)
    (fin_data : list Growth.t) : list (Gap.t * option Growth.t) :=
  merge_asof_backward Gap.Stkcd Gap.Annodt Growth.Stkcd Growth.Annodt
    (s _ Gap.Annodt gap_events) (s _ Growth.Annodt (dropna fin_data)).

Definition strategy_merged_with (s : date_sort) (gap_events : list Gap.t)
    (fin_data : list Growth.t) : list Sel.t :=
  let merged :=
    map (fun p => Sel.mk (fst p) (snd p) []) (strategy_asof_with s gap_events fin_data) in
  fold_left (fun merged i => merge_left merged (temp i fin_data)) (seq 1 8) merged.

Definition strategy_consistent_growth_with (s : date_sort) (gap_events : list Gap.t)
    (fin_data : list Growth.t) : list Sel.t :=
  List.filter condition (strategy_merged_with s gap_events fin_data).

(* ===================================================================== *)
(** ** Rounded arithmetic                                                 *)
(* ===================================================================== *)

(** The cells above are exact rationals.  A float64 operation returns the
    exact result rounded; [rnd] stands for that rounding and [rounds] is
    the usual bound on it, a relative error of at most 2^-53, which
    float64 meets wherever the result neither overflows nor underflows. *)
Definition unit_roundoff : Q := 1 # 2 ^ 53.

Definition rounds (rnd : Q -> Q) : Prop :=
  forall x, (Qabs (rnd x - x) <= unit_roundoff * Qabs x)%Q.

Definition round (rnd : Q -> Q) (x : num) : num :=
  match x with
  | Fin q => Fin (rnd q)
  | _ => x
  end.

(** [Series.cumprod()], every product rounded. *)
Fixpoint cumprod_from_rounded (rnd : Q -> Q) (acc : option num) (xs : list num)
    : list num :=
  match xs with
  | [] => []
  | x :: xs' =>
      if isna x then NaN :: cumprod_from_rounded rnd acc xs'
      else
        let p := match acc with Some a => round rnd (fmul a x) | None => x end in
        p :: cumprod_from_rounded rnd (Some p) xs'
  end.

(** [(1 + portfolio_return['return']).cumprod() - 1], every sum, product
    and difference rounded. *)
Definition cum_returns_rounded (rnd : Q -> Q) (returns : list num) : list num :=
  map (fun c => round rnd (fsub c (int 1)))
      (cumprod_from_rounded rnd None
         (map (fun r => round rnd (fadd (int 1) r)) returns)).

(** The two as-of merges of [backtest_strategy] against the price table,
    with their single-column sorts done by [s]. *)
Definition priced_positions_with (s : date_sort) (positions : list Pos.t)
    (price_data : list Trd.t) : list Priced :=
  let prices := s _ Trd.Trddt price_data in
  let bought :=
    merge_asof_backward Pos.Stkcd Pos.buy_date Trd.Stkcd Trd.Trddt
      (s _ Pos.buy_date positions) prices in
  merge_asof_forward (fun m => Pos.Stkcd (fst m)) (fun m => Pos.sell_date (fst m))
    Trd.Stkcd Trd.Trddt
    (s _ (fun m : Pos.t * option Trd.t => Pos.sell_date (fst m)) bought) prices.

(** [backtest_strategy] without a benchmark, with its single-column sorts
    done by [s]. *)
Definition backtest_strategy_with (s : date_sort) (selected_stocks : list Sel.t)
    (price_data : list Trd.t) (hold_period : Z) : list Port.t :=
  let pr :=
    portfolio_return
      (priced_positions_with s (open_positions hold_period selected_stocks)
                             price_data) in
  map (fun p => Port.mk (fst (fst p)) (snd (fst p)) (snd p))
      (combine pr (cum_returns (map snd pr))).

(* ===================================================================== *)
(** ** Objects and in-place updates                                       *)
(* ===================================================================== *)

(** The functions above give the tables a call computes.  Here the same
    programs are run statement by statement on a store of objects.  A
    Python name holds a reference; [df.sort_values(...)], [df.dropna()],
    [df.copy()], [df.rename(...)], [df[mask]], [df[[...]]], [pd.concat],
    [pd.merge], [pd.merge_asof] and [groupby(...)...reset_index()] build a
    new object; [df[name] = column] and [df.columns = names] update the
    object [df] refers to, which is also the object of every other name
    and dictionary entry that refers to it. *)
Module Store.

Definition ref : Type := nat.

(** The content of a [DataFrame]: its rows, over one of the column sets
    that the two main programs give a table. *)
Inductive table : Type :=
| Trading (rows : list Trd.t)
    (* Stkcd, Trddt, Hiprc, Loprc, Clsprc *)
| TradingYear (rows : list (Trd.t * Z))
    (* ... and year *)
| TradingQuarter (rows : list (Trd.t * Z * Z))
    (* ... and year, quarter *)
| QuarterCounts (rows : list Count.t)
    (* year, quarter, Stkcd (the count) *)
| CompanyCounts (rows : list Count.t)
    (* Year, Quarter, Company_Count *)
| Lagged (rows : list TrdPrev.t)
    (* the trading columns and prev_Hiprc *)
| Disclosures (rows : list Rept.t)
    (* Stkcd, Reptyp, Accper, Annodt, Profita *)
| Matched (rows : list (Rept.t * option TrdPrev.t))
    (* a disclosure and the columns of its session, NaN without one *)
| MatchedGaps (rows : list (Rept.t * option TrdPrev.t * num))
    (* ... and gap_pct *)
| GapEvents (rows : list Gap.t)
    (* Stkcd, Reptyp, Annodt, Trddt, Loprc, prev_Hiprc, gap_pct *)
| Growth1 (rows : list (Rept.t * num))
    (* the disclosure columns and profit_growth *)
| GrowthData (rows : list Growth.t)
    (* ... and profit_growth, profit_growth_2y *)
| GrowthLag (rows : list Lag.t)
    (* Stkcd, Annodt, profit_growth *)
| GrowthAgo (i : nat) (rows : list Lag.t)
    (* Stkcd, Annodt, growth_{i}q_ago *)
| Joined (rows : list Sel.t)
    (* a gap event, its growth record, growth_1q_ago, ... *)
| Bought (rows : list (Sel.t * date))
    (* ... and buy_date *)
| Positions (rows : list Pos.t)
    (* ... and buy_date, sell_date *)
| BuyPrices (rows : list Trd.t)
    (* Stkcd, buy_date, Hiprc, Loprc, buy_price *)
| SellPrices (rows : list Trd.t)
    (* Stkcd, sell_date, Hiprc, Loprc, sell_price *)
| BoughtAt (rows : list (Pos.t * option Trd.t))
    (* a position and the columns of its buy session *)
| PricedPositions (rows : list Priced)
    (* ... and the columns of its sell session *)
| Returns (rows : list (Priced * num))
    (* ... and return *)
| PortfolioReturn (rows : list (date * num))
    (* buy_date, return *)
| Portfolio (rows : list Port.t)
    (* buy_date, return, cum_return *)
| Index (rows : list Idx.t)
    (* date, {index_name}_close *)
| BuyDates (rows : list date)
    (* buy_date *)
| Dates (rows : list date)
    (* date *)
| IndexReturn (rows : list (Idx.t * num))
    (* date, {index_name}_close, benchmark_return *)
| IndexCum (rows : list (Idx.t * num * num))
    (* ... and benchmark_cum *)
| Benchmarks (rows : list Bench.t)
    (* date, benchmark_return, benchmark_cum *)
| PortfolioBenchmark (rows : list (Port.t * option Bench.t)).
    (* the portfolio columns and those of the benchmark *)

(** An object: a [DataFrame], or a dictionary of references such as
    [self.raw_data] and [self.processed_data]. *)
Inductive object : Type :=
| Frame (t : table)
| Dict (entries : gmap string ref).

(** What a run can raise.  [PandasError] stands for any exception raised
    inside a pandas call (a MergeError on the key types of an empty table,
    an AttributeError of the [.dt] accessor, ...); [OtherColumns] ends the
    run on a table whose columns are not those the statement is written
    for, which the embedding does not follow further. *)
Inductive exn : Type :=
| KeyError (key : string)
| AttributeError
| OtherColumns
| PandasError.

Inductive result (A : Type) : Type :=
| Done (a : A)
| Raised (e : exn).
Arguments Done {A} a.
Arguments Raised {A} e.

(** The store: the objects by reference; which pandas call, counted from
    the next one, raises (none: no call does); the files written. *)
Record state : Type := mkState {
  heap : list object;
  failing : option nat;
  files : gmap string table }.

Definition M (A : Type) : Type := state -> result A * state.

#[global] Instance M_ret : MRet M := fun A a s => (Done a, s).

#[global] Instance M_bind : MBind M := fun A B k m s =>
  match m s with
  | (Done a, s') => k a s'
  | (Raised e, s') => (Raised e, s')
  end.

Definition raise {A} (e : exn) : M A := fun s => (Raised e, s).

(** A new object; its reference is the next free one. *)
Definition alloc (o : object) : M ref := fun s =>
  (Done (length (heap s)), mkState (heap s ++ [o]) (failing s) (files s)).

Definition load (r : ref) : M object := fun s =>
  match heap s !! r with
  | Some o => (Done o, s)
  | None => (Raised AttributeError, s)
  end.

(** The object at [r] is replaced: every holder of [r] sees the change. *)
Definition store (r : ref) (o : object) : M unit := fun s =>
  (Done tt, mkState (<[r := o]> (heap s)) (failing s) (files s)).

(** The start of a pandas call: it raises if this is the failing one. *)
Definition pandas : M unit := fun s =>
  match failing s with
  | Some O => (Raised PandasError, s)
  | Some (S n) => (Done tt, mkState (heap s) (Some n) (files s))
  | None => (Done tt, s)
  end.

Definition frame_at (r : ref) : M table :=
  o ← load r;
  match o with
  | Frame t => mret t
  | Dict _ => raise AttributeError
  end.

Definition dict_at (r : ref) : M (gmap string ref) :=
  o ← load r;
  match o with
  | Dict entries => mret entries
  | Frame _ => raise AttributeError
  end.

(** The rows of [df], read through the columns [cols] expects. *)
Definition view {A} (cols : table -> option A) (df : ref) : M A :=
  t ← frame_at df;
  match cols t with
  | Some rows => mret rows
  | None => raise OtherColumns
  end.

(** [d[key]]: the reference stored under [key], not a copy. *)
Definition getitem (d : ref) (key : string) : M ref :=
  entries ← dict_at d;
  match entries !! key with
  | Some r => mret r
  | None => raise (KeyError key)
  end.

(** [d[key] = value] *)
Definition setitem (d : ref) (key : string) (value : ref) : M unit :=
  entries ← dict_at d;
  store d (Dict (<[key := value]> entries)).

(** A pandas call on [df] that returns a new [DataFrame]. *)
Definition method {A} (cols : table -> option A) (f : A -> table) (df : ref)
    : M ref :=
  pandas;;
  rows ← view cols df;
  alloc (Frame (f rows)).

(** A pandas call on two tables that returns a new [DataFrame]. *)
Definition method2 {A B} (cols1 : table -> option A) (cols2 : table -> option B)
    (f : A -> B -> table) (left right : ref) : M ref :=
  pandas;;
  rows1 ← view cols1 left;
  rows2 ← view cols2 right;
  alloc (Frame (f rows1 rows2)).

(** [df[name] = column], the column computed from [df]: one call for the
    column, one for the assignment, which changes the object of [df]. *)
Definition assign {A} (cols : table -> option A) (f : A -> table) (df : ref)
    : M unit :=
  pandas;;
  rows ← view cols df;
  pandas;;
  store df (Frame (f rows)).

(** [df.copy()] *)
Definition copy (df : ref) : M ref :=
  pandas;;
  t ← frame_at df;
  alloc (Frame t).

Definition write_file (name : string) (t : table) : M unit := fun s =>
  (Done tt, mkState (heap s) (failing s) (<[name := t]> (files s))).

(** [df.to_csv(name, index=False)] *)
Definition to_csv (df : ref) (name : string) : M unit :=
  pandas;;
  t ← frame_at df;
  write_file name t.

(** [for x in xs: a = body(a, x)] *)
Fixpoint for_each {A B} (body : A -> B -> M A) (xs : list B) (a : A) : M A :=
  match xs with
  | [] => mret a
  | x :: xs' => a' ← body a x; for_each body xs' a'
  end.

(** The items [d[key]] of a list display, left to right. *)
Fixpoint getitems (d : ref) (keys : list string) : M (list ref) :=
  match keys with
  | [] => mret []
  | key :: keys' =>
      r ← getitem d key;
      rs ← getitems d keys';
      mret (r :: rs)
  end.

Fixpoint views {A} (cols : table -> option A) (dfs : list ref) : M (list A) :=
  match dfs with
  | [] => mret []
  | df :: dfs' =>
      rows ← view cols df;
      rest ← views cols dfs';
      mret (rows :: rest)
  end.

(** The columns a statement expects. *)
Definition as_Trading (t : table) : option (list Trd.t) :=
  match t with Trading rows => Some rows | _ => None end.
Definition as_TradingYear (t : table) : option (list (Trd.t * Z)) :=
  match t with TradingYear rows => Some rows | _ => None end.
Definition as_TradingQuarter (t : table) : option (list (Trd.t * Z * Z)) :=
  match t with TradingQuarter rows => Some rows | _ => None end.
Definition as_QuarterCounts (t : table) : option (list Count.t) :=
  match t with QuarterCounts rows => Some rows | _ => None end.
Definition as_CompanyCounts (t : table) : option (list Count.t) :=
  match t with CompanyCounts rows => Some rows | _ => None end.
Definition as_Lagged (t : table) : option (list TrdPrev.t) :=
  match t with Lagged rows => Some rows | _ => None end.
Definition as_Disclosures (t : table) : option (list Rept.t) :=
  match t with Disclosures rows => Some rows | _ => None end.
Definition as_Matched (t : table) : option (list (Rept.t * option TrdPrev.t)) :=
  match t with Matched rows => Some rows | _ => None end.
Definition as_MatchedGaps (t : table)
    : option (list (Rept.t * option TrdPrev.t * num)) :=
  match t with MatchedGaps rows => Some rows | _ => None end.
Definition as_GapEvents (t : table) : option (list Gap.t) :=
  match t with GapEvents rows => Some rows | _ => None end.
Definition as_Growth1 (t : table) : option (list (Rept.t * num)) :=
  match t with Growth1 rows => Some rows | _ => None end.
Definition as_GrowthData (t : table) : option (list Growth.t) :=
  match t with GrowthData rows => Some rows | _ => None end.
Definition as_GrowthLag (t : table) : option (list Lag.t) :=
  match t with GrowthLag rows => Some rows | _ => None end.
Definition as_GrowthAgo (t : table) : option (list Lag.t) :=
  match t with GrowthAgo _ rows => Some rows | _ => None end.
Definition as_Joined (t : table) : option (list Sel.t) :=
  match t with Joined rows => Some rows | _ => None end.
Definition as_Bought (t : table) : option (list (Sel.t * date)) :=
  match t with Bought rows => Some rows | _ => None end.
Definition as_Positions (t : table) : option (list Pos.t) :=
  match t with Positions rows => Some rows | _ => None end.
Definition as_BuyPrices (t : table) : option (list Trd.t) :=
  match t with BuyPrices rows => Some rows | _ => None end.
Definition as_SellPrices (t : table) : option (list Trd.t) :=
  match t with SellPrices rows => Some rows | _ => None end.
Definition as_BoughtAt (t : table) : option (list (Pos.t * option Trd.t)) :=
  match t with BoughtAt rows => Some rows | _ => None end.
Definition as_PricedPositions (t : table) : option (list Priced) :=
  match t with PricedPositions rows => Some rows | _ => None end.
Definition as_Returns (t : table) : option (list (Priced * num)) :=
  match t with Returns rows => Some rows | _ => None end.
Definition as_PortfolioReturn (t : table) : option (list (date * num)) :=
  match t with PortfolioReturn rows => Some rows | _ => None end.
Definition as_Portfolio (t : table) : option (list Port.t) :=
  match t with Portfolio rows => Some rows | _ => None end.
Definition as_Index (t : table) : option (list Idx.t) :=
  match t with Index rows => Some rows | _ => None end.
Definition as_BuyDates (t : table) : option (list date) :=
  match t with BuyDates rows => Some rows | _ => None end.
Definition as_Dates (t : table) : option (list date) :=
  match t with Dates rows => Some rows | _ => None end.
Definition as_IndexReturn (t : table) : option (list (Idx.t * num)) :=
  match t with IndexReturn rows => Some rows | _ => None end.
Definition as_IndexCum (t : table) : option (list (Idx.t * num * num)) :=
  match t with IndexCum rows => Some rows | _ => None end.
Definition as_Benchmarks (t : table) : option (list Bench.t) :=
  match t with Benchmarks rows => Some rows | _ => None end.

(* --------------------------------------------------------------------- *)
(** *** data_filter.py                                                    *)
(* --------------------------------------------------------------------- *)

(** The two dictionaries of a [BenchmarkDataConstructor]. *)
Record self : Type := mkSelf {
  raw_data : ref;
  processed_data : ref }.

(** [pd.concat(frames, axis=0)] of trading tables. *)
Definition concat (frames : list ref) : M ref :=
  pandas;;
  tables ← views as_Trading frames;
  alloc (Frame (Trading (List.concat tables))).

Definition merge_all_data (self : self) : M unit :=
  frames ← getitems (raw_data self) BenchmarkDataConstructor.shards;
  merged_df ← concat frames;
  stk ← copy merged_df;
  setitem (processed_data self) "stk_data" stk;;
  rept ← getitem (raw_data self) "IAR_Rept";
  pft ← copy rept;
  setitem (processed_data self) "pft_data" pft.

(** [df.groupby(['year', 'quarter'])['Stkcd'].nunique().reset_index()] on
    the columns [count_num] has added. *)
Definition nunique_by_year_quarter (df : list (Trd.t * Z * Z)) : list Count.t :=
  map (fun k =>
         Count.mk (fst k) (snd k)
           (nunique (map (fun r => Trd.Stkcd (fst (fst r)))
                         (List.filter
                            (fun r => pair_eqb (snd (fst r), snd r) k) df))))
      (sort_values pair_leb
         (nodup pair_eq_dec (map (fun r => (snd (fst r), snd r)) df))).

Definition count_num (self : self) : M unit :=
  df ← getitem (processed_data self) "stk_data";
  assign as_Trading
    (fun rows => TradingYear (map (fun r => (r, year_of (Trd.Trddt r))) rows)) df;;
  assign as_TradingYear
    (fun rows =>
       TradingQuarter (map (fun r => (r, quarter_of (Trd.Trddt (fst r)))) rows)) df;;
  result ← method as_TradingQuarter
             (fun rows => QuarterCounts (nunique_by_year_quarter rows)) df;
  assign as_QuarterCounts CompanyCounts result;;
  result ← method as_CompanyCounts
             (fun rows =>
                CompanyCounts
                  (sort_values
                     (fun a b => pair_leb (Count.Year a, Count.Quarter a)
                                          (Count.Year b, Count.Quarter b))
                     rows))
             result;
  to_csv result "company_count_by_quarter.csv".

(** [result[['Stkcd', 'Reptyp', 'Annodt', 'Trddt', 'Loprc', 'prev_Hiprc',
    'gap_pct']]] on one row; a row without a session has no trade date
    (the comparison keeps none). *)
Definition gap_event (m : Rept.t * option TrdPrev.t * num) : list Gap.t :=
  match snd (fst m) with
  | Some s =>
      [ Gap.mk (Rept.Stkcd (fst (fst m))) (Rept.Reptyp (fst (fst m)))
               (Rept.Annodt (fst (fst m))) (Trd.Trddt (TrdPrev.row s))
               (merged_Loprc (fst m)) (merged_prev_Hiprc (fst m)) (snd m) ]
  | None => []
  end.

Section Programs.

(** The single-column sorts of a run. *)
Variable sort : date_sort.

Definition filter_data (self : self) : M ref :=
  stk_data ← getitem (processed_data self) "stk_data";
  stk_data ← method as_Trading (fun rows => Trading (dropna rows)) stk_data;
  pft_data ← getitem (processed_data self) "pft_data";
  pft_data ← method as_Disclosures (fun rows => Disclosures (dropna rows)) pft_data;
  stk_data ← method as_Trading
               (fun rows =>
                  Trading (sort_values (by_code_date Trd.Stkcd Trd.Trddt) rows))
               stk_data;
  assign as_Trading (fun rows => Lagged (add_prev_Hiprc rows)) stk_data;;
  left ← method as_Disclosures
           (fun rows => Disclosures (sort _ Rept.Annodt rows)) pft_data;
  right ← method as_Lagged (fun rows => Lagged (sort _ TrdPrev_Trddt rows)) stk_data;
  merged ← method2 as_Disclosures as_Lagged
             (fun left right =>
                Matched (merge_asof_forward Rept.Stkcd Rept.Annodt
                           TrdPrev_Stkcd TrdPrev_Trddt left right))
             left right;
  result ← method as_Matched
             (fun rows =>
                Matched (List.filter
                           (fun m => fgt (merged_Loprc m) (merged_prev_Hiprc m))
                           rows))
             merged;
  result ← copy result;
  assign as_Matched
    (fun rows =>
       MatchedGaps
         (map (fun m => (m, gap_pct_of (merged_Loprc m) (merged_prev_Hiprc m)))
              rows))
    result;;
  method as_MatchedGaps (fun rows => GapEvents (flat_map gap_event rows)) result.

(* --------------------------------------------------------------------- *)
(** *** data_test.py                                                      *)
(* --------------------------------------------------------------------- *)

Definition preprocess_financial_data (fm : fill_method) (fin_data : ref) : M ref :=
  fin_data ← method as_Disclosures
               (fun rows =>
                  Disclosures (sort_values (by_code_date Rept.Stkcd Rept.Annodt) rows))
               fin_data;
  assign as_Disclosures
    (fun rows => Growth1 (combine rows (groupby_pct_change fm 1 (Profita_col rows))))
    fin_data;;
  assign as_Growth1
    (fun rows =>
       GrowthData
         (map (fun p => Growth.mk (fst (fst p)) (snd (fst p)) (snd p))
              (combine rows
                 (groupby_pct_change fm 4 (Profita_col (map fst rows))))))
    fin_data;;
  mret fin_data.

(** [df['Annodt'] = df['Annodt'] + pd.DateOffset(months=n)] on one row. *)
Definition shift_Annodt (months : Z) (g : Growth.t) : Growth.t :=
  Growth.mk
    (Rept.mk (Growth.Stkcd g) (Rept.Reptyp (Growth.rept g))
             (Rept.Accper (Growth.rept g))
             (DateOffset_months months (Growth.Annodt g)) (Growth.Profita g))
    (Growth.profit_growth g) (Growth.profit_growth_2y g).

Definition strategy_consistent_growth (gap_events fin_data : ref) : M ref :=
  left ← method as_GapEvents (fun rows => GapEvents (sort _ Gap.Annodt rows))
           gap_events;
  right ← method as_GrowthData (fun rows => GrowthData (dropna rows)) fin_data;
  right ← method as_GrowthData (fun rows => GrowthData (sort _ Growth.Annodt rows))
            right;
  merged ← method2 as_GapEvents as_GrowthData
             (fun left right =>
                Joined (map (fun p => Sel.mk (fst p) (snd p) [])
                            (merge_asof_backward Gap.Stkcd Gap.Annodt
                               Growth.Stkcd Growth.Annodt left right)))
             left right;
  fin_data_past ← copy fin_data;
  assign as_GrowthData (fun rows => GrowthData (map (shift_Annodt 3) rows))
    fin_data_past;;
  merged ← for_each
             (fun merged i =>
                temp ← copy fin_data;
                assign as_GrowthData
                  (fun rows => GrowthData (map (shift_Annodt (3 * Z.of_nat i)) rows))
                  temp;;
                temp ← method as_GrowthData
                         (fun rows =>
                            GrowthLag
                              (map (fun g => Lag.mk (Growth.Stkcd g) (Growth.Annodt g)
                                                    (Growth.profit_growth g))
                                   rows))
                         temp;
                temp ← method as_GrowthLag (GrowthAgo i) temp;
                method2 as_Joined as_GrowthAgo
                  (fun merged temp => Joined (merge_left merged temp)) merged temp)
             (seq 1 8) merged;
  selected ← method as_Joined (fun rows => Joined (List.filter condition rows))
               merged;
  copy selected.

(** [df['Trddt'] = pd.to_datetime(df['Trddt'])] on one row. *)
Definition Trddt_to_datetime (r : Trd.t) : Trd.t :=
  Trd.mk (Trd.Stkcd r) (to_datetime (Trd.Trddt r)) (Trd.Hiprc r) (Trd.Loprc r)
         (Trd.Clsprc r).

Definition date_to_datetime (r : Idx.t) : Idx.t :=
  Idx.mk (to_datetime (Idx.date r)) (Idx.close r).

(** The logarithm of a positive finite number, as [np.log] returns it. *)
Variable ln : Q -> Q.

(** The statements under [if benchmark is not None]. *)
Definition with_benchmark (portfolio_return benchmark : ref) : M ref :=
  assign as_Index (fun rows => Index (map date_to_datetime rows)) benchmark;;
  benchmark ← method as_Index (fun rows => Index (sort _ Idx.date rows)) benchmark;
  dates ← method as_Portfolio (fun rows => BuyDates (map Port.buy_date rows))
            portfolio_return;
  dates ← method as_BuyDates Dates dates;
  benchmark ← method2 as_Dates as_Index
                (fun dates benchmark =>
                   Index (map (fun d =>
                                 Idx.mk d (matched_close
                                             (asof_date_backward benchmark d)))
                              dates))
                dates benchmark;
  assign as_Index
    (fun rows =>
       Index (map (fun p => Idx.mk (Idx.date (fst p)) (snd p))
                  (combine rows (ffill_series NaN (map Idx.close rows)))))
    benchmark;;
  assign as_Index
    (fun rows =>
       IndexReturn
         (combine rows
            (map (fun p => np_log ln (fdiv (fst p) (snd p)))
                 (combine (map Idx.close rows)
                          (shift_series 1 [] (map Idx.close rows))))))
    benchmark;;
  assign as_IndexReturn
    (fun rows => IndexReturn (map (fun p => (fst p, fillna (int 0) (snd p))) rows))
    benchmark;;
  assign as_IndexReturn
    (fun rows => IndexCum (combine rows (cum_returns (map snd rows))))
    benchmark;;
  columns ← method as_IndexCum
              (fun rows =>
                 Benchmarks
                   (map (fun p => Bench.mk (Idx.date (fst (fst p))) (snd (fst p))
                                           (snd p))
                        rows))
              benchmark;
  method2 as_Portfolio as_Benchmarks
    (fun portfolio_return columns =>
       PortfolioBenchmark (merge_benchmark portfolio_return columns))
    portfolio_return columns.

Definition backtest_strategy (selected_stocks price_data : ref) (hold_period : Z)
    (benchmark : option ref) : M ref :=
  assign as_Trading (fun rows => Trading (map Trddt_to_datetime rows)) price_data;;
  assign as_Joined
    (fun rows => Bought (map (fun r => (r, to_datetime (Sel.Trddt r))) rows))
    selected_stocks;;
  assign as_Bought
    (fun rows =>
       Positions
         (map (fun r => Pos.mk (fst r) (snd r) (Timedelta_days hold_period (snd r)))
              rows))
    selected_stocks;;
  left ← method as_Positions (fun rows => Positions (sort _ Pos.buy_date rows))
           selected_stocks;
  right ← method as_Trading BuyPrices price_data;
  right ← method as_BuyPrices (fun rows => BuyPrices (sort _ Trd.Trddt rows)) right;
  selected_stocks ← method2 as_Positions as_BuyPrices
                      (fun left right =>
                         BoughtAt (merge_asof_backward Pos.Stkcd Pos.buy_date
                                     Trd.Stkcd Trd.Trddt left right))
                      left right;
  left ← method as_BoughtAt
           (fun rows =>
              BoughtAt (sort _ (fun m : Pos.t * option Trd.t => Pos.sell_date (fst m))
                             rows))
           selected_stocks;
  right ← method as_Trading SellPrices price_data;
  right ← method as_SellPrices (fun rows => SellPrices (sort _ Trd.Trddt rows)) right;
  selected_stocks ← method2 as_BoughtAt as_SellPrices
                      (fun left right =>
                         PricedPositions
                           (merge_asof_forward (fun m => Pos.Stkcd (fst m))
                              (fun m => Pos.sell_date (fst m))
                              Trd.Stkcd Trd.Trddt left right))
                      left right;
  assign as_PricedPositions
    (fun rows => Returns (map (fun m => (m, Return m)) rows)) selected_stocks;;
  portfolio_return ← method as_Returns
                       (fun rows =>
                          PortfolioReturn
                            (groupby_mean
                               (map (fun r => (Pos.buy_date (position (fst r)), snd r))
                                    rows)))
                       selected_stocks;
  assign as_PortfolioReturn
    (fun rows =>
       Portfolio (map (fun p => Port.mk (fst (fst p)) (snd (fst p)) (snd p))
                      (combine rows (cum_returns (map snd rows)))))
    portfolio_return;;
  match benchmark with
  | Some benchmark => with_benchmark portfolio_return benchmark
  | None => mret portfolio_return
  end.

End Programs.

(** The reference a dictionary of the store holds under [key]. *)
Definition entry (s : state) (d : ref) (key : string) : option ref :=
  match heap s !! d with
  | Some (Dict entries) => entries !! key
  | _ => None
  end.

(** A run of [m] writes only to objects whose reference is in [W], to
    dictionaries and to new objects, however it ends; [Q] holds of what it
    returns.  [W] has every reference that is still free. *)
Definition writes_only (W : ref -> Prop) {A} (m : M A) (Q : A -> Prop) : Prop :=
  forall s,
    (forall r, (length (heap s) <= r)%nat -> W r) ->
    (length (heap s) <= length (heap (snd (m s))))%nat /\
    (forall r t, ~ W r -> heap s !! r = Some (Frame t) ->
                 heap (snd (m s)) !! r = Some (Frame t)) /\
    match fst (m s) with
    | Done a => Q a
    | Raised _ => True
    end.

(** Every [DataFrame] of the store [s] is still there, unchanged, in the
    store [s']. *)
Definition frames_kept (s s' : state) : Prop :=
  forall r t, heap s !! r = Some (Frame t) -> heap s' !! r = Some (Frame t).

(** ... every one but the object [df]. *)
Definition frames_kept_but (df : ref) (s s' : state) : Prop :=
  forall r t, r <> df -> heap s !! r = Some (Frame t) -> heap s' !! r = Some (Frame t).

End Store.

(** A store for the programs of data_test.py: the selected stocks of the
    sample, its price table and the benchmark quotes. *)
Definition sample_store : Store.state :=
  Store.mkState
    [ Store.Frame (Store.Joined Samples.selected);
      Store.Frame (Store.Trading Samples.price_data);
      Store.Frame (Store.Index MoreSamples.index) ]
    None ∅.

(** A store for [count_num] and [filter_data]: the two dictionaries, with
    the merged tables of the sample under "stk_data" and "pft_data". *)
Definition sample_constructor : Store.self := Store.mkSelf 0%nat 1%nat.

Definition sample_constructor_store : Store.state :=
  Store.mkState
    [ Store.Dict ∅;
      Store.Dict (<["stk_data" := 2%nat]> (<["pft_data" := 3%nat]> ∅));
      Store.Frame (Store.Trading Samples.stk);
      Store.Frame (Store.Disclosures Samples.pft) ]
    None ∅.

(** A store for [merge_all_data]: the price table of the sample loaded
    from six shards of one session each, and the disclosures. *)
Definition sample_shards : list (list Trd.t) :=
  map (fun r => [r]) Samples.price_data
  ++ [[Trd.mk "000002" (ymd 2020 11 3) (int 12) (dec 115 1) (int 12)]].

Definition sample_loaded_store : Store.state :=
  Store.mkState
    ([ Store.Dict
         (list_to_map
            (combine (BenchmarkDataConstructor.shards ++ ["IAR_Rept"])
                     (seq 2 7)));
       Store.Dict ∅ ]
     ++ map (fun rows => Store.Frame (Store.Trading rows)) sample_shards
     ++ [Store.Frame (Store.Disclosures Samples.pft)])
    None ∅.

(* ===================================================================== *)
(** ** Dates and cells: checks                                            *)
(* ===================================================================== *)

Example ymd_epoch : ymd 1970 1 1 = 0.
Proof. reflexivity. Qed.

Example civil_2020_07_02 : civil_from_days (ymd 2020 7 2) = (2020, 7, 2).
Proof. reflexivity. Qed.

Example offset_month_end : DateOffset_months 3 (ymd 2020 3 31) = ymd 2020 6 30.
Proof. reflexivity. Qed.

Example offset_leap_clip : DateOffset_months 3 (ymd 2019 11 30) = ymd 2020 2 29.
Proof. reflexivity. Qed.

Example offset_year_wrap : DateOffset_months 24 (ymd 2019 4 28) = ymd 2021 4 28.
Proof. reflexivity. Qed.

Example quarter_of_july : quarter_of (ymd 2020 7 2) = 3 /\ year_of (ymd 2020 7 2) = 2020.
Proof. split; reflexivity. Qed.

Example fdiv_by_zero :
  fdiv (int 5) (int 0) = PInf /\ fdiv (int (-5)) (int 0) = NInf /\
  fdiv (int 0) (int 0) = NaN.
Proof. split; [|split]; reflexivity. Qed.

Example filter_data_scenario : filter_data Samples.stk Samples.pft = [Samples.event].
Proof. vm_compute. reflexivity. Qed.

(* ===================================================================== *)
(** ** Sorting                                                            *)
(* ===================================================================== *)

Section SortFacts.
Context {A : Type}.
Variable le : A -> A -> bool.

Lemma insert_sorted_perm (x : A) (l : list A) :
  Permutation (insert_sorted le x l) (x :: l).
Proof.
  induction l as [|y l IH]; simpl; [reflexivity|].
  destruct (le x y); [reflexivity|].
  rewrite IH. apply perm_swap.
Qed.

Lemma sort_values_perm (l : list A) : Permutation (sort_values le l) l.
Proof.
  induction l as [|x l IH]; simpl; [constructor|].
  rewrite insert_sorted_perm. now constructor.
Qed.

Lemma sort_values_In (l : list A) (x : A) : In x (sort_values le l) <-> In x l.
Proof.
  split; apply Permutation_in; [|symmetry]; apply sort_values_perm.
Qed.

Lemma sort_values_length (l : list A) : length (sort_values le l) = length l.
Proof. apply Permutation_length, sort_values_perm. Qed.

Lemma insert_sorted_sorted (x : A) (l : list A) :
  le_total le -> le_trans le ->
  StronglySorted (fun a b => le a b = true) l ->
  StronglySorted (fun a b => le a b = true) (insert_sorted le x l).
Proof.
  intros Htot Htr Hs. induction Hs as [|y l Hs IH Hy]; simpl.
  - repeat constructor.
  - destruct (le x y) eqn:E.
    + constructor; [now constructor|].
      constructor; [exact E|].
      eapply List.Forall_impl; [|exact Hy]. intros z Hz. eapply Htr; eassumption.
    + constructor; [exact IH|].
      assert (Hyx : le y x = true) by (destruct (Htot x y); congruence).
      eapply Permutation_Forall; [symmetry; apply insert_sorted_perm|].
      now constructor.
Qed.

Lemma sort_values_sorted (l : list A) :
  le_total le -> le_trans le ->
  StronglySorted (fun a b => le a b = true) (sort_values le l).
Proof.
  intros Htot Htr. induction l as [|x l IH]; simpl; [constructor|].
  now apply insert_sorted_sorted.
Qed.
End SortFacts.

Lemma by_date_total {A} (on : A -> date) : le_total (by_date on).
Proof. intros a b. unfold by_date. lia. Qed.

Lemma by_date_trans {A} (on : A -> date) : le_trans (by_date on).
Proof. intros a b c. unfold by_date. lia. Qed.

Lemma StronglySorted_weaken {A} (R S : A -> A -> Prop) (l : list A) :
  (forall a b, R a b -> S a b) -> StronglySorted R l -> StronglySorted S l.
Proof.
  intros HRS Hs. induction Hs as [|x l Hs IH Hx]; constructor; [exact IH|].
  eapply List.Forall_impl; [|exact Hx]. intros b. apply HRS.
Qed.

Lemma sorted_by_date {A} (on : A -> date) (l : list A) :
  StronglySorted (fun a b => on a <= on b) (sort_values (by_date on) l).
Proof.
  eapply StronglySorted_weaken;
    [|apply sort_values_sorted; [apply by_date_total | apply by_date_trans]].
  intros a b. unfold by_date. lia.
Qed.

(* ===================================================================== *)
(** ** As-of matching                                                     *)
(* ===================================================================== *)

Lemma find_app_cases {A} (f : A -> bool) (l1 l2 : list A) :
  List.find f (l1 ++ l2) =
  match List.find f l1 with Some x => Some x | None => List.find f l2 end.
Proof.
  induction l1 as [|a l1 IH]; simpl; [reflexivity|].
  now destruct (f a).
Qed.

(** On a sorted list, [find] returns the least element that satisfies the
    test. *)
Lemma find_sorted_first {A} (R : A -> A -> Prop) (f : A -> bool) (l : list A) (x : A) :
  (forall a, R a a) -> StronglySorted R l -> List.find f l = Some x ->
  forall y, In y l -> f y = true -> R x y.
Proof.
  intros Hrefl Hs. induction Hs as [|a l Hs IH Ha]; simpl; [discriminate|].
  intros Hfind y Hy Hfy. destruct (f a) eqn:E.
  - injection Hfind as <-. destruct Hy as [<-|Hy]; [apply Hrefl|].
    rewrite List.Forall_forall in Ha. now apply Ha.
  - destruct Hy as [<-|Hy]; [congruence|]. now apply IH.
Qed.

(** Searching the reversed list returns the greatest one. *)
Lemma find_rev_sorted_last {A} (R : A -> A -> Prop) (f : A -> bool) (l : list A) (x : A) :
  (forall a, R a a) -> StronglySorted R l -> List.find f (rev l) = Some x ->
  forall y, In y l -> f y = true -> R y x.
Proof.
  intros Hrefl Hs. revert x.
  induction Hs as [|a l Hs IH Ha]; simpl; [discriminate|].
  intros x. rewrite find_app_cases.
  destruct (List.find f (rev l)) as [x'|] eqn:E; intros Hfind y Hy Hfy.
  - injection Hfind as <-. destruct Hy as [<-|Hy]; [|now apply IH].
    apply find_some in E. destruct E as [Hin _].
    rewrite List.Forall_forall in Ha. apply Ha. now apply in_rev.
  - simpl in Hfind. destruct (f a) eqn:Ea; [|discriminate].
    injection Hfind as <-. destruct Hy as [<-|Hy]; [apply Hrefl|].
    exfalso. apply in_rev in Hy.
    pose proof (find_none _ _ E _ Hy). congruence.
Qed.

Section MergeFacts.
Context {L R : Type}.
Variables (lby : L -> string) (lon : L -> date).
Variables (rby : R -> string) (ron : R -> date).

Lemma asof_forward_Some (right : list R) (l : L) (r : R) :
  StronglySorted (fun a b => ron a <= ron b) right ->
  asof_forward lby lon rby ron right l = Some r ->
  In r right /\ rby r = lby l /\ lon l <= ron r /\
  forall r', In r' right -> rby r' = lby l -> lon l <= ron r' -> ron r <= ron r'.
Proof.
  unfold asof_forward. intros Hs Hfind.
  pose proof (find_some _ _ Hfind) as [Hin Hf].
  apply andb_true_iff in Hf. destruct Hf as [Hk Hd].
  apply String.eqb_eq in Hk. apply Z.leb_le in Hd.
  repeat split; try assumption.
  intros r' Hin' Hk' Hd'.
  eapply (find_sorted_first (fun a b => ron a <= ron b)); eauto; [lia|].
  apply andb_true_iff. split; [now apply String.eqb_eq | now apply Z.leb_le].
Qed.

Lemma asof_forward_None (right : list R) (l : L) :
  asof_forward lby lon rby ron right l = None ->
  forall r, In r right -> rby r = lby l -> ron r < lon l.
Proof.
  unfold asof_forward. intros Hfind r Hin Hk.
  pose proof (find_none _ _ Hfind _ Hin) as Hf. simpl in Hf.
  apply andb_false_iff in Hf. destruct Hf as [Hf|Hf].
  - apply String.eqb_neq in Hf. congruence.
  - apply Z.leb_gt in Hf. exact Hf.
Qed.

Lemma asof_forward_exists (right : list R) (l : L) (r : R) :
  In r right -> rby r = lby l -> lon l <= ron r ->
  exists r', asof_forward lby lon rby ron right l = Some r'.
Proof.
  intros Hin Hk Hd.
  destruct (asof_forward lby lon rby ron right l) as [r'|] eqn:E; [eauto|].
  pose proof (asof_forward_None _ _ E _ Hin Hk). lia.
Qed.

Lemma asof_backward_Some (right : list R) (l : L) (r : R) :
  StronglySorted (fun a b => ron a <= ron b) right ->
  asof_backward lby lon rby ron right l = Some r ->
  In r right /\ rby r = lby l /\ ron r <= lon l /\
  forall r', In r' right -> rby r' = lby l -> ron r' <= lon l -> ron r' <= ron r.
Proof.
  unfold asof_backward. intros Hs Hfind.
  pose proof (find_some _ _ Hfind) as [Hin Hf].
  apply in_rev in Hin.
  apply andb_true_iff in Hf. destruct Hf as [Hk Hd].
  apply String.eqb_eq in Hk. apply Z.leb_le in Hd.
  repeat split; try assumption.
  intros r' Hin' Hk' Hd'.
  eapply (find_rev_sorted_last (fun a b => ron a <= ron b)); eauto; [lia|].
  apply andb_true_iff. split; [now apply String.eqb_eq | now apply Z.leb_le].
Qed.

Lemma asof_backward_None (right : list R) (l : L) :
  asof_backward lby lon rby ron right l = None ->
  forall r, In r right -> rby r = lby l -> lon l < ron r.
Proof.
  unfold asof_backward. intros Hfind r Hin Hk.
  apply in_rev in Hin.
  pose proof (find_none _ _ Hfind _ Hin) as Hf. simpl in Hf.
  apply andb_false_iff in Hf. destruct Hf as [Hf|Hf].
  - apply String.eqb_neq in Hf. congruence.
  - apply Z.leb_gt in Hf. exact Hf.
Qed.

Lemma merge_asof_forward_length (left : list L) (right : list R) :
  length (merge_asof_forward lby lon rby ron left right) = length left.
Proof. unfold merge_asof_forward. apply length_map. Qed.

Lemma merge_asof_backward_length (left : list L) (right : list R) :
  length (merge_asof_backward lby lon rby ron left right) = length left.
Proof. unfold merge_asof_backward. apply length_map. Qed.
End MergeFacts.

(* ===================================================================== *)
(** ** The (code, date) order                                             *)
(* ===================================================================== *)

Lemma ltb_lt (a b : string) : String.ltb a b = true <-> String_as_OT.lt a b.
Proof.
  unfold String.ltb. rewrite <- String_as_OT.cmp_lt. unfold String_as_OT.cmp.
  destruct (String.compare a b); split; congruence.
Qed.

Lemma ltb_irrefl (a : string) : String.ltb a a = false.
Proof.
  destruct (String.ltb a a) eqn:E; [|reflexivity].
  apply ltb_lt in E. exfalso. now apply (String_as_OT.lt_not_eq _ _ E).
Qed.

Lemma ltb_trans (a b c : string) :
  String.ltb a b = true -> String.ltb b c = true -> String.ltb a c = true.
Proof. rewrite !ltb_lt. apply String_as_OT.lt_trans. Qed.

Lemma ltb_trichotomy (a b : string) :
  String.ltb a b = true \/ a = b \/ String.ltb b a = true.
Proof.
  unfold String.ltb. rewrite (String.compare_antisym b a).
  destruct (String.compare a b) eqn:E; simpl; auto.
  right; left. now apply String.compare_eq_iff.
Qed.

Lemma by_code_date_total {A} (code : A -> string) (on : A -> date) :
  le_total (by_code_date code on).
Proof.
  intros a b. unfold by_code_date.
  destruct (ltb_trichotomy (code a) (code b)) as [H|[H|H]].
  - left. now rewrite H.
  - rewrite H, String.eqb_refl, ltb_irrefl. simpl.
    destruct (Z.leb_spec (on a) (on b)); [now left|right].
    apply Z.leb_le. lia.
  - right. now rewrite H.
Qed.

Lemma by_code_date_trans {A} (code : A -> string) (on : A -> date) :
  le_trans (by_code_date code on).
Proof.
  intros a b c. unfold by_code_date.
  rewrite !orb_true_iff, !andb_true_iff, !String.eqb_eq, !Z.leb_le.
  intros [H1|[H1 D1]] [H2|[H2 D2]].
  - left. eapply ltb_trans; eassumption.
  - left. now rewrite <- H2.
  - left. now rewrite H1.
  - right. split; [now transitivity (code b) | lia].
Qed.


Lemma StronglySorted_filter {A} (R : A -> A -> Prop) (f : A -> bool) (l : list A) :
  StronglySorted R l -> StronglySorted R (List.filter f l).
Proof.
  intros Hs. induction Hs as [|x l Hs IH Hx]; simpl; [constructor|].
  destruct (f x); [|exact IH]. constructor; [exact IH|].
  rewrite List.Forall_forall in *. intros y Hy. apply Hx.
  now apply filter_In in Hy.
Qed.


Lemma series_In {A} (code : A -> string) (k : string) (df : list A) (r : A) :
  In r (series code k df) <-> In r df /\ code r = k.
Proof. unfold series. rewrite filter_In, String.eqb_eq. reflexivity. Qed.

(* ===================================================================== *)
(** ** Shifts inside groups                                               *)
(* ===================================================================== *)

Lemma groupby_shift_length (n : nat) (hist : gmap string (list num))
    (col : list (string * num)) :
  length (groupby_shift n hist col) = length col.
Proof.
  revert hist. induction col as [|[k v] col IH]; intros hist; simpl; [reflexivity|].
  now rewrite IH.
Qed.

(** Seen from one group, the grouped shift is the shift of that group's
    own series. *)
Lemma groupby_shift_series {A} (key : A -> string) (val : A -> num) (n : nat)
    (k : string) (rows : list A) (hist : gmap string (list num)) :
  List.filter (fun p => String.eqb (key (fst p)) k)
    (combine rows (groupby_shift n hist (map (fun r => (key r, val r)) rows)))
  = combine (series key k rows)
      (shift_series n (default [] (hist !! k)) (map val (series key k rows))).
Proof.
  revert hist. induction rows as [|r rows IH]; intros hist; simpl; [reflexivity|].
  destruct (String.eqb (key r) k) eqn:E; simpl.
  - apply String.eqb_eq in E. subst k. f_equal.
    rewrite IH. now rewrite lookup_insert_eq.
  - apply String.eqb_neq in E. rewrite IH.
    now rewrite lookup_insert_ne.
Qed.

Lemma shift_series_length (n : nat) (h vs : list num) :
  length (shift_series n h vs) = length vs.
Proof.
  revert h. induction vs as [|v vs IH]; intros h; simpl; [reflexivity|].
  now rewrite IH.
Qed.

Lemma shift_series_nth_hist (n : nat) (vs h : list num) (i : nat) :
  (i < length vs)%nat ->
  nth i (shift_series n h vs) NaN = nth n (rev (firstn (S i) vs) ++ h) NaN.
Proof.
  revert h i. induction vs as [|v vs IH]; intros h i Hi; simpl in Hi; [lia|].
  destruct i as [|i].
  - reflexivity.
  - cbn [shift_series nth]. rewrite IH by lia.
    change (firstn (S (S i)) (v :: vs)) with (v :: firstn (S i) vs).
    cbn [rev]. now rewrite <- app_assoc.
Qed.

(** Position [i] of a shifted series: missing for the first [n] positions,
    the value [n] places earlier afterwards. *)
Lemma shift_series_nth (n : nat) (vs : list num) (i : nat) :
  (i < length vs)%nat ->
  nth i (shift_series n [] vs) NaN
  = if (i <? n)%nat then NaN else nth (i - n) vs NaN.
Proof.
  intros Hi. rewrite shift_series_nth_hist by exact Hi. rewrite app_nil_r.
  assert (Hlen : length (firstn (S i) vs) = S i)
    by (rewrite length_firstn; lia).
  destruct (Nat.ltb_spec i n) as [Hlt|Hge].
  - apply nth_overflow. rewrite length_rev. lia.
  - rewrite rev_nth by lia. rewrite Hlen.
    replace (S i - S n)%nat with (i - n)%nat by lia.
    rewrite nth_firstn.
    destruct (Nat.ltb_spec (i - n) (S i)); [reflexivity | lia].
Qed.


(* ===================================================================== *)
(** ** filter_data                                                        *)
(* ===================================================================== *)

Lemma combine_map_fst {A B} (l : list A) (l' : list B) :
  length l = length l' -> map fst (combine l l') = l.
Proof.
  revert l'. induction l as [|a l IH]; intros [|b l'] Hlen; simpl in *;
    try reflexivity; try discriminate.
  f_equal. apply IH. lia.
Qed.

Lemma add_prev_Hiprc_rows (l : list Trd.t) :
  map TrdPrev.row (add_prev_Hiprc l) = l.
Proof.
  unfold add_prev_Hiprc. rewrite map_map. simpl.
  apply combine_map_fst.
  now rewrite groupby_shift_length, length_map.
Qed.

Lemma lagged_row_In (stk : list Trd.t) (s : TrdPrev.t) :
  In s (lagged_stk_data stk) -> In (TrdPrev.row s) (dropna stk).
Proof.
  intros Hin. apply (in_map TrdPrev.row) in Hin.
  unfold lagged_stk_data in Hin. rewrite add_prev_Hiprc_rows in Hin.
  now apply sort_values_In in Hin.
Qed.

Lemma lagged_row_exists (stk : list Trd.t) (t : Trd.t) :
  In t (dropna stk) -> exists s, In s (lagged_stk_data stk) /\ TrdPrev.row s = t.
Proof.
  intros Hin.
  apply (sort_values_In (by_code_date Trd.Stkcd Trd.Trddt)) in Hin.
  fold (sorted_stk_data stk) in Hin.
  rewrite <- (add_prev_Hiprc_rows (sorted_stk_data stk)) in Hin.
  apply in_map_iff in Hin. destruct Hin as (s & Hs & Hin). eauto.
Qed.



Lemma merged_In (stk : list Trd.t) (pft : list Rept.t) (d : Rept.t)
    (o : option TrdPrev.t) :
  In (d, o) (filter_data_merged stk pft) <->
  In d (dropna pft) /\
  o = asof_forward Rept.Stkcd Rept.Annodt TrdPrev_Stkcd TrdPrev_Trddt
        (sort_values (by_date TrdPrev_Trddt) (lagged_stk_data stk)) d.
Proof.
  unfold filter_data_merged, merge_asof_forward. rewrite in_map_iff. split.
  - intros (d' & Heq & Hin). injection Heq as -> <-.
    split; [|reflexivity]. now apply sort_values_In in Hin.
  - intros [Hin ->]. exists d. split; [reflexivity|].
    now apply sort_values_In.
Qed.

(** What a match of the forward as-of merge is: a complete session of the
    instrument at or after the announcement, and none earlier qualifies. *)
Lemma merged_match (stk : list Trd.t) (pft : list Rept.t) (d : Rept.t) (s : TrdPrev.t) :
  In (d, Some s) (filter_data_merged stk pft) ->
  In s (lagged_stk_data stk) /\
  Trd.Stkcd (TrdPrev.row s) = Rept.Stkcd d /\
  Rept.Annodt d <= Trd.Trddt (TrdPrev.row s) /\
  forall t', In t' (dropna stk) -> Trd.Stkcd t' = Rept.Stkcd d ->
             Rept.Annodt d <= Trd.Trddt t' ->
             Trd.Trddt (TrdPrev.row s) <= Trd.Trddt t'.
Proof.
  intros Hin. apply merged_In in Hin. destruct Hin as [_ Hm]. symmetry in Hm.
  apply asof_forward_Some in Hm; [|apply sorted_by_date].
  destruct Hm as (Hs & Hk & Hd & Hmin).
  apply sort_values_In in Hs.
  repeat split; try assumption.
  intros t' Ht' Hk' Hd'.
  destruct (lagged_row_exists _ _ Ht') as (s' & Hs' & <-).
  apply (Hmin s'); try assumption. now apply sort_values_In.
Qed.

Lemma merged_no_match (stk : list Trd.t) (pft : list Rept.t) (d : Rept.t) :
  In (d, None) (filter_data_merged stk pft) ->
  forall t, In t (dropna stk) -> Trd.Stkcd t = Rept.Stkcd d ->
            Trd.Trddt t < Rept.Annodt d.
Proof.
  intros Hin t Ht Hk. apply merged_In in Hin. destruct Hin as [_ Hm].
  symmetry in Hm.
  destruct (lagged_row_exists _ _ Ht) as (s & Hs & <-).
  apply (asof_forward_None _ _ _ _ _ _ Hm s); [|exact Hk].
  now apply sort_values_In.
Qed.

(** The rows of the output, read off the merged table. *)
Lemma filter_data_In (stk : list Trd.t) (pft : list Rept.t) (e : Gap.t) :
  In e (filter_data stk pft) <->
  exists d s,
    In (d, Some s) (filter_data_merged stk pft) /\
    fgt (Trd.Loprc (TrdPrev.row s)) (TrdPrev.prev_Hiprc s) = true /\
    e = Gap.mk (Rept.Stkcd d) (Rept.Reptyp d) (Rept.Annodt d)
          (Trd.Trddt (TrdPrev.row s)) (Trd.Loprc (TrdPrev.row s))
          (TrdPrev.prev_Hiprc s)
          (gap_pct_of (Trd.Loprc (TrdPrev.row s)) (TrdPrev.prev_Hiprc s)).
Proof.
  unfold filter_data. rewrite in_flat_map. split.
  - intros ([d o] & Hin & He). apply filter_In in Hin. destruct Hin as [Hin Hc].
    unfold gap_row in He. destruct o as [s|]; simpl in *; [|contradiction].
    destruct He as [<-|[]]. exists d, s. auto.
  - intros (d & s & Hin & Hc & ->). exists (d, Some s). split.
    + apply filter_In. auto.
    + left. reflexivity.
Qed.

(** The comparison never retains a row without a matched session, so the
    projection to the output columns loses none. *)
Lemma gap_rows_complete (stk : list Trd.t) (pft : list Rept.t) :
  length (filter_data stk pft)
  = length (List.filter (fun m => fgt (merged_Loprc m) (merged_prev_Hiprc m))
              (filter_data_merged stk pft)).
Proof.
  unfold filter_data.
  induction (filter_data_merged stk pft) as [|[d o] l IH]; [reflexivity|].
  cbn [List.filter].
  destruct (fgt (merged_Loprc (d, o)) (merged_prev_Hiprc (d, o))) eqn:E.
  - destruct o as [s|]; [|discriminate E].
    cbn [flat_map gap_row snd length]. rewrite length_app, IH. reflexivity.
  - exact IH.
Qed.

(** C1. Every complete disclosure is matched, in the as-of merged table of
    the Gap Event Detector, to a complete trading row of its instrument
    dated at or after the announcement such that no qualifying row is dated
    earlier; it is left unmatched exactly when no row qualifies; every
    emitted event carries the matched row; and a disclosure without a
    qualifying trading row has no row in the output. *)
Theorem filter_data_forward_match (stk : list Trd.t) (pft : list Rept.t) :
  (forall d, In d (dropna pft) ->
     exists o, In (d, o) (filter_data_merged stk pft)) /\
  (forall d o, In (d, o) (filter_data_merged stk pft) ->
     In d (dropna pft) /\
     match o with
     | Some s =>
         In (TrdPrev.row s) (dropna stk) /\
         Trd.Stkcd (TrdPrev.row s) = Rept.Stkcd d /\
         Rept.Annodt d <= Trd.Trddt (TrdPrev.row s) /\
         forall t', In t' (dropna stk) -> Trd.Stkcd t' = Rept.Stkcd d ->
                    Rept.Annodt d <= Trd.Trddt t' ->
                    Trd.Trddt (TrdPrev.row s) <= Trd.Trddt t'
     | None =>
         forall t, In t (dropna stk) -> Trd.Stkcd t = Rept.Stkcd d ->
                   Trd.Trddt t < Rept.Annodt d
     end) /\
  (forall e, In e (filter_data stk pft) ->
     exists d s, In (d, Some s) (filter_data_merged stk pft) /\
                 Gap.Stkcd e = Rept.Stkcd d /\
                 Gap.Reptyp e = Rept.Reptyp d /\
                 Gap.Annodt e = Rept.Annodt d /\
                 Gap.Trddt e = Trd.Trddt (TrdPrev.row s) /\
                 Gap.Loprc e = Trd.Loprc (TrdPrev.row s)) /\
  (forall d, In d (dropna pft) ->
     (forall t, In t (dropna stk) -> Trd.Stkcd t = Rept.Stkcd d ->
                Trd.Trddt t < Rept.Annodt d) ->
     forall e, In e (filter_data stk pft) ->
               ~ (Gap.Stkcd e = Rept.Stkcd d /\ Gap.Annodt e = Rept.Annodt d)).
Proof.
  split; [|split; [|split]].
  - intros d Hd. eexists. apply merged_In. split; [exact Hd | reflexivity].
  - intros d o H. split; [apply merged_In in H; tauto|].
    destruct o as [s|].
    + destruct (merged_match _ _ _ _ H) as (Hs & Hk & Hd & Hmin).
      apply lagged_row_In in Hs. auto.
    + exact (merged_no_match stk pft d H).
  - intros e He. apply filter_data_In in He.
    destruct He as (d & s & Hin & _ & ->). exists d, s. simpl. tauto.
  - intros d Hd Hnone e He [Hk Ha].
    apply filter_data_In in He. destruct He as (d' & s & Hin & _ & ->).
    simpl in Hk, Ha.
    destruct (merged_match _ _ _ _ Hin) as (Hs & Hk' & Hd' & _).
    apply lagged_row_In in Hs.
    specialize (Hnone _ Hs). rewrite Hk', Hk in Hnone.
    specialize (Hnone eq_refl). lia.
Qed.

Lemma filter_data_forward_match_witness :
  (exists d s, In (d, Some s) (filter_data_merged Samples.stk Samples.pft) /\
               Gap.Stkcd Samples.event = Rept.Stkcd d /\
               Gap.Reptyp Samples.event = Rept.Reptyp d /\
               Gap.Annodt Samples.event = Rept.Annodt d /\
               Gap.Trddt Samples.event = Trd.Trddt (TrdPrev.row s) /\
               Gap.Loprc Samples.event = Trd.Loprc (TrdPrev.row s)) /\
  (forall e, In e (filter_data Samples.stk Samples.pft_late) -> False).
Proof.
  split.
  - apply (proj1 (proj2 (proj2 (filter_data_forward_match Samples.stk Samples.pft)))).
    vm_compute. left. reflexivity.
  - intros e He.
    refine (proj2 (proj2 (proj2 (filter_data_forward_match Samples.stk Samples.pft_late)))
              (Rept.mk "000001" (Some 3) (ymd 2020 9 30) (ymd 2020 10 20) (int 170))
              _ _ e He _).
    + vm_compute. left. reflexivity.
    + intros t Ht Hk. vm_compute in Ht.
      destruct Ht as [<-|[<-|[]]]; vm_compute; reflexivity.
    + vm_compute in He. destruct He.
Defined.

Lemma stable_sort_sorts : sorts_by_date stable_sort.
Proof.
  intros A on l. unfold stable_sort. split;
    [apply sort_values_perm | apply sorted_by_date].
Qed.

Lemma date_sort_In (s : date_sort) {A} (on : A -> date) (l : list A) (x : A) :
  sorts_by_date s -> In x (s A on l) <-> In x l.
Proof.
  intros Hs. destruct (Hs A on l) as [Hp _].
  split; apply Permutation_in; [exact Hp | symmetry; exact Hp].
Qed.

Lemma filter_data_with_stable (stk : list Trd.t) (pft : list Rept.t) :
  filter_data_with stable_sort stk pft = filter_data stk pft.
Proof. reflexivity. Qed.

Lemma rows_of_sublist {A B} (R : A -> B -> Prop) (F : A -> list B) (l : list A) :
  (forall a, F a = [] \/ exists b, F a = [b] /\ R a b) ->
  exists ds, sublist ds l /\ Forall2 R ds (flat_map F l).
Proof.
  intros HF. induction l as [|a l (ds & Hsub & Hall)].
  - exists []. split; constructor.
  - cbn [flat_map]. destruct (HF a) as [->|(b & -> & Hab)].
    + exists ds. split; [now apply sublist_cons | exact Hall].
    + exists (a :: ds). split; [now apply sublist_skip | now constructor].
Qed.

(** C10. Whatever order the single-column sorts give to rows of equal
    date, the rows of the Gap Event Detector's output are made, one each
    and in order, of distinct complete disclosures of the input: there is
    a sublist of the (sorted) complete disclosures whose members
    correspond one to one to the output rows, each row carrying the
    instrument, report type and announce date of its disclosure.  So a
    disclosure contributes at most one row and is never repeated,
    whatever the trading table holds (several rows of one instrument on
    one date included), and the output never has more rows than there are
    complete disclosures. *)
Theorem filter_data_at_most_one_row (s : date_sort) (stk : list Trd.t)
    (pft : list Rept.t) :
  sorts_by_date s ->
  (exists ds, sublist ds (s _ Rept.Annodt (dropna pft)) /\
              Forall2 row_of_disclosure ds (filter_data_with s stk pft)) /\
  (length (filter_data_with s stk pft) <= length (dropna pft))%nat.
Proof.
  intros Hs.
  assert (Hrows : exists ds, sublist ds (s _ Rept.Annodt (dropna pft)) /\
                             Forall2 row_of_disclosure ds (filter_data_with s stk pft)).
  { unfold filter_data_with, filter_data_merged_with, merge_asof_forward.
    set (right := s _ TrdPrev_Trddt (lagged_stk_data stk)).
    set (F := fun d : Rept.t =>
                let m := (d, asof_forward Rept.Stkcd Rept.Annodt TrdPrev_Stkcd
                               TrdPrev_Trddt right d) in
                if fgt (merged_Loprc m) (merged_prev_Hiprc m) then gap_row m else []).
    assert (Heq : forall l,
              flat_map gap_row
                (List.filter (fun m => fgt (merged_Loprc m) (merged_prev_Hiprc m))
                   (map (fun d => (d, asof_forward Rept.Stkcd Rept.Annodt
                                        TrdPrev_Stkcd TrdPrev_Trddt right d)) l))
              = flat_map F l).
    { induction l as [|d l IH]; [reflexivity|].
      cbn [map List.filter flat_map]. unfold F at 1. cbv zeta.
      destruct (fgt _ _); cbn [flat_map]; now rewrite IH. }
    rewrite Heq. apply rows_of_sublist. intros d. unfold F. cbv zeta.
    destruct (fgt _ _); [|now left].
    unfold gap_row. cbn [fst snd].
    destruct (asof_forward _ _ _ _ right d) as [t|]; [right | now left].
    eexists. split; [reflexivity|]. repeat split. }
  split; [exact Hrows|].
  destruct Hrows as (ds & Hsub & Hall).
  rewrite <- (Forall2_length _ _ _ Hall).
  etransitivity; [apply sublist_length, Hsub|].
  apply Nat.eq_le_incl, Permutation_length, Hs.
Qed.

Lemma filter_data_at_most_one_row_witness :
  (exists ds, sublist ds (sort_values (by_date Rept.Annodt) (dropna Samples.pft)) /\
              Forall2 row_of_disclosure ds
                      (filter_data Samples.stk_twice Samples.pft)) /\
  (length (filter_data Samples.stk_twice Samples.pft) <= length (dropna Samples.pft))%nat.
Proof.
  exact (filter_data_at_most_one_row stable_sort Samples.stk_twice Samples.pft
           stable_sort_sorts).
Defined.

(* ===================================================================== *)
(** ** Gap size                                                           *)
(* ===================================================================== *)

Lemma fgt_Fin (a b : Q) : fgt (Fin a) (Fin b) = true <-> (b < a)%Q.
Proof.
  simpl. rewrite Qlt_alt, <- (Qcompare_antisym a b).
  destruct (a ?= b)%Q; simpl; split; congruence.
Qed.






(* ===================================================================== *)
(** ** Growth columns                                                     *)
(* ===================================================================== *)

Lemma combine_map_l {A B C} (f : A -> C) (l : list A) (l' : list B) :
  combine (map f l) l' = map (fun p => (f (fst p), snd p)) (combine l l').
Proof.
  revert l'. induction l as [|a l IH]; intros [|b l']; simpl; try reflexivity.
  now rewrite IH.
Qed.

Lemma combine_fst_snd {A B} (l : list (A * B)) :
  combine (map fst l) (map snd l) = l.
Proof. induction l as [|[a b] l IH]; simpl; [reflexivity | now rewrite IH]. Qed.

Lemma filter_map_swap' {A B} (f : A -> B) (P : B -> bool) (l : list A) :
  List.filter P (map f l) = map f (List.filter (fun a => P (f a)) l).
Proof.
  induction l as [|a l IH]; simpl; [reflexivity|].
  destruct (P (f a)); simpl; now rewrite IH.
Qed.

Lemma combine_map_snd {A B} (l : list A) (l' : list B) :
  length l = length l' -> map snd (combine l l') = l'.
Proof.
  revert l'. induction l as [|a l IH]; intros [|b l'] Hlen; simpl in *;
    try reflexivity; try discriminate.
  f_equal. apply IH. lia.
Qed.

Lemma groupby_ffill_present (last : gmap string num) (col : list (string * num)) :
  Forall (fun p => snd p <> NaN) col -> groupby_ffill last col = map snd col.
Proof.
  intros Hall. revert last.
  induction Hall as [|[k v] col Hv _ IH]; intros last; simpl; [reflexivity|].
  simpl in Hv. destruct v; try congruence; simpl; now rewrite IH.
Qed.

Lemma groupby_pct_change_no_fill {A} (key : A -> string) (val : A -> num)
    (n : nat) (rows : list A) :
  groupby_pct_change no_fill n (map (fun r => (key r, val r)) rows)
  = map (fun p => pct (val (fst p)) (snd p))
        (combine rows (groupby_shift n ∅ (map (fun r => (key r, val r)) rows))).
Proof.
  unfold groupby_pct_change. rewrite combine_fst_snd.
  rewrite map_map. cbn [snd]. rewrite combine_map_l, map_map. reflexivity.
Qed.

Lemma groupby_pct_change_present {A} (key : A -> string) (val : A -> num)
    (fm : fill_method) (n : nat) (rows : list A) :
  fm = no_fill \/ Forall (fun r => val r <> NaN) rows ->
  groupby_pct_change fm n (map (fun r => (key r, val r)) rows)
  = groupby_pct_change no_fill n (map (fun r => (key r, val r)) rows).
Proof.
  intros [->|Hall]; [reflexivity|]. destruct fm; [|reflexivity].
  unfold groupby_pct_change. rewrite groupby_ffill_present; [reflexivity|].
  rewrite List.Forall_forall in *. intros p Hp.
  apply in_map_iff in Hp. destruct Hp as (r & <- & Hr). now apply Hall.
Qed.

(** The percent changes of one group, read off the grouped column. *)
Lemma groupby_pct_change_series {A} (key : A -> string) (val : A -> num)
    (n : nat) (k : string) (rows : list A) :
  List.filter (fun p => String.eqb (key (fst p)) k)
    (combine rows (groupby_pct_change no_fill n (map (fun r => (key r, val r)) rows)))
  = combine (series key k rows) (pct_change_series n (map val (series key k rows))).
Proof.
  rewrite groupby_pct_change_no_fill.
  set (X := groupby_shift n ∅ (map (fun r => (key r, val r)) rows)).
  assert (Hzip : forall (l : list A) (Y : list num),
            combine l (map (fun p => pct (val (fst p)) (snd p)) (combine l Y))
            = map (fun q => (fst q, pct (val (fst q)) (snd q))) (combine l Y)).
  { induction l as [|a l IH]; intros [|y Y]; simpl; try reflexivity.
    now rewrite IH. }
  rewrite Hzip, filter_map_swap'. cbn [fst].
  unfold X. rewrite groupby_shift_series, lookup_empty. cbn [default].
  unfold pct_change_series. rewrite combine_map_l, <- Hzip.
  rewrite Hzip. rewrite map_map. cbn [fst snd].
  set (L := series key k rows).
  generalize (shift_series n [] (map val L)). clear.
  induction L as [|a L IH]; intros [|y Y]; simpl; try reflexivity.
  now rewrite IH.
Qed.

Lemma pct_change_series_length (n : nat) (vs : list num) :
  length (pct_change_series n vs) = length vs.
Proof.
  unfold pct_change_series.
  rewrite length_map, length_combine, shift_series_length. lia.
Qed.

Lemma pct_NaN (x : num) : pct x NaN = NaN.
Proof. now destruct x. Qed.

Lemma pct_change_series_nth (n : nat) (vs : list num) (i : nat) :
  (i < length vs)%nat ->
  nth i (pct_change_series n vs) NaN
  = if (i <? n)%nat then NaN else pct (nth i vs NaN) (nth (i - n) vs NaN).
Proof.
  intros Hi. unfold pct_change_series.
  rewrite (nth_indep _ NaN (pct NaN NaN))
    by (rewrite length_map, length_combine, shift_series_length; lia).
  rewrite (map_nth (fun p => pct (fst p) (snd p)) _ (NaN, NaN)).
  rewrite combine_nth by (now rewrite shift_series_length).
  cbn [fst snd]. rewrite shift_series_nth by exact Hi.
  destruct (i <? n)%nat; [apply pct_NaN | reflexivity].
Qed.

Lemma filter_combine3 {A B C} (P : A -> bool) (l : list A) (xs : list B) (ys : list C) :
  length xs = length l -> length ys = length l ->
  List.filter (fun q => P (fst q)) (combine l (combine xs ys))
  = combine (List.filter P l)
      (combine (map snd (List.filter (fun q => P (fst q)) (combine l xs)))
               (map snd (List.filter (fun q => P (fst q)) (combine l ys)))).
Proof.
  revert xs ys. induction l as [|a l IH]; intros [|x xs] [|y ys] Hx Hy;
    simpl in *; try reflexivity; try discriminate.
  destruct (P a); simpl; rewrite IH by lia; reflexivity.
Qed.

Lemma groupby_pct_change_length (fm : fill_method) (n : nat) (col : list (string * num)) :
  length (groupby_pct_change fm n col) = length col.
Proof.
  assert (Hfill : length (groupby_ffill ∅ col) = length col).
  { generalize (∅ : gmap string num).
    induction col as [|[k v] col IH]; intros last; simpl; [reflexivity|].
    now rewrite IH. }
  unfold groupby_pct_change.
  destruct fm; rewrite length_map, length_combine, groupby_shift_length,
    length_combine, !length_map; try rewrite Hfill; lia.
Qed.

Lemma groupby_ffill_length (last : gmap string num) (col : list (string * num)) :
  length (groupby_ffill last col) = length col.
Proof.
  revert last. induction col as [|[k v] col IH]; intros last; [reflexivity|].
  cbn [groupby_ffill length]. now rewrite IH.
Qed.

Lemma ffill_series_length (last : num) (vs : list num) :
  length (ffill_series last vs) = length vs.
Proof.
  revert last. induction vs as [|v vs IH]; intros last; [reflexivity|].
  cbn [ffill_series length]. now rewrite IH.
Qed.

(** Seen from one group, the grouped fill is the fill of that group's own
    series. *)
Lemma groupby_ffill_series {A} (key : A -> string) (val : A -> num)
    (k : string) (rows : list A) (last : gmap string num) :
  List.filter (fun p => String.eqb (key (fst p)) k)
    (combine rows (groupby_ffill last (map (fun r => (key r, val r)) rows)))
  = combine (series key k rows)
      (ffill_series (default NaN (last !! k)) (map val (series key k rows))).
Proof.
  revert last. induction rows as [|r rows IH]; intros last; [reflexivity|].
  cbn [map groupby_ffill combine List.filter fst series].
  destruct (String.eqb (key r) k) eqn:E.
  - apply String.eqb_eq in E. subst k.
    cbn [map ffill_series combine]. f_equal.
    fold (series key (key r) rows). rewrite IH. now rewrite lookup_insert_eq.
  - apply String.eqb_neq in E. fold (series key k rows). rewrite IH.
    now rewrite lookup_insert_ne.
Qed.

Lemma filter_combine_pairs {A B C} (P : A -> bool) (l : list A) (xs : list B)
    (ys : list C) :
  length xs = length l ->
  map snd (List.filter (fun q => P (fst (fst q))) (combine (combine l xs) ys))
  = map snd (List.filter (fun q => P (fst q)) (combine l ys)).
Proof.
  revert xs ys. induction l as [|a l IH]; intros [|x xs] [|y ys] Hlen;
    cbn in *; try reflexivity; try discriminate.
  destruct (P a); cbn; rewrite IH by lia; reflexivity.
Qed.

Lemma groupby_pct_change_ffill {A} (key : A -> string) (val : A -> num)
    (n : nat) (rows : list A) :
  groupby_pct_change ffill n (map (fun r => (key r, val r)) rows)
  = groupby_pct_change no_fill n
      (map (fun p : A * num => (key (fst p), snd p))
           (combine rows (groupby_ffill ∅ (map (fun r => (key r, val r)) rows)))).
Proof.
  unfold groupby_pct_change.
  set (filled := groupby_ffill ∅ (map (fun r => (key r, val r)) rows)).
  assert (Hlen : length rows = length filled)
    by (unfold filled; now rewrite groupby_ffill_length, length_map).
  rewrite !map_map. cbn [fst snd].
  assert (Hsnd : map (fun x : A * num => snd x) (combine rows filled) = filled)
    by (now apply combine_map_snd).
  assert (Hfst : map (fun x : A * num => key (fst x)) (combine rows filled)
                 = map (fun x => key x) rows).
  { rewrite <- (map_map fst (fun x => key x)). now rewrite combine_map_fst. }
  now rewrite Hsnd, Hfst.
Qed.

(** The percent changes of one group, read off the grouped column, for
    either fill. *)
Lemma groupby_pct_change_group {A} (key : A -> string) (val : A -> num)
    (fm : fill_method) (n : nat) (k : string) (rows : list A) :
  map snd
    (List.filter (fun p => String.eqb (key (fst p)) k)
       (combine rows (groupby_pct_change fm n (map (fun r => (key r, val r)) rows))))
  = pct_change_group fm n (map val (series key k rows)).
Proof.
  destruct fm; unfold pct_change_group.
  - rewrite groupby_pct_change_ffill.
    set (filled := groupby_ffill ∅ (map (fun r => (key r, val r)) rows)).
    assert (Hlen : length filled = length rows)
      by (unfold filled; now rewrite groupby_ffill_length, length_map).
    rewrite <- (filter_combine_pairs (fun a => String.eqb (key a) k) rows filled)
      by exact Hlen.
    rewrite (groupby_pct_change_series (fun p : A * num => key (fst p)) snd).
    rewrite combine_map_snd by (now rewrite pct_change_series_length, length_map).
    unfold series at 1. unfold filled.
    rewrite (groupby_ffill_series key val k rows ∅), lookup_empty. cbn [default].
    f_equal. apply combine_map_snd.
    now rewrite ffill_series_length, length_map.
  - rewrite groupby_pct_change_series.
    apply combine_map_snd. now rewrite pct_change_series_length, length_map.
Qed.

Lemma pct_change_group_first (fm : fill_method) (n : nat) (vs : list num) (i : nat) :
  (i < n)%nat -> nth i (pct_change_group fm n vs) NaN = NaN.
Proof.
  intros Hi. unfold pct_change_group.
  set (ws := match fm with ffill => ffill_series NaN vs | no_fill => vs end).
  destruct (Nat.lt_ge_cases i (length ws)) as [Hlt|Hge].
  - rewrite pct_change_series_nth by exact Hlt.
    destruct (Nat.ltb_spec i n); [reflexivity | lia].
  - apply nth_overflow. now rewrite pct_change_series_length.
Qed.

Lemma filter_combine_third {A B C} (P : A -> bool) (l : list A) (xs : list B)
    (ys : list C) :
  length xs = length l ->
  map (fun p => snd (snd p)) (List.filter (fun p => P (fst p)) (combine l (combine xs ys)))
  = map snd (List.filter (fun p => P (fst p)) (combine l ys)).
Proof.
  revert xs ys. induction l as [|a l IH]; intros [|x xs] [|y ys] Hlen;
    try discriminate Hlen; try reflexivity.
  - cbn [combine List.filter fst]. injection Hlen as Hlen.
    destruct (P a); cbn [map snd]; now rewrite IH.
Qed.

Lemma preprocess_rows (fm : fill_method) (fin : list Rept.t) :
  map Growth.rept (preprocess_financial_data fm fin)
  = sort_values (by_code_date Rept.Stkcd Rept.Annodt) fin.
Proof.
  unfold preprocess_financial_data. rewrite map_map. cbn [Growth.rept].
  change (fun x : Rept.t * (num * num) => fst x) with (@fst Rept.t (num * num)).
  apply combine_map_fst.
  rewrite length_combine, !groupby_pct_change_length.
  unfold Profita_col. rewrite length_map. lia.
Qed.








(* ===================================================================== *)
(** ** strategy_consistent_growth                                         *)
(* ===================================================================== *)

Lemma lag_matches_temp (fin_data : list Growth.t) (i : nat) (m : Sel.t) (t : Lag.t) :
  In t (temp i fin_data) -> lag_matches m t = true ->
  exists g, In g fin_data /\ Growth.Stkcd g = Sel.Stkcd m /\
            DateOffset_months (3 * Z.of_nat i) (Growth.Annodt g) = Sel.Annodt m /\
            Lag.growth t = Growth.profit_growth g.
Proof.
  unfold temp, lag_matches. intros Hin Hm.
  apply in_map_iff in Hin. destruct Hin as (g & <- & Hg).
  apply andb_true_iff in Hm. cbn [Lag.Stkcd Lag.Annodt Lag.growth] in *.
  destruct Hm as [Hk Hd]. apply String.eqb_eq in Hk. apply Z.eqb_eq in Hd.
  exists g. auto.
Qed.

(** One pass of the loop: every row of the result extends a row of the
    table before by one column, filled from the shifted growth series. *)
Lemma merge_left_In (fin_data : list Growth.t) (i : nat) (merged : list Sel.t)
    (m' : Sel.t) :
  In m' (merge_left merged (temp i fin_data)) ->
  exists m x, In m merged /\ m' = with_growth_ago m x /\ lag_source fin_data m i x.
Proof.
  unfold merge_left. rewrite in_flat_map. intros (m & Hm & Hin).
  destruct (List.filter (lag_matches m) (temp i fin_data)) as [|t ts] eqn:E.
  - destruct Hin as [<-|[]]. exists m, NaN. split; [exact Hm|].
    split; [reflexivity|]. right. split; [reflexivity|].
    intros g Hg Hk Hd.
    assert (Hin : In (Lag.mk (Growth.Stkcd g)
                        (DateOffset_months (3 * Z.of_nat i) (Growth.Annodt g))
                        (Growth.profit_growth g))
                     (List.filter (lag_matches m) (temp i fin_data))).
    { apply filter_In. split.
      { unfold temp. apply in_map_iff. exists g. split; [reflexivity | exact Hg]. }
      unfold lag_matches. cbn [Lag.Stkcd Lag.Annodt].
      rewrite Hk, Hd, String.eqb_refl, Z.eqb_refl. reflexivity. }
    rewrite E in Hin. destruct Hin.
  - rewrite <- E in Hin. apply in_map_iff in Hin. destruct Hin as (t' & <- & Ht').
    apply filter_In in Ht'. destruct Ht' as [Ht' Hmatch].
    destruct (lag_matches_temp _ _ _ _ Ht' Hmatch) as (g & Hg & Hk & Hd & Hx).
    exists m, (Lag.growth t'). split; [exact Hm|]. split; [reflexivity|].
    left. exists g. auto.
Qed.

Lemma merge_left_keeps (tmp : list Lag.t) (merged : list Sel.t) (m : Sel.t) :
  In m merged ->
  exists x, In (with_growth_ago m x) (merge_left merged tmp).
Proof.
  intros Hm. unfold merge_left.
  destruct (List.filter (lag_matches m) tmp) as [|t ts] eqn:E.
  - exists NaN. apply in_flat_map. exists m. split; [exact Hm|].
    rewrite E. now left.
  - exists (Lag.growth t). apply in_flat_map. exists m. split; [exact Hm|].
    rewrite E. now left.
Qed.

Lemma lag_source_event (fin_data : list Growth.t) (m m' : Sel.t) (i : nat) (x : num) :
  Sel.event m = Sel.event m' ->
  lag_source fin_data m i x -> lag_source fin_data m' i x.
Proof.
  unfold lag_source, Sel.Stkcd, Sel.Annodt. now intros ->.
Qed.

(** The whole loop: the columns added to a row of the as-of merged table
    are filled, one per offset and in order, from the shifted series. *)
Lemma merge_loop_In (fin_data : list Growth.t) (idx : list nat) (merged : list Sel.t)
    (m' : Sel.t) :
  In m' (fold_left (fun merged i => merge_left merged (temp i fin_data)) idx merged) ->
  exists m xs,
    In m merged /\
    Sel.event m' = Sel.event m /\ Sel.growth m' = Sel.growth m /\
    Sel.growth_q_ago m' = Sel.growth_q_ago m ++ xs /\
    Forall2 (lag_source fin_data m) idx xs.
Proof.
  revert merged. induction idx as [|i idx IH]; intros merged; cbn [fold_left].
  - intros Hin. exists m', []. rewrite app_nil_r. repeat split; auto.
  - intros Hin. apply IH in Hin. destruct Hin as (m1 & xs & Hm1 & He & Hg & Hq & Hall).
    apply merge_left_In in Hm1. destruct Hm1 as (m & x & Hm & -> & Hx).
    exists m, (x :: xs). split; [exact Hm|].
    split; [exact He|]. split; [exact Hg|].
    split; [rewrite Hq; cbn [with_growth_ago Sel.growth_q_ago];
            now rewrite <- app_assoc|].
    constructor; [exact Hx|].
    eapply Forall2_impl; [exact Hall|]. intros j y.
    now apply lag_source_event.
Qed.

Lemma strategy_merged_In (gap_events : list Gap.t) (fin_data : list Growth.t) (m : Sel.t) :
  In m (strategy_merged gap_events fin_data) ->
  In (Sel.event m, Sel.growth m) (strategy_asof gap_events fin_data) /\
  Forall2 (lag_source fin_data m) (seq 1 8) (Sel.growth_q_ago m).
Proof.
  unfold strategy_merged. intros Hin. apply merge_loop_In in Hin.
  destruct Hin as (m0 & xs & Hm0 & He & Hg & Hq & Hall).
  apply in_map_iff in Hm0. destruct Hm0 as ([e g] & <- & Hin).
  cbn [fst snd Sel.event Sel.growth Sel.growth_q_ago] in *.
  rewrite He, Hg, Hq. split; [exact Hin|].
  eapply Forall2_impl; [exact Hall|]. intros j y.
  apply lag_source_event. now rewrite He.
Qed.

Lemma strategy_asof_In (gap_events : list Gap.t) (fin_data : list Growth.t)
    (e : Gap.t) (o : option Growth.t) :
  In (e, o) (strategy_asof gap_events fin_data) <->
  In e gap_events /\
  o = asof_backward Gap.Stkcd Gap.Annodt Growth.Stkcd Growth.Annodt
        (sort_values (by_date Growth.Annodt) (dropna fin_data)) e.
Proof.
  unfold strategy_asof, merge_asof_backward. rewrite in_map_iff. split.
  - intros (e' & Heq & Hin). injection Heq as -> <-.
    split; [|reflexivity]. now apply sort_values_In in Hin.
  - intros [Hin ->]. exists e. split; [reflexivity|]. now apply sort_values_In.
Qed.

Lemma Forall2_seq_nth {B} (R : nat -> B -> Prop) (d : B) (n a : nat) (xs : list B) :
  Forall2 R (seq a n) xs ->
  length xs = n /\ forall j, (j < n)%nat -> R (a + j)%nat (nth j xs d).
Proof.
  revert a xs. induction n as [|n IH]; intros a xs H; cbn [seq] in H.
  - inversion H; subst. split; [reflexivity | intros j Hj; lia].
  - inversion H as [|? y ? ys Hy Hys]; subst.
    destruct (IH _ _ Hys) as [Hlen Hnth]. split; [simpl; now rewrite Hlen|].
    intros [|j] Hj; cbn [nth].
    + now rewrite Nat.add_0_r.
    + replace (a + S j)%nat with (S a + j)%nat by lia. apply Hnth. lia.
Qed.

Lemma merge_loop_keeps (fin_data : list Growth.t) (idx : list nat)
    (merged : list Sel.t) (m : Sel.t) :
  In m merged ->
  exists m',
    In m' (fold_left (fun merged i => merge_left merged (temp i fin_data)) idx merged) /\
    Sel.event m' = Sel.event m /\ Sel.growth m' = Sel.growth m.
Proof.
  revert merged m. induction idx as [|i idx IH]; intros merged m Hm; cbn [fold_left].
  - exists m. auto.
  - destruct (merge_left_keeps (temp i fin_data) _ _ Hm) as (x & Hx).
    destruct (IH _ _ Hx) as (m' & Hm' & He & Hg). exists m'. auto.
Qed.

(** C8. For every k in [1..8] the column growth_k_periods_ago of a joined
    row holds the single-period growth of a growth record of the same
    instrument whose announce_date moved forward by 3k months is exactly
    the row's date, and null when no record has that shifted date; the
    join is a left join, so every as-of joined row is kept. *)
Theorem growth_q_ago_exact_join (gap_events : list Gap.t) (fin_data : list Growth.t) :
  (forall m k, In m (strategy_merged gap_events fin_data) -> (1 <= k <= 8)%nat ->
     length (Sel.growth_q_ago m) = 8%nat /\
     let x := nth (k - 1) (Sel.growth_q_ago m) NaN in
     (exists g, In g fin_data /\ Growth.Stkcd g = Sel.Stkcd m /\
                DateOffset_months (3 * Z.of_nat k) (Growth.Annodt g) = Sel.Annodt m /\
                x = Growth.profit_growth g) \/
     (x = NaN /\
      forall g, In g fin_data -> Growth.Stkcd g = Sel.Stkcd m ->
                DateOffset_months (3 * Z.of_nat k) (Growth.Annodt g) <> Sel.Annodt m)) /\
  (forall e o, In (e, o) (strategy_asof gap_events fin_data) ->
     exists m, In m (strategy_merged gap_events fin_data) /\
               Sel.event m = e /\ Sel.growth m = o).
Proof.
  split.
  - intros m k Hm Hk. apply strategy_merged_In in Hm. destruct Hm as [_ Hall].
    apply (Forall2_seq_nth _ NaN) in Hall. destruct Hall as [Hlen Hnth].
    split; [exact Hlen|]. cbv zeta.
    specialize (Hnth (k - 1)%nat ltac:(lia)).
    replace (1 + (k - 1))%nat with k in Hnth by lia. exact Hnth.
  - intros e o Hin. unfold strategy_merged.
    destruct (merge_loop_keeps fin_data (seq 1 8)
                (map (fun p => Sel.mk (fst p) (snd p) [])
                     (strategy_asof gap_events fin_data))
                (Sel.mk e o [])) as (m & Hm & He & Hg).
    + apply in_map_iff. exists (e, o). auto.
    + exists m. auto.
Qed.

Lemma growth_q_ago_exact_join_witness :
  (exists g, In g Samples.growth /\
             Growth.Stkcd g = Gap.Stkcd Samples.event_aligned /\
             DateOffset_months 3 (Growth.Annodt g) = Gap.Annodt Samples.event_aligned /\
             Fin (30 # 130) = Growth.profit_growth g) \/
  (Fin (30 # 130) = NaN /\
   forall g, In g Samples.growth ->
             Growth.Stkcd g = Gap.Stkcd Samples.event_aligned ->
             DateOffset_months 3 (Growth.Annodt g) <> Gap.Annodt Samples.event_aligned).
Proof.
  assert (Hin : In (Sel.mk Samples.event_aligned (Some Samples.growth_fifth)
                      [Fin (30 # 130); Fin (10 # 120); Fin (-30 # 150); Fin (50 # 100);
                       NaN; NaN; NaN; NaN])
                   (strategy_merged [Samples.event_aligned] Samples.growth))
    by (vm_compute; left; reflexivity).
  exact (proj2 (proj1 (growth_q_ago_exact_join [Samples.event_aligned] Samples.growth)
                  _ 1%nat Hin ltac:(lia))).
Defined.

Example growth_q_ago_irregular_calendar :
  map Sel.growth_q_ago (strategy_merged [Samples.event] Samples.growth)
  = [[NaN; NaN; NaN; NaN; NaN; NaN; NaN; NaN]].
Proof. vm_compute. reflexivity. Qed.

(** C6 (as stated, refuted). The sixth disclosure of "000001", announced
    2020-06-30 without a profit figure, is a growth record at or before
    the event of 2020-07-02, yet the join attaches the fifth one, of
    2020-04-28. *)
Lemma backward_join_skips_incomplete_record :
  exists m g g',
    In m (strategy_merged [Samples.event] Samples.growth_missing_last) /\
    Sel.growth m = Some g /\
    In g' Samples.growth_missing_last /\
    Growth.Stkcd g' = Sel.Stkcd m /\
    Growth.Annodt g' <= Sel.Annodt m /\
    Growth.Annodt g < Growth.Annodt g'.
Proof.
  eexists. exists (Growth.mk (Rept.mk "000001" (Some 1) (ymd 2020 3 31) (ymd 2020 4 28)
                              (int 160))
                             (Fin (30 # 130)) (Fin (60 # 100))).
  exists (Growth.mk (Rept.mk "000001" (Some 2) (ymd 2020 6 30) (ymd 2020 6 30) NaN)
                    (Fin (0 # 160)) (Fin (10 # 150))).
  split; [vm_compute; left; reflexivity|].
  split; [reflexivity|].
  split; [vm_compute; tauto|].
  split; [reflexivity|]. split; vm_compute; [discriminate | reflexivity].
Qed.

(** C6 (amended). The growth record attached to a joined row is a record
    with no missing field, of the same instrument, announced at or before
    the event, and no such record is announced later than it and at or
    before the event; a row is left without a growth record only when
    every such record of its instrument is announced after the event. *)
Theorem backward_join_most_recent_complete (gap_events : list Gap.t)
    (fin_data : list Growth.t) (m : Sel.t) :
  In m (strategy_merged gap_events fin_data) ->
  match Sel.growth m with
  | Some g =>
      In g (dropna fin_data) /\
      Growth.Stkcd g = Sel.Stkcd m /\
      Growth.Annodt g <= Sel.Annodt m /\
      forall g', In g' (dropna fin_data) -> Growth.Stkcd g' = Sel.Stkcd m ->
                 Growth.Annodt g' <= Sel.Annodt m ->
                 Growth.Annodt g' <= Growth.Annodt g
  | None =>
      forall g', In g' (dropna fin_data) -> Growth.Stkcd g' = Sel.Stkcd m ->
                 Sel.Annodt m < Growth.Annodt g'
  end.
Proof.
  intros Hm. apply strategy_merged_In in Hm. destruct Hm as [Hin _].
  apply strategy_asof_In in Hin. destruct Hin as [_ Ho].
  unfold Sel.Stkcd, Sel.Annodt.
  destruct (Sel.growth m) as [g|]; symmetry in Ho.
  - apply asof_backward_Some in Ho; [|apply sorted_by_date].
    destruct Ho as (Hg & Hk & Hd & Hmax).
    apply sort_values_In in Hg. repeat split; try assumption.
    intros g' Hg' Hk' Hd'. apply Hmax; try assumption. now apply sort_values_In.
  - intros g' Hg' Hk'.
    apply (asof_backward_None _ _ _ _ _ _ Ho g'); [|exact Hk'].
    now apply sort_values_In.
Qed.

Lemma backward_join_most_recent_complete_witness :
  Growth.Stkcd Samples.growth_fifth = Gap.Stkcd Samples.event /\
  Growth.Annodt Samples.growth_fifth <= Gap.Annodt Samples.event.
Proof.
  assert (Hin : In (Sel.mk Samples.event (Some Samples.growth_fifth)
                      [NaN; NaN; NaN; NaN; NaN; NaN; NaN; NaN])
                   (strategy_merged [Samples.event] Samples.growth))
    by (vm_compute; left; reflexivity).
  pose proof (backward_join_most_recent_complete [Samples.event] Samples.growth _ Hin)
    as (_ & Hk & Hd & _).
  exact (conj Hk Hd).
Defined.

Lemma strategy_consistent_growth_In (gap_events : list Gap.t)
    (fin_data : list Growth.t) (m : Sel.t) :
  In m (strategy_consistent_growth gap_events fin_data) <->
  In m (strategy_merged gap_events fin_data) /\
  fgt (Sel.profit_growth_2y m) (int 50) = true.
Proof. unfold strategy_consistent_growth, condition. apply filter_In. Qed.

Lemma condition_finite (m : Sel.t) (q : Q) :
  Sel.profit_growth_2y m = Fin q ->
  condition m = true <-> (50 < q)%Q.
Proof. unfold condition. intros ->. apply fgt_Fin. Qed.

(** C3 (the code at the failing input). The event of 2020-07-02 is joined
    with a growth record whose multi-period growth is 0.6, and the
    selection, which compares with 50, drops it: the output is empty. *)
Lemma strategy_excludes_growth_0_6 :
  (exists m, In m (strategy_merged [Samples.event] Samples.growth) /\
             num_eq (Sel.profit_growth_2y m) (dec 6 1) /\
             condition m = false) /\
  strategy_consistent_growth [Samples.event] Samples.growth = [].
Proof.
  split; [|vm_compute; reflexivity].
  eexists. split; [vm_compute; left; reflexivity|].
  split; reflexivity.
Qed.

(* ===================================================================== *)
(** ** backtest_strategy: prices                                          *)
(* ===================================================================== *)

Lemma backtest_strategy_positions (selected : list Sel.t) (prices : list Trd.t)
    (hold : Z) :
  backtest_strategy selected prices hold
  = backtest_positions (open_positions hold selected) prices.
Proof.
  unfold backtest_strategy. f_equal.
  rewrite <- (map_id prices) at 2. apply map_ext. now intros [].
Qed.

Lemma priced_positions_In (positions : list Pos.t) (prices : list Trd.t) (m : Priced) :
  In m (priced_positions positions prices) <->
  exists p,
    In p positions /\
    let sorted := sort_values (by_date Trd.Trddt) prices in
    let b := asof_backward Pos.Stkcd Pos.buy_date Trd.Stkcd Trd.Trddt sorted p in
    m = ((p, b),
         asof_forward (fun x : Pos.t * option Trd.t => Pos.Stkcd (fst x))
           (fun x => Pos.sell_date (fst x)) Trd.Stkcd Trd.Trddt sorted (p, b)).
Proof.
  unfold priced_positions, merge_asof_forward, merge_asof_backward.
  rewrite in_map_iff. split.
  - intros ([p b] & <- & Hin). apply sort_values_In in Hin.
    apply in_map_iff in Hin. destruct Hin as (p' & Heq & Hp).
    injection Heq as -> <-. apply sort_values_In in Hp.
    exists p. split; [exact Hp | reflexivity].
  - intros (p & Hp & ->). eexists. split; [reflexivity|].
    apply sort_values_In. apply in_map_iff. exists p.
    split; [reflexivity|]. now apply sort_values_In.
Qed.

(** A position whose instrument has no session at or after the sell date
    gets no sell price, and so a missing return. *)
Lemma priced_no_sell_session (positions : list Pos.t) (prices : list Trd.t) (m : Priced) :
  In m (priced_positions positions prices) ->
  (forall r, In r prices -> Trd.Stkcd r = Pos.Stkcd (position m) ->
             Trd.Trddt r < Pos.sell_date (position m)) ->
  snd m = None /\ sell_price m = NaN /\ Return m = NaN.
Proof.
  intros Hm Hnone. apply priced_positions_In in Hm.
  destruct Hm as (p & Hp & ->). cbv zeta in *. cbn [position fst snd] in *.
  match goal with
  | |- ?o = None /\ _ => destruct o as [r|] eqn:E
  end.
  - exfalso. apply asof_forward_Some in E; [|apply sorted_by_date].
    destruct E as (Hr & Hk & Hd & _). cbn [fst] in *.
    apply sort_values_In in Hr. specialize (Hnone r Hr Hk). lia.
  - unfold Return, sell_price. cbn [snd matched_Clsprc].
    split; [reflexivity|]. split; [reflexivity|].
    unfold pct. now destruct (buy_price _).
Qed.

Lemma priced_buy_dates (positions : list Pos.t) (prices : list Trd.t) (b : date) :
  In b (map (fun m => Pos.buy_date (position m)) (priced_positions positions prices))
  <-> In b (map Pos.buy_date positions).
Proof.
  rewrite !in_map_iff. split.
  - intros (m & <- & Hm). apply priced_positions_In in Hm.
    destruct Hm as (p & Hp & ->). exists p. split; [reflexivity | exact Hp].
  - intros (p & <- & Hp). eexists. split; [|apply priced_positions_In; eauto].
    reflexivity.
Qed.

(* ===================================================================== *)
(** ** backtest_strategy: aggregation                                     *)
(* ===================================================================== *)

Lemma group_keys_In (ds : list date) (k : date) : In k (group_keys ds) <-> In k ds.
Proof. unfold group_keys. rewrite sort_values_In. apply nodup_In. Qed.

Lemma Zleb_total : le_total Z.leb.
Proof. intros a b. lia. Qed.

Lemma Zleb_trans : le_trans Z.leb.
Proof. intros a b c. lia. Qed.

Lemma group_keys_increasing (ds : list date) : StronglySorted Z.lt (group_keys ds).
Proof.
  unfold group_keys.
  assert (Hnd : List.NoDup (sort_values Z.leb (nodup Z.eq_dec ds))).
  { eapply Permutation_NoDup; [symmetry; apply sort_values_perm|].
    apply NoDup_nodup. }
  pose proof (sort_values_sorted Z.leb (nodup Z.eq_dec ds) Zleb_total Zleb_trans) as Hs.
  induction Hs as [|x l Hs IH Hx]; [constructor|].
  apply List.NoDup_cons_iff in Hnd. destruct Hnd as [Hnin Hnd].
  constructor; [now apply IH|].
  rewrite List.Forall_forall in *. intros y Hy.
  specialize (Hx y Hy). apply Z.leb_le in Hx.
  assert (x <> y) by (intros ->; contradiction). lia.
Qed.

Lemma groupby_mean_In (col : list (date * num)) (k : date) (v : num) :
  In (k, v) (groupby_mean col) <-> In k (map fst col) /\ v = mean (group k col).
Proof.
  unfold groupby_mean. rewrite in_map_iff. split.
  - intros (k' & Heq & Hk). injection Heq as -> <-.
    split; [now apply group_keys_In | reflexivity].
  - intros [Hk ->]. exists k. split; [reflexivity | now apply group_keys_In].
Qed.

Lemma groupby_mean_keys (col : list (date * num)) :
  map fst (groupby_mean col) = group_keys (map fst col).
Proof. unfold groupby_mean. rewrite map_map. cbn [fst]. apply map_id. Qed.

(** The mean is taken over the values present: a missing one can be
    removed from the group without changing it. *)
Lemma mean_skips_missing (xs : list num) : mean xs = mean (List.filter notna xs).
Proof.
  assert (Hidem : List.filter notna (List.filter notna xs) = List.filter notna xs).
  { induction xs as [|x xs IH]; [reflexivity|]. cbn [List.filter].
    destruct (notna x) eqn:E; cbn [List.filter]; [rewrite E; now f_equal | exact IH]. }
  unfold mean. now rewrite Hidem.
Qed.

Lemma mean_all_missing (xs : list num) :
  Forall (fun x => x = NaN) xs -> mean xs = NaN.
Proof.
  intros Hall. unfold mean.
  replace (List.filter notna xs) with (@nil num); [reflexivity|].
  induction Hall as [|x xs -> _ IH]; [reflexivity | exact IH].
Qed.

(* ===================================================================== *)
(** ** backtest_strategy: compounding                                     *)
(* ===================================================================== *)

Lemma cumprod_from_length (acc : option num) (xs : list num) :
  length (cumprod_from acc xs) = length xs.
Proof.
  revert acc. induction xs as [|x xs IH]; intros acc; [reflexivity|].
  cbn [cumprod_from]. destruct (isna x); cbn [length]; now rewrite IH.
Qed.

Lemma cum_returns_length (rs : list num) : length (cum_returns rs) = length rs.
Proof. unfold cum_returns, cumprod. now rewrite length_map, cumprod_from_length, length_map. Qed.

Lemma fprod_from_Some (a : num) (ys : list num) :
  fprod_from (Some a) ys = Some (fold_left fmul ys a).
Proof.
  revert a. induction ys as [|y ys IH]; intros a; [reflexivity|].
  unfold fprod_from in *. cbn [fold_left]. apply IH.
Qed.

Lemma fprod_from_None (ys : list num) :
  ys <> [] -> fprod_from None ys = Some (fprod ys).
Proof.
  destruct ys as [|y ys]; [congruence|]. intros _.
  unfold fprod_from. cbn [fold_left]. apply fprod_from_Some.
Qed.

(** Entry [k] of a cumulative product: missing where the factor is
    missing, otherwise the product of the factors present up to [k]. *)
Lemma cumprod_from_nth (xs : list num) (acc : option num) (k : nat) :
  (k < length xs)%nat ->
  nth k (cumprod_from acc xs) NaN
  = if isna (nth k xs NaN) then NaN
    else default NaN (fprod_from acc (List.filter notna (firstn (S k) xs))).
Proof.
  revert acc k. induction xs as [|x xs IH]; intros acc k Hk; cbn [length] in Hk; [lia|].
  destruct k as [|k].
  - cbn [cumprod_from firstn nth List.filter]. unfold notna.
    destruct (isna x); cbn [negb nth]; [reflexivity|].
    now destruct acc.
  - change (firstn (S (S k)) (x :: xs)) with (x :: firstn (S k) xs).
    cbn [cumprod_from nth List.filter]. unfold notna at 1.
    destruct (isna x); cbn [negb nth]; rewrite IH by lia; reflexivity.
Qed.

Lemma isna_fadd_1 (x : num) : isna (fadd (int 1) x) = isna x.
Proof. now destruct x. Qed.

Lemma filter_notna_fadd_1 (xs : list num) :
  List.filter notna (map (fadd (int 1)) xs)
  = map (fadd (int 1)) (List.filter notna xs).
Proof.
  rewrite filter_map_swap'. f_equal. apply filter_ext.
  intros x. unfold notna. now rewrite isna_fadd_1.
Qed.

Lemma cum_returns_nth (rs : list num) (k : nat) :
  (k < length rs)%nat ->
  nth k (cum_returns rs) NaN
  = if isna (nth k rs NaN) then NaN
    else fsub (fprod (map (fadd (int 1)) (List.filter notna (firstn (S k) rs))))
              (int 1).
Proof.
  intros Hk. unfold cum_returns, cumprod.
  assert (Hsub : forall cs, nth k (map (fun c => fsub c (int 1)) cs) NaN
                            = fsub (nth k cs NaN) (int 1))
    by (intros cs; exact (map_nth (fun c => fsub c (int 1)) cs NaN k)).
  assert (Hadd : nth k (map (fadd (int 1)) rs) NaN = fadd (int 1) (nth k rs NaN))
    by exact (map_nth (fadd (int 1)) rs NaN k).
  rewrite Hsub, cumprod_from_nth by (now rewrite length_map).
  rewrite Hadd, isna_fadd_1.
  destruct (isna (nth k rs NaN)) eqn:E; [reflexivity|].
  rewrite firstn_map, filter_notna_fadd_1, fprod_from_None; [reflexivity|].
  intros Hnil. apply map_eq_nil in Hnil.
  assert (Hin : In (nth k rs NaN) (List.filter notna (firstn (S k) rs))).
  { apply filter_In. split; [|unfold notna; now rewrite E].
    rewrite <- (firstn_skipn (S k) rs) at 1.
    rewrite app_nth1 by (rewrite length_firstn; lia).
    apply nth_In. rewrite length_firstn. lia. }
  rewrite Hnil in Hin. destruct Hin.
Qed.

Lemma filter_notna_all (xs : list num) :
  Forall (fun x => x <> NaN) xs -> List.filter notna xs = xs.
Proof.
  intros Hall. induction Hall as [|x xs Hx _ IH]; [reflexivity|].
  cbn [List.filter]. unfold notna at 1.
  destruct x; try congruence; cbn [isna negb]; now rewrite IH.
Qed.

(** The table returned by the backtest, column by column. *)
Lemma backtest_positions_columns (positions : list Pos.t) (prices : list Trd.t) :
  let out := backtest_positions positions prices in
  let pr := portfolio_return (priced_positions positions prices) in
  map Port.buy_date out = map fst pr /\
  map Port.Return out = map snd pr /\
  map Port.cum_return out = cum_returns (map snd pr).
Proof.
  intros out pr. unfold out, backtest_positions. fold pr.
  assert (Hlen : length pr = length (cum_returns (map snd pr)))
    by (now rewrite cum_returns_length, length_map).
  rewrite !map_map. cbn [Port.buy_date Port.Return Port.cum_return].
  split; [|split].
  - rewrite <- (map_map fst fst). now rewrite combine_map_fst.
  - rewrite <- (map_map fst snd). now rewrite combine_map_fst.
  - change (fun x : date * num * num => snd x) with (@snd (date * num) num).
    now apply combine_map_snd.
Qed.

(** Every group mean has its row in the returned table, and a missing
    mean comes with a missing cumulative return. *)
Lemma backtest_positions_row (positions : list Pos.t) (prices : list Trd.t)
    (k : date) (v : num) :
  In (k, v) (portfolio_return (priced_positions positions prices)) ->
  exists c, In (Port.mk k v c) (backtest_positions positions prices) /\
            (v = NaN -> c = NaN).
Proof.
  unfold backtest_positions.
  set (pr := portfolio_return (priced_positions positions prices)).
  intros Hin. destruct (In_nth _ _ (k, NaN) Hin) as (i & Hi & Hnth).
  assert (Hlen : length (cum_returns (map snd pr)) = length pr)
    by (now rewrite cum_returns_length, length_map).
  exists (nth i (cum_returns (map snd pr)) NaN). split.
  - apply in_map_iff. exists ((k, v), nth i (cum_returns (map snd pr)) NaN).
    split; [reflexivity|]. rewrite <- Hnth at 1.
    rewrite <- combine_nth by (now symmetry). apply nth_In.
    rewrite length_combine. lia.
  - intros ->. rewrite cum_returns_nth by (now rewrite length_map).
    assert (Hv : nth i (map snd pr) NaN = NaN).
    { change NaN with (snd (k, NaN)) at 1. rewrite map_nth, Hnth. reflexivity. }
    now rewrite Hv.
Qed.

Lemma group_map {A} (key : A -> date) (val : A -> num) (k : date) (l : list A) :
  group k (map (fun a => (key a, val a)) l)
  = map val (List.filter (fun a => key a =? k) l).
Proof. unfold group. rewrite filter_map_swap', map_map. reflexivity. Qed.

(** C4 (as stated, refuted). The position in "000001" opened on
    2020-07-02 has no session at or after its sell date and is the only
    one opened that day, yet 2020-07-02 is a row of the output table. *)
Lemma backtest_keeps_buy_date_without_sell_price :
  (forall r, In r Samples.price_data -> Trd.Stkcd r = "000001" ->
             Trd.Trddt r < Timedelta_days 90 (ymd 2020 7 2)) /\
  (forall s, In s Samples.selected -> Sel.Trddt s = ymd 2020 7 2 ->
             Sel.Stkcd s = "000001") /\
  (exists s, In s Samples.selected /\ Sel.Trddt s = ymd 2020 7 2) /\
  In (ymd 2020 7 2)
     (map Port.buy_date (backtest_strategy Samples.selected Samples.price_data 90)).
Proof.
  split; [|split; [|split]].
  - intros r Hr Hk. vm_compute in Hr.
    repeat (destruct Hr as [<-|Hr]; [try discriminate Hk; vm_compute; reflexivity|]).
    destruct Hr.
  - intros s Hs Hd. vm_compute in Hs.
    repeat (destruct Hs as [<-|Hs]; [try discriminate Hd; reflexivity|]).
    destruct Hs.
  - eexists. split; [vm_compute; left; reflexivity | reflexivity].
  - vm_compute. left. reflexivity.
Qed.

(** C4 (amended). A selected position whose instrument has no session at
    or after the sell date gets a null return; the portfolio return of its
    buy_date is the mean over the non-null returns of the positions opened
    that day; and when it is the only position opened that day, the
    buy_date is still a row of the output, with a null portfolio return
    and a null cumulative return. *)
Theorem backtest_missing_sell_price (selected : list Sel.t) (prices : list Trd.t)
    (hold : Z) (s : Sel.t) :
  In s selected ->
  (forall r, In r prices -> Trd.Stkcd r = Sel.Stkcd s ->
             Trd.Trddt r < Timedelta_days hold (Sel.Trddt s)) ->
  let priced := priced_positions (open_positions hold selected) prices in
  let b := Sel.Trddt s in
  (forall m, In m priced -> Pos.sel (position m) = s -> Return m = NaN) /\
  (exists row,
     In row (backtest_strategy selected prices hold) /\
     Port.buy_date row = b /\
     Port.Return row
     = mean (List.filter notna
               (map Return
                  (List.filter (fun m => Pos.buy_date (position m) =? b) priced)))) /\
  ((forall s', In s' selected -> Sel.Trddt s' = b -> s' = s) ->
   exists row,
     In row (backtest_strategy selected prices hold) /\
     Port.buy_date row = b /\ Port.Return row = NaN /\ Port.cum_return row = NaN).
Proof.
  intros Hs Hnone priced b.
  assert (Hpos : forall m, In m priced ->
            exists s', In s' selected /\
                       position m = Pos.mk s' (Sel.Trddt s')
                                      (Timedelta_days hold (Sel.Trddt s'))).
  { intros m Hm. apply priced_positions_In in Hm. destruct Hm as (p & Hp & ->).
    unfold open_positions in Hp. apply in_map_iff in Hp.
    destruct Hp as (s' & <- & Hs'). exists s'. split; [exact Hs' | reflexivity]. }
  assert (Hnan : forall m, In m priced -> Pos.sel (position m) = s -> Return m = NaN).
  { intros m Hm Hsel. destruct (Hpos m Hm) as (s' & _ & Hp).
    apply (priced_no_sell_session _ _ _ Hm).
    rewrite Hp in Hsel. cbn [Pos.sel] in Hsel. subst s'.
    rewrite Hp. unfold Pos.Stkcd. cbn [Pos.sel Pos.sell_date]. exact Hnone. }
  set (col := map (fun m => (Pos.buy_date (position m), Return m)) priced).
  assert (Hkey : In b (map fst col)).
  { unfold col. rewrite map_map. cbn [fst].
    apply priced_buy_dates. unfold open_positions. rewrite map_map.
    cbn [Pos.buy_date]. apply in_map_iff. exists s. split; [reflexivity | exact Hs]. }
  assert (Hrow : In (b, mean (group b col)) (portfolio_return priced))
    by (apply groupby_mean_In; split; [exact Hkey | reflexivity]).
  rewrite backtest_strategy_positions.
  destruct (backtest_positions_row _ _ _ _ Hrow) as (c & Hc & Hcnan).
  assert (Hgroup : group b col
                   = map Return
                       (List.filter (fun m => Pos.buy_date (position m) =? b) priced))
    by apply group_map.
  split; [exact Hnan|]. split.
  - exists (Port.mk b (mean (group b col)) c). split; [exact Hc|].
    split; [reflexivity|]. cbn [Port.Return].
    rewrite <- Hgroup. apply mean_skips_missing.
  - intros Honly.
    assert (Hmean : mean (group b col) = NaN).
    { apply mean_all_missing. rewrite Hgroup. apply List.Forall_forall.
      intros x Hx. apply in_map_iff in Hx. destruct Hx as (m & <- & Hm).
      apply filter_In in Hm. destruct Hm as [Hm Hb]. apply Z.eqb_eq in Hb.
      apply Hnan; [exact Hm|].
      destruct (Hpos m Hm) as (s' & Hs' & Hp). rewrite Hp in Hb |- *.
      cbn [Pos.buy_date Pos.sel] in *. now apply Honly. }
    exists (Port.mk b (mean (group b col)) c). split; [exact Hc|].
    split; [reflexivity|]. split; [exact Hmean | exact (Hcnan Hmean)].
Qed.

Lemma backtest_missing_sell_price_witness :
  exists row,
    In row (backtest_strategy Samples.selected Samples.price_data 90) /\
    Port.buy_date row = ymd 2020 7 2 /\
    Port.Return row = NaN /\ Port.cum_return row = NaN.
Proof.
  assert (Hs : In Samples.selected_000001 Samples.selected)
    by (vm_compute; left; reflexivity).
  assert (Hnone : forall r, In r Samples.price_data ->
                    Trd.Stkcd r = Sel.Stkcd Samples.selected_000001 ->
                    Trd.Trddt r < Timedelta_days 90 (Sel.Trddt Samples.selected_000001)).
  { intros r Hr Hk. vm_compute in Hr. vm_compute in Hk.
    repeat (destruct Hr as [<-|Hr]; [try discriminate Hk; vm_compute; reflexivity|]).
    destruct Hr. }
  refine (proj2 (proj2 (backtest_missing_sell_price Samples.selected Samples.price_data
                          90 Samples.selected_000001 Hs Hnone)) _).
  intros s' Hs' Hd. vm_compute in Hs'. vm_compute in Hd.
  repeat (destruct Hs' as [<-|Hs']; [try discriminate Hd; reflexivity|]).
  destruct Hs'.
Defined.

(** With the identity for rounding, the rounded operations are the exact
    ones. *)
Lemma cum_returns_rounded_exact (rs : list num) :
  cum_returns_rounded (fun q => q) rs = cum_returns rs.
Proof.
  assert (Hround : forall x, round (fun q => q) x = x) by (now intros []).
  assert (Hprod : forall acc xs,
            cumprod_from_rounded (fun q => q) acc xs = cumprod_from acc xs).
  { intros acc xs. revert acc. induction xs as [|x xs IH]; intros acc; [reflexivity|].
    cbn [cumprod_from_rounded cumprod_from]. destruct (isna x); [now rewrite IH|].
    destruct acc; rewrite ?Hround, IH; reflexivity. }
  unfold cum_returns_rounded, cum_returns, cumprod. rewrite Hprod.
  rewrite (map_ext (fun r => round (fun q => q) (fadd (int 1) r)) (fadd (int 1)))
    by (intros r; apply Hround).
  apply map_ext. intros c. apply Hround.
Qed.

Lemma rounds_exact : rounds (fun q => q).
Proof.
  intros x. cbv beta.
  assert (H : (x - x == 0)%Q) by ring.
  rewrite H. change (Qabs 0) with 0%Q.
  apply Qmult_le_0_compat; [vm_compute; discriminate | apply Qabs_nonneg].
Qed.

Lemma rounds_within (rnd : Q -> Q) (x B : Q) :
  rounds rnd -> (Qabs x <= B)%Q ->
  (x - B * (1 # 1000000000000000) <= rnd x <= x + B * (1 # 1000000000000000))%Q.
Proof.
  intros Hr HB. specialize (Hr x).
  assert (H0 : (0 <= Qabs x)%Q) by apply Qabs_nonneg.
  assert (Hu : (unit_roundoff * Qabs x <= B * (1 # 1000000000000000))%Q).
  { assert (Hle : (unit_roundoff <= 1 # 1000000000000000)%Q) by (vm_compute; discriminate).
    assert (Huu : (0 <= unit_roundoff)%Q) by (vm_compute; discriminate).
    rewrite (Qmult_comm B).
    apply Qmult_le_compat_nonneg; split; assumption. }
  apply Qabs_Qle_condition in Hr. lra.
Qed.

Lemma Qabs_within (x c t : Q) :
  (Qabs (x - c) <= t)%Q <-> (c - t <= x <= c + t)%Q.
Proof. rewrite Qabs_Qle_condition. split; lra. Qed.

(** The sample of three returns, with any rounding: the returns are the
    floats nearest to 0.1, -0.05 and 0.2. *)
Lemma cum_returns_sample (rnd : Q -> Q) (r1 r2 r3 : Q) :
  rounds rnd ->
  (Qabs (r1 - (1 # 10)) <= unit_roundoff)%Q ->
  (Qabs (r2 - (-5 # 100)) <= unit_roundoff)%Q ->
  (Qabs (r3 - (2 # 10)) <= unit_roundoff)%Q ->
  exists c1 c2 c3,
    cum_returns_rounded rnd [Fin r1; Fin r2; Fin r3] = [Fin c1; Fin c2; Fin c3] /\
    (Qabs (c1 - (10 # 100)) <= 1 # 1000000000000)%Q /\
    (Qabs (c2 - (45 # 1000)) <= 1 # 1000000000000)%Q /\
    (Qabs (c3 - (254 # 1000)) <= 1 # 1000000000000)%Q.
Proof.
  intros Hr H1 H2 H3.
  assert (Hu : (unit_roundoff <= 1 # 1000000000000000)%Q) by (vm_compute; discriminate).
  apply Qabs_within in H1, H2, H3.
  unfold cum_returns_rounded. cbn [map cumprod_from_rounded round fadd fsub fmul isna int].
  change (inject_Z 1) with 1%Q.
  set (x1 := rnd (1 + r1)%Q). set (x2 := rnd (1 + r2)%Q). set (x3 := rnd (1 + r3)%Q).
  set (p2 := rnd (x1 * x2)%Q). set (p3 := rnd (p2 * x3)%Q).
  set (c1 := rnd (x1 - 1)%Q). set (c2 := rnd (p2 - 1)%Q). set (c3 := rnd (p3 - 1)%Q).
  exists c1, c2, c3. split; [reflexivity|].
  assert (Hx1 : ((11 # 10) - (3 # 1000000000000000) <= x1 <= (11 # 10) + (3 # 1000000000000000))%Q).
  { pose proof (rounds_within rnd (1 + r1) 2 Hr) as Hb. fold x1 in Hb.
    assert (Ha : (Qabs (1 + r1) <= 2)%Q) by (apply Qabs_Qle_condition; lra).
    specialize (Hb Ha). lra. }
  assert (Hx2 : ((19 # 20) - (3 # 1000000000000000) <= x2 <= (19 # 20) + (3 # 1000000000000000))%Q).
  { pose proof (rounds_within rnd (1 + r2) 2 Hr) as Hb. fold x2 in Hb.
    assert (Ha : (Qabs (1 + r2) <= 2)%Q) by (apply Qabs_Qle_condition; lra).
    specialize (Hb Ha). lra. }
  assert (Hx3 : ((12 # 10) - (3 # 1000000000000000) <= x3 <= (12 # 10) + (3 # 1000000000000000))%Q).
  { pose proof (rounds_within rnd (1 + r3) 2 Hr) as Hb. fold x3 in Hb.
    assert (Ha : (Qabs (1 + r3) <= 2)%Q) by (apply Qabs_Qle_condition; lra).
    specialize (Hb Ha). lra. }
  assert (Hm2 : (((11 # 10) - (3 # 1000000000000000)) * ((19 # 20) - (3 # 1000000000000000)) <= x1 * x2
                 <= ((11 # 10) + (3 # 1000000000000000)) * ((19 # 20) + (3 # 1000000000000000)))%Q).
  { split; apply Qmult_le_compat_nonneg; split; lra. }
  assert (Hp2 : ((1045 # 1000) - (9 # 1000000000000000) <= p2 <= (1045 # 1000) + (9 # 1000000000000000))%Q).
  { pose proof (rounds_within rnd (x1 * x2) 2 Hr) as Hb. fold p2 in Hb.
    assert (Ha : (Qabs (x1 * x2) <= 2)%Q) by (apply Qabs_Qle_condition; lra).
    specialize (Hb Ha). lra. }
  assert (Hm3 : (((1045 # 1000) - (9 # 1000000000000000)) * ((12 # 10) - (3 # 1000000000000000)) <= p2 * x3
                 <= ((1045 # 1000) + (9 # 1000000000000000)) * ((12 # 10) + (3 # 1000000000000000)))%Q).
  { split; apply Qmult_le_compat_nonneg; split; lra. }
  assert (Hp3 : ((1254 # 1000) - (17 # 1000000000000000) <= p3 <= (1254 # 1000) + (17 # 1000000000000000))%Q).
  { pose proof (rounds_within rnd (p2 * x3) 2 Hr) as Hb. fold p3 in Hb.
    assert (Ha : (Qabs (p2 * x3) <= 2)%Q) by (apply Qabs_Qle_condition; lra).
    specialize (Hb Ha). lra. }
  split; [|split]; apply Qabs_within.
  - pose proof (rounds_within rnd (x1 - 1) 2 Hr) as Hb. fold c1 in Hb.
    assert (Ha : (Qabs (x1 - 1) <= 2)%Q) by (apply Qabs_Qle_condition; lra).
    specialize (Hb Ha). lra.
  - pose proof (rounds_within rnd (p2 - 1) 2 Hr) as Hb. fold c2 in Hb.
    assert (Ha : (Qabs (p2 - 1) <= 2)%Q) by (apply Qabs_Qle_condition; lra).
    specialize (Hb Ha). lra.
  - pose proof (rounds_within rnd (p3 - 1) 2 Hr) as Hb. fold c3 in Hb.
    assert (Ha : (Qabs (p3 - 1) <= 2)%Q) by (apply Qabs_Qle_condition; lra).
    specialize (Hb Ha). lra.
Qed.

(** C7 (as stated, refuted). With the returns [null, 0.1] of the sample
    run, the compounding product of (1 + return) over the first two
    buy_dates is null, while the cumulative return reported at the second
    is not. *)
Lemma cum_return_skips_missing_return :
  map Port.buy_date Samples.backtest = [ymd 2020 7 2; ymd 2020 8 3] /\
  fsub (fprod (map (fadd (int 1)) (firstn 2 (map Port.Return Samples.backtest))))
       (int 1) = NaN /\
  isna (nth 1 (map Port.cum_return Samples.backtest) NaN) = false.
Proof. split; [|split]; vm_compute; reflexivity. Qed.

(** C7 (amended). The output rows are in strictly increasing buy_date
    order; the cumulative return at the k-th of them is null when its
    portfolio return is null, and otherwise the product of
    (1 + portfolio_return) over the non-null portfolio returns among the
    first k, multiplied in that order, minus 1 -- the plain product over
    the first k when none of them is null.  The returns [0.1, -0.05, 0.2]
    give [0.10, 0.045, 0.254] within floating tolerance: with every
    operation rounded to a relative error of 2^-53, on the floats nearest
    to the three returns, each cumulative return is within 10^-12 of its
    value (and is that value when nothing is rounded). *)
Theorem cum_return_compounds (selected : list Sel.t) (prices : list Trd.t) (hold : Z) :
  let out := backtest_strategy selected prices hold in
  let r := map Port.Return out in
  let cum := map Port.cum_return out in
  StronglySorted Z.lt (map Port.buy_date out) /\
  cum = cum_returns r /\
  cum = cum_returns_rounded (fun q => q) r /\
  (forall k, (k < length out)%nat ->
     nth k cum NaN
     = if isna (nth k r NaN) then NaN
       else fsub (fprod (map (fadd (int 1)) (List.filter notna (firstn (S k) r))))
                 (int 1)) /\
  (forall k, (k < length out)%nat ->
     Forall (fun x => x <> NaN) (firstn (S k) r) ->
     nth k cum NaN = fsub (fprod (map (fadd (int 1)) (firstn (S k) r))) (int 1)) /\
  (forall (rnd : Q -> Q) (r1 r2 r3 : Q),
     rounds rnd ->
     (Qabs (r1 - (1 # 10)) <= unit_roundoff)%Q ->
     (Qabs (r2 - (-5 # 100)) <= unit_roundoff)%Q ->
     (Qabs (r3 - (2 # 10)) <= unit_roundoff)%Q ->
     exists c1 c2 c3,
       cum_returns_rounded rnd [Fin r1; Fin r2; Fin r3] = [Fin c1; Fin c2; Fin c3] /\
       (Qabs (c1 - (10 # 100)) <= 1 # 1000000000000)%Q /\
       (Qabs (c2 - (45 # 1000)) <= 1 # 1000000000000)%Q /\
       (Qabs (c3 - (254 # 1000)) <= 1 # 1000000000000)%Q).
Proof.
  intros out r cum. subst cum r out. rewrite backtest_strategy_positions.
  destruct (backtest_positions_columns (open_positions hold selected) prices)
    as (Hd & Hr & Hc). cbv zeta in Hd, Hr, Hc.
  set (res := backtest_positions (open_positions hold selected) prices) in *.
  assert (Hcum : map Port.cum_return res = cum_returns (map Port.Return res))
    by (now rewrite Hc, Hr).
  assert (Hnth : forall k, (k < length res)%nat ->
            nth k (map Port.cum_return res) NaN
            = if isna (nth k (map Port.Return res) NaN) then NaN
              else fsub (fprod (map (fadd (int 1))
                                  (List.filter notna
                                     (firstn (S k) (map Port.Return res)))))
                        (int 1)).
  { intros k Hk. rewrite Hcum. apply cum_returns_nth. now rewrite length_map. }
  split; [|split; [exact Hcum|split; [|split; [exact Hnth|split]]]].
  - rewrite Hd. unfold portfolio_return. rewrite groupby_mean_keys.
    apply group_keys_increasing.
  - now rewrite cum_returns_rounded_exact.
  - intros k Hk Hall. rewrite (Hnth k Hk), (filter_notna_all _ Hall).
    assert (Hin : In (nth k (map Port.Return res) NaN)
                     (firstn (S k) (map Port.Return res))).
    { rewrite <- (firstn_skipn (S k) (map Port.Return res)) at 1.
      rewrite app_nth1 by (rewrite length_firstn, length_map; lia).
      apply nth_In. rewrite length_firstn, length_map. lia. }
    rewrite List.Forall_forall in Hall. specialize (Hall _ Hin).
    destruct (nth k (map Port.Return res) NaN);
      [now contradiction Hall | reflexivity | reflexivity | reflexivity].
  - intros rnd r1 r2 r3. apply cum_returns_sample.
Qed.

Lemma cum_return_compounds_witness :
  nth 1 (map Port.cum_return Samples.backtest) NaN
  = fsub (fprod (map (fadd (int 1))
                   (List.filter notna (firstn 2 (map Port.Return Samples.backtest)))))
         (int 1) /\
  exists c1 c2 c3,
    cum_returns [dec 1 1; dec (-5) 2; dec 2 1] = [Fin c1; Fin c2; Fin c3] /\
    (Qabs (c1 - (10 # 100)) <= 1 # 1000000000000)%Q /\
    (Qabs (c2 - (45 # 1000)) <= 1 # 1000000000000)%Q /\
    (Qabs (c3 - (254 # 1000)) <= 1 # 1000000000000)%Q.
Proof.
  pose proof (cum_return_compounds Samples.selected Samples.price_data 90)
    as (_ & _ & _ & Hnth & _ & Hsample).
  split; [exact (Hnth 1%nat ltac:(vm_compute; lia))|].
  destruct (Hsample (fun q => q) (1 # 10) (-5 # 100) (2 # 10))%Q
    as (c1 & c2 & c3 & Heq & Hc).
  - exact rounds_exact.
  - vm_compute. discriminate.
  - vm_compute. discriminate.
  - vm_compute. discriminate.
  - exists c1, c2, c3. rewrite cum_returns_rounded_exact in Heq.
    split; [exact Heq | exact Hc].
Defined.

Example portfolio_return_equal_weight :
  num_eq (mean [dec 10 2; dec 20 2]) (dec 15 2) /\
  num_eq (pct (int 11) (int 10)) (dec 10 2).
Proof. split; vm_compute; reflexivity. Qed.

(* ===================================================================== *)
(** ** The dictionaries of BenchmarkDataConstructor                        *)
(* ===================================================================== *)

Example merge_all_data_concatenates :
  fst (BenchmarkDataConstructor.merge_all_data Samples.loaded) = Returned tt /\
  option_map rows
    (BenchmarkDataConstructor.stk_data
       (snd (BenchmarkDataConstructor.merge_all_data Samples.loaded)))
  = Some Samples.stk.
Proof. split; vm_compute; reflexivity. Qed.

(* ===================================================================== *)
(** ** Objects: what a run leaves behind                                  *)
(* ===================================================================== *)

Lemma bind_run {A B} (m : Store.M A) (k : A -> Store.M B) (s : Store.state) :
  (m ≫= k) s
  = match m s with
    | (Store.Done a, s') => k a s'
    | (Store.Raised e, s') => (Store.Raised e, s')
    end.
Proof. reflexivity. Qed.

Lemma bind_Done {A B} (m : Store.M A) (k : A -> Store.M B) (s s2 : Store.state) (b : B) :
  (m ≫= k) s = (Store.Done b, s2) ->
  exists a s1, m s = (Store.Done a, s1) /\ k a s1 = (Store.Done b, s2).
Proof.
  rewrite bind_run. destruct (m s) as [[a|e] s1]; [|discriminate].
  intros H. now exists a, s1.
Qed.

(** *** Rules for [writes_only] *)

Lemma writes_ret (W : Store.ref -> Prop) {A} (a : A) (Q : A -> Prop) :
  Q a -> Store.writes_only W (mret a) Q.
Proof. intros HQ s _. cbn. repeat split; auto. Qed.

Lemma writes_raise (W : Store.ref -> Prop) {A} (e : Store.exn) (Q : A -> Prop) :
  Store.writes_only W (Store.raise e) Q.
Proof. intros s _. cbn. repeat split; auto. Qed.

Lemma writes_bind (W : Store.ref -> Prop) {A B} (m : Store.M A) (k : A -> Store.M B)
    (Q : A -> Prop) (Q' : B -> Prop) :
  Store.writes_only W m Q ->
  (forall a, Q a -> Store.writes_only W (k a) Q') ->
  Store.writes_only W (m ≫= k) Q'.
Proof.
  intros Hm Hk s HW. rewrite bind_run.
  destruct (Hm s HW) as (Hlen & Hkept & HQ).
  destruct (m s) as [[a|e] s1]; cbn [fst snd] in *; [|repeat split; auto].
  destruct (Hk a HQ s1) as (Hlen' & Hkept' & HQ').
  { intros r Hr. apply HW. lia. }
  split; [lia|]. split; [|exact HQ'].
  intros r t Hr Hs. apply Hkept'; [exact Hr|]. now apply Hkept.
Qed.

Lemma writes_weaken (W : Store.ref -> Prop) {A} (m : Store.M A) (Q Q' : A -> Prop) :
  Store.writes_only W m Q -> (forall a, Q a -> Q' a) -> Store.writes_only W m Q'.
Proof.
  intros Hm HQ s HW. destruct (Hm s HW) as (Hlen & Hkept & Ha).
  split; [exact Hlen|]. split; [exact Hkept|].
  destruct (fst (m s)); auto.
Qed.

Lemma writes_pandas (W : Store.ref -> Prop) : Store.writes_only W Store.pandas (fun _ => True).
Proof.
  intros s _. unfold Store.pandas. destruct (Store.failing s) as [[|n]|]; cbn; auto.
Qed.

Lemma writes_load (W : Store.ref -> Prop) (r : Store.ref) :
  Store.writes_only W (Store.load r) (fun _ => True).
Proof. intros s _. unfold Store.load. destruct (Store.heap s !! r); cbn; auto. Qed.

Lemma writes_frame_at (W : Store.ref -> Prop) (r : Store.ref) :
  Store.writes_only W (Store.frame_at r) (fun _ => True).
Proof.
  eapply writes_bind; [apply writes_load|].
  intros [t|d] _; [now apply writes_ret | apply writes_raise].
Qed.

Lemma writes_view (W : Store.ref -> Prop) {A} (cols : Store.table -> option A) (df : Store.ref) :
  Store.writes_only W (Store.view cols df) (fun _ => True).
Proof.
  eapply writes_bind; [apply writes_frame_at|].
  intros t _. destruct (cols t); [now apply writes_ret | apply writes_raise].
Qed.

Lemma writes_alloc (W : Store.ref -> Prop) (o : Store.object) : Store.writes_only W (Store.alloc o) W.
Proof.
  intros s HW. unfold Store.alloc. cbn [fst snd Store.heap]. rewrite length_app. cbn [length].
  split; [lia|]. split; [|apply HW; lia].
  intros r t _ Hr. rewrite lookup_app_l; [exact Hr|].
  now apply lookup_lt_Some in Hr.
Qed.

Lemma writes_store (W : Store.ref -> Prop) (r : Store.ref) (o : Store.object) :
  W r -> Store.writes_only W (Store.store r o) (fun _ => True).
Proof.
  intros Hr s _. unfold Store.store. cbn [fst snd Store.heap]. rewrite length_insert.
  split; [lia|]. split; [|exact I].
  intros r' t Hr' Hs. rewrite list_lookup_insert_ne; [exact Hs|].
  intros ->. now apply Hr'.
Qed.

Lemma writes_getitem (W : Store.ref -> Prop) (d : Store.ref) (key : string) :
  Store.writes_only W (Store.getitem d key) (fun _ => True).
Proof.
  eapply writes_bind with (Q := fun _ => True).
  - eapply writes_bind; [apply writes_load|].
    intros [t|entries] _; [apply writes_raise | now apply writes_ret].
  - intros entries _. destruct (entries !! key); [now apply writes_ret|].
    apply writes_raise.
Qed.

(** A dictionary entry is set: no [DataFrame] changes. *)
Lemma writes_setitem (W : Store.ref -> Prop) (d : Store.ref) (key : string) (value : Store.ref) :
  Store.writes_only W (Store.setitem d key value) (fun _ => True).
Proof.
  intros s _. unfold Store.setitem, Store.dict_at, Store.load, Store.store, Store.raise, mbind, Store.M_bind, mret, Store.M_ret.
  destruct (Store.heap s !! d) as [[t|entries]|] eqn:Hd; cbn; auto.
  rewrite length_insert. split; [lia|]. split; [|exact I].
  intros r t _ Hr. rewrite list_lookup_insert_ne; [exact Hr|].
  intros ->. rewrite Hd in Hr. discriminate Hr.
Qed.

Lemma writes_method (W : Store.ref -> Prop) {A} (cols : Store.table -> option A)
    (f : A -> Store.table) (df : Store.ref) :
  Store.writes_only W (Store.method cols f df) W.
Proof.
  eapply writes_bind; [apply writes_pandas|]. intros _ _.
  eapply writes_bind; [apply writes_view|]. intros rows _.
  apply writes_alloc.
Qed.

Lemma writes_method2 (W : Store.ref -> Prop) {A B} (cols1 : Store.table -> option A)
    (cols2 : Store.table -> option B) (f : A -> B -> Store.table) (left right : Store.ref) :
  Store.writes_only W (Store.method2 cols1 cols2 f left right) W.
Proof.
  eapply writes_bind; [apply writes_pandas|]. intros _ _.
  eapply writes_bind; [apply writes_view|]. intros rows1 _.
  eapply writes_bind; [apply writes_view|]. intros rows2 _.
  apply writes_alloc.
Qed.

Lemma writes_copy (W : Store.ref -> Prop) (df : Store.ref) : Store.writes_only W (Store.copy df) W.
Proof.
  eapply writes_bind; [apply writes_pandas|]. intros _ _.
  eapply writes_bind; [apply writes_frame_at|]. intros t _.
  apply writes_alloc.
Qed.

Lemma writes_assign (W : Store.ref -> Prop) {A} (cols : Store.table -> option A)
    (f : A -> Store.table) (df : Store.ref) :
  W df -> Store.writes_only W (Store.assign cols f df) (fun _ => True).
Proof.
  intros Hdf.
  eapply writes_bind; [apply writes_pandas|]. intros _ _.
  eapply writes_bind; [apply writes_view|]. intros rows _.
  eapply writes_bind; [apply writes_pandas|]. intros _ _.
  now apply writes_store.
Qed.

(** What an assignment that ends normally has done. *)
Lemma assign_Done {A} (cols : Store.table -> option A) (f : A -> Store.table) (df : Store.ref)
    (s s' : Store.state) (u : unit) :
  Store.assign cols f df s = (Store.Done u, s') ->
  exists t rows,
    Store.heap s !! df = Some (Store.Frame t) /\ cols t = Some rows /\
    Store.heap s' = <[df := Store.Frame (f rows)]> (Store.heap s).
Proof.
  unfold Store.assign, Store.view, Store.frame_at, Store.pandas, Store.load, Store.store, Store.raise, mbind, Store.M_bind,
    mret, Store.M_ret.
  destruct s as [h [[|[|n]]|] fs]; cbn [Store.heap Store.failing Store.files];
    try discriminate;
    (destruct (h !! df) as [[t|d]|] eqn:Hdf; try discriminate;
     destruct (cols t) as [rows|] eqn:Hc; try discriminate;
     intros H; inversion H; subst; now exists t, rows).
Qed.

(** An assignment never changes anything but the object it is made on. *)
Lemma assign_heap {A} (cols : Store.table -> option A) (f : A -> Store.table) (df : Store.ref)
    (s : Store.state) :
  Store.heap (snd (Store.assign cols f df s)) = Store.heap s \/
  exists t rows,
    Store.heap s !! df = Some (Store.Frame t) /\ cols t = Some rows /\
    Store.heap (snd (Store.assign cols f df s)) = <[df := Store.Frame (f rows)]> (Store.heap s).
Proof.
  unfold Store.assign, Store.view, Store.frame_at, Store.pandas, Store.load, Store.store, Store.raise, mbind, Store.M_bind,
    mret, Store.M_ret.
  destruct s as [h [[|[|n]]|] fs]; cbn [Store.heap Store.failing Store.files snd]; auto;
    (destruct (h !! df) as [[t|d]|] eqn:Hdf; cbn [snd Store.heap]; auto;
     destruct (cols t) as [rows|] eqn:Hc; cbn [snd Store.heap]; auto;
     right; now exists t, rows).
Qed.

(** An assignment of the content the column has already: nothing changes,
    whichever object it is made on. *)
Lemma writes_assign_same (W : Store.ref -> Prop) {A} (cols : Store.table -> option A)
    (f : A -> Store.table) (df : Store.ref) :
  (forall t rows, cols t = Some rows -> f rows = t) ->
  Store.writes_only W (Store.assign cols f df) (fun _ => True).
Proof.
  intros Hsame s _.
  assert (Heq : Store.heap (snd (Store.assign cols f df s)) = Store.heap s).
  { destruct (assign_heap cols f df s) as [H|(t & rows & Hdf & Hc & H)];
      [exact H|].
    rewrite H, (Hsame t rows Hc). now apply list_insert_id. }
  rewrite Heq. split; [lia|]. split; [auto|].
  destruct (fst (Store.assign cols f df s)); exact I.
Qed.

Lemma writes_to_csv (W : Store.ref -> Prop) (df : Store.ref) (name : string) :
  Store.writes_only W (Store.to_csv df name) (fun _ => True).
Proof.
  eapply writes_bind; [apply writes_pandas|]. intros _ _.
  eapply writes_bind; [apply writes_frame_at|]. intros t _.
  intros s _. cbn. auto.
Qed.

Lemma writes_for_each (W : Store.ref -> Prop) {A B} (body : A -> B -> Store.M A)
    (Q : A -> Prop) (xs : list B) (a : A) :
  (forall a x, Q a -> Store.writes_only W (body a x) Q) ->
  Q a -> Store.writes_only W (Store.for_each body xs a) Q.
Proof.
  intros Hbody. revert a. induction xs as [|x xs IH]; intros a Ha; cbn [Store.for_each].
  - now apply writes_ret.
  - eapply writes_bind; [now apply Hbody|]. intros a' Ha'. now apply IH.
Qed.

Lemma writes_getitems (W : Store.ref -> Prop) (d : Store.ref) (keys : list string) :
  Store.writes_only W (Store.getitems d keys) (fun _ => True).
Proof.
  induction keys as [|key keys IH]; cbn [Store.getitems]; [now apply writes_ret|].
  eapply writes_bind; [apply writes_getitem|]. intros r _.
  eapply writes_bind; [apply IH|]. intros rs _. now apply writes_ret.
Qed.

Lemma writes_views (W : Store.ref -> Prop) {A} (cols : Store.table -> option A)
    (dfs : list Store.ref) :
  Store.writes_only W (Store.views cols dfs) (fun _ => True).
Proof.
  induction dfs as [|df dfs IH]; cbn [Store.views]; [now apply writes_ret|].
  eapply writes_bind; [apply writes_view|]. intros rows _.
  eapply writes_bind; [apply IH|]. intros rest _. now apply writes_ret.
Qed.

Lemma writes_concat (W : Store.ref -> Prop) (frames : list Store.ref) :
  Store.writes_only W (Store.concat frames) W.
Proof.
  eapply writes_bind; [apply writes_pandas|]. intros _ _.
  eapply writes_bind; [apply writes_views|]. intros tables _.
  apply writes_alloc.
Qed.

(** One statement of a program: a call that gives a new object, a lookup
    in a dictionary, or an assignment on an object that may be written. *)
Ltac statement :=
  eapply writes_bind;
  [ first [ apply writes_method | apply writes_method2 | apply writes_copy
          | apply writes_concat | apply writes_getitem | apply writes_getitems
          | apply writes_setitem | apply writes_to_csv
          | apply writes_assign; first [assumption | now right | now left] ]
  | cbn beta; intros ? ? ].

(** *** The programs *)

Lemma merge_all_data_writes (W : Store.ref -> Prop) (this : Store.self) :
  Store.writes_only W (Store.merge_all_data this) (fun _ => True).
Proof. unfold Store.merge_all_data. do 6 statement. apply writes_setitem. Qed.

Lemma filter_data_writes (sort : date_sort) (W : Store.ref -> Prop) (this : Store.self) :
  Store.writes_only W (Store.filter_data sort this) W.
Proof. unfold Store.filter_data. do 12 statement. apply writes_method. Qed.

Lemma preprocess_financial_data_writes (W : Store.ref -> Prop) (fm : fill_method)
    (fin_data : Store.ref) :
  Store.writes_only W (Store.preprocess_financial_data fm fin_data) W.
Proof.
  unfold Store.preprocess_financial_data. do 3 statement. now apply writes_ret.
Qed.

Lemma strategy_consistent_growth_writes (sort : date_sort) (W : Store.ref -> Prop)
    (gap_events fin_data : Store.ref) :
  Store.writes_only W (Store.strategy_consistent_growth sort gap_events fin_data) W.
Proof.
  unfold Store.strategy_consistent_growth. do 6 statement.
  eapply writes_bind.
  - apply writes_for_each with (Q := W); [|assumption].
    intros merged i Hmerged. do 4 statement. apply writes_method2.
  - cbn beta. intros merged Hmerged. statement. apply writes_copy.
Qed.

Lemma Trddt_to_datetime_id (rows : list Trd.t) : map Store.Trddt_to_datetime rows = rows.
Proof. rewrite <- (map_id rows) at 2. apply map_ext. now intros []. Qed.

Lemma date_to_datetime_id (rows : list Idx.t) : map Store.date_to_datetime rows = rows.
Proof. rewrite <- (map_id rows) at 2. apply map_ext. now intros []. Qed.

Lemma assign_Trddt_writes (W : Store.ref -> Prop) (price_data : Store.ref) :
  Store.writes_only W
    (Store.assign Store.as_Trading (fun rows => Store.Trading (map Store.Trddt_to_datetime rows)) price_data)
    (fun _ => True).
Proof.
  apply writes_assign_same. intros t rows' Hc.
  destruct t; try discriminate Hc. injection Hc as <-.
  now rewrite Trddt_to_datetime_id.
Qed.

Lemma assign_date_writes (W : Store.ref -> Prop) (benchmark : Store.ref) :
  Store.writes_only W
    (Store.assign Store.as_Index (fun rows => Store.Index (map Store.date_to_datetime rows)) benchmark)
    (fun _ => True).
Proof.
  apply writes_assign_same. intros t rows' Hc.
  destruct t; try discriminate Hc. injection Hc as <-.
  now rewrite date_to_datetime_id.
Qed.

Lemma with_benchmark_writes (sort : date_sort) (ln : Q -> Q) (W : Store.ref -> Prop)
    (portfolio_return benchmark : Store.ref) :
  Store.writes_only W (Store.with_benchmark sort ln portfolio_return benchmark) W.
Proof.
  unfold Store.with_benchmark.
  eapply writes_bind; [apply assign_date_writes|]. intros _ _.
  do 9 statement. apply writes_method2.
Qed.

Lemma backtest_strategy_writes (sort : date_sort) (ln : Q -> Q) (W : Store.ref -> Prop)
    (selected_stocks price_data : Store.ref) (hold_period : Z) (benchmark : option Store.ref) :
  W selected_stocks ->
  Store.writes_only W
    (Store.backtest_strategy sort ln selected_stocks price_data hold_period benchmark) W.
Proof.
  intros Hsel. unfold Store.backtest_strategy.
  eapply writes_bind; [apply assign_Trddt_writes|]. intros _ _.
  do 13 statement.
  destruct benchmark as [benchmark|];
    [apply with_benchmark_writes | now apply writes_ret].
Qed.

(** The statements of [backtest_strategy] after the two assignments on
    [selected_stocks] write to new objects only. *)
Lemma backtest_strategy_Done (sort : date_sort) (ln : Q -> Q)
    (selected_stocks price_data : Store.ref) (hold_period : Z) (benchmark : option Store.ref)
    (s s' : Store.state) (portfolio_return : Store.ref) :
  Store.backtest_strategy sort ln selected_stocks price_data hold_period benchmark s
  = (Store.Done portfolio_return, s') ->
  exists rows,
    Store.heap s !! selected_stocks = Some (Store.Frame (Store.Joined rows)) /\
    Store.heap s' !! selected_stocks
    = Some (Store.Frame (Store.Positions (open_positions hold_period rows))).
Proof.
  unfold Store.backtest_strategy. intros H.
  apply bind_Done in H as (u1 & s1 & H1 & H).
  apply bind_Done in H as (u2 & s2 & H2 & H).
  apply bind_Done in H as (u3 & s3 & H3 & H).
  apply assign_Done in H1 as (t1 & rows1 & Hp & Hc1 & Hs1).
  apply assign_Done in H2 as (t2 & rows & Hsel & Hc2 & Hs2).
  apply assign_Done in H3 as (t3 & rows3 & Hsel3 & Hc3 & Hs3).
  destruct t1; try discriminate Hc1. injection Hc1 as ->.
  destruct t2; try discriminate Hc2. injection Hc2 as ->.
  rewrite Trddt_to_datetime_id, list_insert_id in Hs1 by exact Hp.
  rewrite Hs1 in Hsel.
  assert (Hlt : (selected_stocks < length (Store.heap s))%nat)
    by (now apply lookup_lt_Some in Hsel).
  rewrite Hs2, list_lookup_insert_eq in Hsel3 by (rewrite Hs1; exact Hlt).
  injection Hsel3 as <-. injection Hc3 as <-.
  exists rows. split; [exact Hsel|].
  assert (Hs3' : Store.heap s3 !! selected_stocks
                 = Some (Store.Frame (Store.Positions (open_positions hold_period rows)))).
  { rewrite Hs3, list_lookup_insert_eq
      by (rewrite Hs2, length_insert, Hs1; exact Hlt).
    unfold open_positions. now rewrite map_map. }
  match type of H with
  | ?m s3 = _ =>
      assert (Hw : Store.writes_only (fun r => (length (Store.heap s3) <= r)%nat) m
                               (fun r => (length (Store.heap s3) <= r)%nat))
  end.
  { do 11 statement.
    destruct benchmark as [benchmark|];
      [apply with_benchmark_writes | now apply writes_ret]. }
  destruct (Hw s3 (fun r Hr => Hr)) as (_ & Hkept & _).
  rewrite H in Hkept. apply Hkept; [|exact Hs3'].
  apply lookup_lt_Some in Hs3'. cbn beta. lia.
Qed.

Lemma getitem_state (d : Store.ref) (key : string) (s : Store.state) :
  Store.getitem d key s
  = (match Store.entry s d key with
     | Some r => Store.Done r
     | None =>
         match Store.heap s !! d with
         | Some (Store.Dict _) => Store.Raised (Store.KeyError key)
         | _ => Store.Raised Store.AttributeError
         end
     end, s).
Proof.
  unfold Store.getitem, Store.entry, Store.dict_at, Store.load, Store.raise, mbind, Store.M_bind, mret, Store.M_ret.
  destruct (Store.heap s !! d) as [[t|entries]|]; try reflexivity.
  now destruct (entries !! key).
Qed.

Lemma count_num_writes (this : Store.self) (s : Store.state) :
  (forall r t, Store.entry s (Store.processed_data this) "stk_data" <> Some r ->
               Store.heap s !! r = Some (Store.Frame t) ->
               Store.heap (snd (Store.count_num this s)) !! r = Some (Store.Frame t)) /\
  (forall u, fst (Store.count_num this s) = Store.Done u ->
     exists df rows,
       Store.entry s (Store.processed_data this) "stk_data" = Some df /\
       Store.heap s !! df = Some (Store.Frame (Store.Trading rows)) /\
       Store.heap (snd (Store.count_num this s)) !! df
       = Some (Store.Frame (Store.TradingQuarter
                        (map (fun r => (r, year_of (Trd.Trddt r),
                                        quarter_of (Trd.Trddt r))) rows)))).
Proof.
  unfold Store.count_num. rewrite bind_run, getitem_state.
  destruct (Store.entry s (Store.processed_data this) "stk_data") as [df|] eqn:Hentry.
  2:{ destruct (Store.heap s !! Store.processed_data this) as [[|]|];
        (split; [intros r t' _ Hr; exact Hr | intros u Hu; discriminate Hu]). }
  match goal with
  | |- context [fst (?m s)] =>
      assert (Hw : forall W : Store.ref -> Prop, W df -> Store.writes_only W m (fun _ => True))
  end.
  { intros W Hdf. do 5 statement.
    eapply writes_weaken; [apply writes_to_csv | auto]. }
  split.
  - intros r t Hr Hs.
    destruct (Hw (fun r => (length (Store.heap s) <= r)%nat \/ r = df)
                 (or_intror eq_refl) s (fun r Hr => or_introl Hr))
      as (_ & Hkept & _).
    apply Hkept; [|exact Hs]. apply lookup_lt_Some in Hs.
    intros [Hge| ->]; [lia | now apply Hr].
  - intros u Hu.
    match type of Hu with
    | fst ?x = _ => destruct x as [res s'] eqn:H
    end.
    cbn [fst snd] in *. subst res.
    apply bind_Done in H as (u1 & s1 & H1 & H).
    apply bind_Done in H as (u2 & s2 & H2 & H).
    apply assign_Done in H1 as (t1 & rows & Hdf & Hc1 & Hs1).
    apply assign_Done in H2 as (t2 & rows2 & Hdf2 & Hc2 & Hs2).
    destruct t1; try discriminate Hc1. injection Hc1 as ->.
    assert (Hlt : (df < length (Store.heap s))%nat) by (now apply lookup_lt_Some in Hdf).
    rewrite Hs1, list_lookup_insert_eq in Hdf2 by exact Hlt.
    injection Hdf2 as <-. injection Hc2 as <-.
    exists df, rows. split; [reflexivity|]. split; [exact Hdf|].
    assert (Hs2' : Store.heap s2 !! df
                   = Some (Store.Frame (Store.TradingQuarter
                                    (map (fun r => (r, year_of (Trd.Trddt r),
                                                    quarter_of (Trd.Trddt r)))
                                         rows)))).
    { rewrite Hs2, list_lookup_insert_eq by (rewrite Hs1, length_insert; exact Hlt).
      now rewrite map_map. }
    match type of H with
    | ?m s2 = _ =>
        assert (Hw2 : Store.writes_only (fun r => (length (Store.heap s2) <= r)%nat) m
                                  (fun _ => True))
    end.
    { do 3 statement. eapply writes_weaken; [apply writes_to_csv | auto]. }
    destruct (Hw2 s2 (fun r Hr => Hr)) as (_ & Hkept & _).
    rewrite H in Hkept. apply Hkept; [|exact Hs2'].
    apply lookup_lt_Some in Hs2'. cbn beta. lia.
Qed.

(** *** Runs in which no call raises *)

Lemma lookup_new (h l : list Store.object) (i : nat) :
  (h ++ l) !! (length h + i)%nat = l !! i.
Proof. induction h as [|o h IH]; [reflexivity | exact IH]. Qed.

Lemma insert_new (h l : list Store.object) (i : nat) (o : Store.object) :
  <[(length h + i)%nat := o]> (h ++ l) = h ++ <[i := o]> l.
Proof. apply insert_app_r. Qed.

Lemma method_run {A} (cols : Store.table -> option A) (f : A -> Store.table) (df : Store.ref)
    (h l : list Store.object) (fs : gmap string Store.table) (t : Store.table) (rows : A) :
  (h ++ l) !! df = Some (Store.Frame t) -> cols t = Some rows ->
  Store.method cols f df (Store.mkState (h ++ l) None fs)
  = (Store.Done (length h + length l)%nat,
     Store.mkState (h ++ (l ++ [Store.Frame (f rows)])) None fs).
Proof.
  intros Hdf Hc.
  unfold Store.method, Store.view, Store.frame_at, Store.pandas, Store.load, Store.alloc, Store.raise, mbind, Store.M_bind,
    mret, Store.M_ret.
  cbn [Store.heap Store.failing Store.files]. rewrite Hdf, Hc. cbn [Store.heap Store.failing Store.files].
  now rewrite length_app, app_assoc.
Qed.

Lemma method2_run {A B} (cols1 : Store.table -> option A) (cols2 : Store.table -> option B)
    (f : A -> B -> Store.table) (left right : Store.ref) (h l : list Store.object)
    (fs : gmap string Store.table) (t1 t2 : Store.table) (rows1 : A) (rows2 : B) :
  (h ++ l) !! left = Some (Store.Frame t1) -> cols1 t1 = Some rows1 ->
  (h ++ l) !! right = Some (Store.Frame t2) -> cols2 t2 = Some rows2 ->
  Store.method2 cols1 cols2 f left right (Store.mkState (h ++ l) None fs)
  = (Store.Done (length h + length l)%nat,
     Store.mkState (h ++ (l ++ [Store.Frame (f rows1 rows2)])) None fs).
Proof.
  intros Hl Hc1 Hr Hc2.
  unfold Store.method2, Store.view, Store.frame_at, Store.pandas, Store.load, Store.alloc, Store.raise, mbind, Store.M_bind,
    mret, Store.M_ret.
  cbn [Store.heap Store.failing Store.files]. rewrite Hl, Hc1. cbn [Store.heap Store.failing Store.files].
  rewrite Hr, Hc2. cbn [Store.heap Store.failing Store.files].
  now rewrite length_app, app_assoc.
Qed.

Lemma copy_run (df : Store.ref) (h l : list Store.object) (fs : gmap string Store.table)
    (t : Store.table) :
  (h ++ l) !! df = Some (Store.Frame t) ->
  Store.copy df (Store.mkState (h ++ l) None fs)
  = (Store.Done (length h + length l)%nat, Store.mkState (h ++ (l ++ [Store.Frame t])) None fs).
Proof.
  intros Hdf.
  unfold Store.copy, Store.frame_at, Store.pandas, Store.load, Store.alloc, Store.raise, mbind, Store.M_bind, mret, Store.M_ret.
  cbn [Store.heap Store.failing Store.files]. rewrite Hdf. cbn [Store.heap Store.failing Store.files].
  now rewrite length_app, app_assoc.
Qed.

Lemma assign_run {A} (cols : Store.table -> option A) (f : A -> Store.table) (i : nat)
    (h l : list Store.object) (fs : gmap string Store.table) (t : Store.table) (rows : A) :
  l !! i = Some (Store.Frame t) -> cols t = Some rows ->
  Store.assign cols f (length h + i)%nat (Store.mkState (h ++ l) None fs)
  = (Store.Done tt, Store.mkState (h ++ <[i := Store.Frame (f rows)]> l) None fs).
Proof.
  intros Hdf Hc.
  unfold Store.assign, Store.view, Store.frame_at, Store.pandas, Store.load, Store.store, Store.raise, mbind, Store.M_bind,
    mret, Store.M_ret.
  cbn [Store.heap Store.failing Store.files]. rewrite lookup_new, Hdf, Hc. cbn [Store.heap Store.failing Store.files].
  now rewrite insert_new.
Qed.

Lemma getitem_run (d : Store.ref) (key : string) (h l : list Store.object)
    (fs : gmap string Store.table) (entries : gmap string Store.ref) (r : Store.ref) :
  (h ++ l) !! d = Some (Store.Dict entries) -> entries !! key = Some r ->
  Store.getitem d key (Store.mkState (h ++ l) None fs) = (Store.Done r, Store.mkState (h ++ l) None fs).
Proof.
  intros Hd Hk. rewrite getitem_state. unfold Store.entry. cbn [Store.heap].
  now rewrite Hd, Hk.
Qed.

(** The next statement of a run, on a store [h ++ l] whose new objects
    [l] are listed. *)
Ltac heap_lookup :=
  first [ rewrite lookup_new; reflexivity
        | apply lookup_app_l_Some; eassumption ].

Ltac run_statement :=
  rewrite bind_run;
  first
    [ erewrite method_run; [|heap_lookup|reflexivity]
    | erewrite method2_run; [|heap_lookup|reflexivity|heap_lookup|reflexivity]
    | erewrite copy_run; [|heap_lookup]
    | erewrite assign_run; [|reflexivity|reflexivity]
    | erewrite getitem_run; [|heap_lookup|eassumption] ];
  cbv beta iota; cbn [length app insert list_insert].

Lemma gap_events_of_rows (rows : list (Rept.t * option TrdPrev.t)) :
  flat_map Store.gap_event
    (map (fun m => (m, gap_pct_of (merged_Loprc m) (merged_prev_Hiprc m))) rows)
  = flat_map gap_row rows.
Proof.
  induction rows as [|m rows IH]; [reflexivity|].
  cbn [map flat_map]. now rewrite IH.
Qed.

(** [filter_data] on merged tables, no call raising: it returns a new
    object that holds the table of gap events. *)
Lemma filter_data_run (sort : date_sort) (this : Store.self) (h : list Store.object)
    (fs : gmap string Store.table) (entries : gmap string Store.ref) (stk_data pft_data : Store.ref)
    (stk : list Trd.t) (pft : list Rept.t) :
  h !! Store.processed_data this = Some (Store.Dict entries) ->
  entries !! "stk_data" = Some stk_data ->
  entries !! "pft_data" = Some pft_data ->
  h !! stk_data = Some (Store.Frame (Store.Trading stk)) ->
  h !! pft_data = Some (Store.Frame (Store.Disclosures pft)) ->
  exists l,
    Store.filter_data sort this (Store.mkState h None fs)
    = (Store.Done (length h + 8)%nat, Store.mkState (h ++ l) None fs) /\
    l !! 8%nat = Some (Store.Frame (Store.GapEvents (filter_data_with sort stk pft))).
Proof.
  intros Hd Hstk Hpft Hs Hp. unfold Store.filter_data.
  replace (Store.mkState h None fs) with (Store.mkState (h ++ []) None fs)
    by (now rewrite app_nil_r).
  do 12 run_statement.
  erewrite method_run; [|heap_lookup|reflexivity].
  cbn [length app]. eexists. split; [reflexivity|].
  cbn [lookup list_lookup]. rewrite gap_events_of_rows. reflexivity.
Qed.

Lemma combine_assoc_map {A B C D} (f : A -> B -> C -> D) (l1 : list A)
    (l2 : list B) (l3 : list C) :
  map (fun p => f (fst (fst p)) (snd (fst p)) (snd p)) (combine (combine l1 l2) l3)
  = map (fun p => f (fst p) (fst (snd p)) (snd (snd p)))
        (combine l1 (combine l2 l3)).
Proof.
  revert l2 l3. induction l1 as [|a l1 IH]; intros [|b l2] [|c l3];
    try reflexivity.
  cbn [combine map fst snd]. now rewrite IH.
Qed.

(** [preprocess_financial_data] on a disclosure table, no call raising: it
    returns a new object that holds the table with the growth columns. *)
Lemma preprocess_financial_data_run (fm : fill_method) (fin_data : Store.ref)
    (h : list Store.object) (fs : gmap string Store.table) (fin : list Rept.t) :
  h !! fin_data = Some (Store.Frame (Store.Disclosures fin)) ->
  Store.preprocess_financial_data fm fin_data (Store.mkState h None fs)
  = (Store.Done (length h + 0)%nat,
     Store.mkState (h ++ [Store.Frame (Store.GrowthData (preprocess_financial_data fm fin))]) None fs).
Proof.
  intros Hfin. unfold Store.preprocess_financial_data.
  replace (Store.mkState h None fs) with (Store.mkState (h ++ []) None fs)
    by (now rewrite app_nil_r).
  do 3 run_statement. unfold mret, Store.M_ret. do 4 f_equal.
  unfold preprocess_financial_data. cbv zeta.
  set (sorted := sort_values (by_code_date Rept.Stkcd Rept.Annodt) fin).
  rewrite combine_map_fst
    by (rewrite groupby_pct_change_length; unfold Profita_col;
        now rewrite length_map).
  do 2 f_equal. apply (combine_assoc_map Growth.mk).
Qed.

Lemma temp_of_shift (i : nat) (fin : list Growth.t) :
  map (fun g => Lag.mk (Growth.Stkcd g) (Growth.Annodt g) (Growth.profit_growth g))
      (map (Store.shift_Annodt (3 * Z.of_nat i)) fin)
  = temp i fin.
Proof. unfold temp. rewrite map_map. reflexivity. Qed.

(** The loop of [strategy_consistent_growth]. *)
Lemma strategy_loop_run (fin_data : Store.ref) (fin : list Growth.t)
    (fs : gmap string Store.table) (idx : list nat) :
  forall (h : list Store.object) (merged : Store.ref) (rows : list Sel.t),
    h !! fin_data = Some (Store.Frame (Store.GrowthData fin)) ->
    h !! merged = Some (Store.Frame (Store.Joined rows)) ->
    exists l merged',
      Store.for_each
        (fun merged i =>
           temp ← Store.copy fin_data;
           Store.assign Store.as_GrowthData
             (fun rows => Store.GrowthData (map (Store.shift_Annodt (3 * Z.of_nat i)) rows))
             temp;;
           temp ← Store.method Store.as_GrowthData
                    (fun rows =>
                       Store.GrowthLag
                         (map (fun g => Lag.mk (Growth.Stkcd g) (Growth.Annodt g)
                                               (Growth.profit_growth g))
                              rows))
                    temp;
           temp ← Store.method Store.as_GrowthLag (Store.GrowthAgo i) temp;
           Store.method2 Store.as_Joined Store.as_GrowthAgo
             (fun merged temp => Store.Joined (merge_left merged temp)) merged temp)
        idx merged (Store.mkState h None fs)
      = (Store.Done merged', Store.mkState (h ++ l) None fs) /\
      (h ++ l) !! merged'
      = Some (Store.Frame (Store.Joined (fold_left (fun merged i => merge_left merged (temp i fin))
                                       idx rows))).
Proof.
  induction idx as [|i idx IH]; intros h merged rows Hfin Hmerged.
  - exists [], merged. cbn [Store.for_each fold_left]. rewrite app_nil_r.
    split; [reflexivity | exact Hmerged].
  - cbn [Store.for_each fold_left].
    replace (Store.mkState h None fs) with (Store.mkState (h ++ []) None fs)
      by (now rewrite app_nil_r).
    rewrite bind_run. do 4 run_statement.
    erewrite method2_run; [|heap_lookup|reflexivity|heap_lookup|reflexivity].
    cbv beta iota. cbn [length app]. rewrite temp_of_shift.
    lazymatch goal with
    | |- context [Store.for_each _ _ _ (Store.mkState ?H None fs)] =>
        assert (Hf : H !! fin_data = Some (Store.Frame (Store.GrowthData fin)))
          by (apply lookup_app_l_Some; exact Hfin);
        eassert (Hm : H !! (length h + 3)%nat = Some _)
          by (rewrite lookup_new; reflexivity);
        destruct (IH H _ _ Hf Hm) as (l & merged' & Hrun & Hl)
    end.
    rewrite Hrun. eexists _, merged'. rewrite <- app_assoc in *.
    split; [reflexivity | exact Hl].
Qed.

(** [strategy_consistent_growth] on a table of gap events and a table of
    growth records, no call raising: it returns a new object that holds
    the selected rows. *)
Lemma strategy_consistent_growth_run (sort : date_sort) (gap_events fin_data : Store.ref)
    (h : list Store.object) (fs : gmap string Store.table) (events : list Gap.t)
    (fin : list Growth.t) :
  h !! gap_events = Some (Store.Frame (Store.GapEvents events)) ->
  h !! fin_data = Some (Store.Frame (Store.GrowthData fin)) ->
  exists l selected,
    Store.strategy_consistent_growth sort gap_events fin_data (Store.mkState h None fs)
    = (Store.Done selected, Store.mkState (h ++ l) None fs) /\
    (length h <= selected)%nat /\
    (h ++ l) !! selected
    = Some (Store.Frame (Store.Joined (strategy_consistent_growth_with sort events fin))).
Proof.
  intros Hev Hfin. unfold Store.strategy_consistent_growth.
  replace (Store.mkState h None fs) with (Store.mkState (h ++ []) None fs)
    by (now rewrite app_nil_r).
  do 6 run_statement. rewrite bind_run.
  lazymatch goal with
  | |- context [Store.for_each _ _ _ (Store.mkState ?H None fs)] =>
      assert (Hf : H !! fin_data = Some (Store.Frame (Store.GrowthData fin)))
        by (apply lookup_app_l_Some; exact Hfin);
      eassert (Hm : H !! (length h + 3)%nat = Some _)
        by (rewrite lookup_new; reflexivity);
      destruct (strategy_loop_run fin_data fin fs (seq 1 8) H _ _ Hf Hm)
        as (l & merged & Hrun & Hl)
  end.
  rewrite Hrun. cbv beta iota.
  set (h' := (h ++ _) ++ l) in *.
  replace (Store.mkState h' None fs) with (Store.mkState (h' ++ []) None fs)
    by (now rewrite app_nil_r).
  run_statement.
  erewrite copy_run; [|heap_lookup]. cbn [length app].
  subst h'. rewrite <- !app_assoc. eexists _, _. split; [reflexivity|].
  split; [rewrite !length_app; lia|].
  rewrite !app_assoc. rewrite lookup_new. reflexivity.
Qed.

Lemma assign_old_run {A} (cols : Store.table -> option A) (f : A -> Store.table) (df : Store.ref)
    (h : list Store.object) (fs : gmap string Store.table) (t : Store.table) (rows : A) :
  h !! df = Some (Store.Frame t) -> cols t = Some rows ->
  Store.assign cols f df (Store.mkState h None fs)
  = (Store.Done tt, Store.mkState (<[df := Store.Frame (f rows)]> h) None fs).
Proof.
  intros Hdf Hc.
  unfold Store.assign, Store.view, Store.frame_at, Store.pandas, Store.load, Store.store, Store.raise, mbind, Store.M_bind,
    mret, Store.M_ret.
  cbn [Store.heap Store.failing Store.files]. rewrite Hdf, Hc. reflexivity.
Qed.

(** [backtest_strategy] without a benchmark on a table of selected stocks
    and a price table, no call raising: it returns a new object that holds
    the portfolio table, and the object of the selected stocks has the two
    date columns. *)
Lemma backtest_strategy_run (sort : date_sort) (ln : Q -> Q)
    (selected_stocks price_data : Store.ref) (hold_period : Z) (h : list Store.object)
    (fs : gmap string Store.table) (selected : list Sel.t) (prices : list Trd.t) :
  h !! selected_stocks = Some (Store.Frame (Store.Joined selected)) ->
  h !! price_data = Some (Store.Frame (Store.Trading prices)) ->
  exists l,
    Store.backtest_strategy sort ln selected_stocks price_data hold_period None
      (Store.mkState h None fs)
    = (Store.Done (length h + 8)%nat,
       Store.mkState (<[selected_stocks :=
                    Store.Frame (Store.Positions (open_positions hold_period selected))]> h ++ l)
               None fs) /\
    l !! 8%nat
    = Some (Store.Frame (Store.Portfolio
                     (backtest_strategy_with sort selected prices hold_period))).
Proof.
  intros Hsel Hprice. unfold Store.backtest_strategy.
  assert (Hne : selected_stocks <> price_data)
    by (intros ->; rewrite Hsel in Hprice; discriminate Hprice).
  assert (Hlt : (selected_stocks < length h)%nat)
    by (now apply lookup_lt_Some in Hsel).
  rewrite bind_run. erewrite assign_old_run; [|exact Hprice|reflexivity].
  cbv beta iota. rewrite Trddt_to_datetime_id, list_insert_id by exact Hprice.
  rewrite bind_run. erewrite assign_old_run; [|exact Hsel|reflexivity].
  cbv beta iota.
  rewrite bind_run.
  erewrite assign_old_run;
    [|apply list_lookup_insert_eq; exact Hlt|reflexivity].
  cbv beta iota. rewrite list_insert_insert_eq, map_map.
  pose (h3 := <[selected_stocks :=
                   Store.Frame (Store.Positions (open_positions hold_period selected))]> h).
  lazymatch goal with
  | |- context [Store.mkState ?H None fs] => change H with h3
  end.
  fold h3.
  assert (Hsel3 : h3 !! selected_stocks
                  = Some (Store.Frame (Store.Positions (open_positions hold_period selected))))
    by (apply list_lookup_insert_eq; exact Hlt).
  assert (Hprice3 : h3 !! price_data = Some (Store.Frame (Store.Trading prices)))
    by (unfold h3; rewrite list_lookup_insert_ne by exact Hne; exact Hprice).
  assert (Hlen : length h3 = length h) by apply length_insert.
  replace (Store.mkState h3 None fs) with (Store.mkState (h3 ++ []) None fs)
    by (now rewrite app_nil_r).
  do 11 run_statement. unfold mret, Store.M_ret. rewrite Hlen.
  eexists. split; [reflexivity|].
  cbn [lookup list_lookup]. unfold backtest_strategy_with, portfolio_return.
  rewrite !map_map. reflexivity.
Qed.


Lemma assign_same_run {A} (cols : Store.table -> option A) (f : A -> Store.table) (df : Store.ref)
    (h l : list Store.object) (fs : gmap string Store.table) (t : Store.table) (rows : A) :
  (h ++ l) !! df = Some (Store.Frame t) -> cols t = Some rows -> f rows = t ->
  Store.assign cols f df (Store.mkState (h ++ l) None fs) = (Store.Done tt, Store.mkState (h ++ l) None fs).
Proof.
  intros Hdf Hc Hsame.
  rewrite (assign_old_run cols f df (h ++ l) fs t rows Hdf Hc), Hsame.
  now rewrite list_insert_id.
Qed.

(** [backtest_strategy] with a benchmark, no call raising: it returns. *)
Lemma backtest_strategy_benchmark_run (sort : date_sort) (ln : Q -> Q)
    (selected_stocks price_data benchmark : Store.ref) (hold_period : Z)
    (h : list Store.object) (fs : gmap string Store.table) (selected : list Sel.t)
    (prices : list Trd.t) (quotes : list Idx.t) :
  h !! selected_stocks = Some (Store.Frame (Store.Joined selected)) ->
  h !! price_data = Some (Store.Frame (Store.Trading prices)) ->
  h !! benchmark = Some (Store.Frame (Store.Index quotes)) ->
  exists l,
    Store.backtest_strategy sort ln selected_stocks price_data hold_period (Some benchmark)
      (Store.mkState h None fs)
    = (Store.Done (length h + 14)%nat,
       Store.mkState (<[selected_stocks :=
                    Store.Frame (Store.Positions (open_positions hold_period selected))]> h ++ l)
               None fs).
Proof.
  intros Hsel Hprice Hbench. unfold Store.backtest_strategy.
  assert (Hne : selected_stocks <> price_data)
    by (intros ->; rewrite Hsel in Hprice; discriminate Hprice).
  assert (Hne' : selected_stocks <> benchmark)
    by (intros ->; rewrite Hsel in Hbench; discriminate Hbench).
  assert (Hlt : (selected_stocks < length h)%nat)
    by (now apply lookup_lt_Some in Hsel).
  rewrite bind_run. erewrite assign_old_run; [|exact Hprice|reflexivity].
  cbv beta iota. rewrite Trddt_to_datetime_id, list_insert_id by exact Hprice.
  rewrite bind_run. erewrite assign_old_run; [|exact Hsel|reflexivity].
  cbv beta iota.
  rewrite bind_run.
  erewrite assign_old_run;
    [|apply list_lookup_insert_eq; exact Hlt|reflexivity].
  cbv beta iota. rewrite list_insert_insert_eq, map_map.
  pose (h3 := <[selected_stocks :=
                   Store.Frame (Store.Positions (open_positions hold_period selected))]> h).
  lazymatch goal with
  | |- context [Store.mkState ?H None fs] => change H with h3
  end.
  fold h3.
  assert (Hsel3 : h3 !! selected_stocks
                  = Some (Store.Frame (Store.Positions (open_positions hold_period selected))))
    by (apply list_lookup_insert_eq; exact Hlt).
  assert (Hprice3 : h3 !! price_data = Some (Store.Frame (Store.Trading prices)))
    by (unfold h3; rewrite list_lookup_insert_ne by exact Hne; exact Hprice).
  assert (Hbench3 : h3 !! benchmark = Some (Store.Frame (Store.Index quotes)))
    by (unfold h3; rewrite list_lookup_insert_ne by exact Hne'; exact Hbench).
  assert (Hlen : length h3 = length h) by apply length_insert.
  replace (Store.mkState h3 None fs) with (Store.mkState (h3 ++ []) None fs)
    by (now rewrite app_nil_r).
  do 11 run_statement. unfold Store.with_benchmark.
  rewrite bind_run.
  erewrite assign_same_run;
    [|apply lookup_app_l_Some; exact Hbench3|reflexivity
     |now rewrite date_to_datetime_id].
  cbv beta iota.
  do 9 run_statement.
  erewrite method2_run; [|heap_lookup|reflexivity|heap_lookup|reflexivity].
  cbn [length app]. rewrite Hlen. eexists. reflexivity.
Qed.

Lemma to_csv_run (df : Store.ref) (name : string) (h l : list Store.object)
    (fs : gmap string Store.table) (t : Store.table) :
  (h ++ l) !! df = Some (Store.Frame t) ->
  Store.to_csv df name (Store.mkState (h ++ l) None fs)
  = (Store.Done tt, Store.mkState (h ++ l) None (<[name := t]> fs)).
Proof.
  intros Hdf.
  unfold Store.to_csv, Store.write_file, Store.frame_at, Store.pandas, Store.load, Store.raise, mbind, Store.M_bind,
    mret, Store.M_ret.
  cbn [Store.heap Store.failing Store.files]. now rewrite Hdf.
Qed.

Lemma nunique_by_year_quarter_rows (rows : list Trd.t) :
  Store.nunique_by_year_quarter
    (map (fun r => (r, year_of (Trd.Trddt r), quarter_of (Trd.Trddt r))) rows)
  = nunique_by_quarter rows.
Proof.
  unfold Store.nunique_by_year_quarter, nunique_by_quarter. rewrite map_map.
  apply map_ext. intros k. f_equal. f_equal.
  rewrite filter_map_swap', map_map. reflexivity.
Qed.

(** [count_num] on a merged trading table, no call raising: the object
    stored under "stk_data" has the columns year and quarter, and the
    counts are written out. *)
Lemma count_num_run (this : Store.self) (h : list Store.object) (fs : gmap string Store.table)
    (entries : gmap string Store.ref) (df : Store.ref) (rows : list Trd.t) :
  h !! Store.processed_data this = Some (Store.Dict entries) ->
  entries !! "stk_data" = Some df ->
  h !! df = Some (Store.Frame (Store.Trading rows)) ->
  exists l,
    Store.count_num this (Store.mkState h None fs)
    = (Store.Done tt,
       Store.mkState
         (<[df := Store.Frame (Store.TradingQuarter
                           (map (fun r => (r, year_of (Trd.Trddt r),
                                           quarter_of (Trd.Trddt r))) rows))]> h
          ++ l)
         None
         (<["company_count_by_quarter.csv" := Store.CompanyCounts (count_num_table rows)]>
            fs)).
Proof.
  intros Hd Hk Hdf. unfold Store.count_num.
  assert (Hlt : (df < length h)%nat) by (now apply lookup_lt_Some in Hdf).
  rewrite bind_run, getitem_state. unfold Store.entry. cbn [Store.heap]. rewrite Hd, Hk.
  cbv beta iota.
  rewrite bind_run. erewrite assign_old_run; [|exact Hdf|reflexivity].
  cbv beta iota.
  rewrite bind_run.
  erewrite assign_old_run; [|apply list_lookup_insert_eq; exact Hlt|reflexivity].
  cbv beta iota. rewrite list_insert_insert_eq, map_map. cbn [fst snd].
  pose (h2 := <[df := Store.Frame (Store.TradingQuarter
                               (map (fun r => (r, year_of (Trd.Trddt r),
                                               quarter_of (Trd.Trddt r))) rows))]> h).
  lazymatch goal with
  | |- context [Store.mkState ?H None fs] => change H with h2
  end.
  fold h2.
  assert (Hdf2 : h2 !! df
                 = Some (Store.Frame (Store.TradingQuarter
                                  (map (fun r => (r, year_of (Trd.Trddt r),
                                                  quarter_of (Trd.Trddt r))) rows))))
    by (apply list_lookup_insert_eq; exact Hlt).
  replace (Store.mkState h2 None fs) with (Store.mkState (h2 ++ []) None fs)
    by (now rewrite app_nil_r).
  do 3 run_statement.
  erewrite to_csv_run; [|heap_lookup].
  eexists. rewrite nunique_by_year_quarter_rows. reflexivity.
Qed.

(* ===================================================================== *)
(** ** C9: which stages leave their input tables unchanged                *)
(* ===================================================================== *)

Lemma writes_frames_kept {A} (m : Store.M A) (Q : A -> Prop) (s : Store.state) :
  Store.writes_only (fun r => (length (Store.heap s) <= r)%nat) m Q ->
  Store.frames_kept s (snd (m s)).
Proof.
  intros Hw r t Hr. destruct (Hw s (fun r Hr => Hr)) as (_ & Hkept & _).
  apply Hkept; [|exact Hr]. apply lookup_lt_Some in Hr. lia.
Qed.

(** C9 (as stated, refuted). The backtest is run on the store of the
    sample, where the selected stocks are object 0: it returns, and object
    0 is no longer the table it was, it has the columns buy_date and
    sell_date. *)
Lemma backtest_adds_columns_to_its_input :
  let out := Store.backtest_strategy stable_sort (fun q => q) 0%nat 1%nat 90 None
               sample_store in
  fst out = Store.Done 11%nat /\
  Store.heap sample_store !! 0%nat = Some (Store.Frame (Store.Joined Samples.selected)) /\
  Store.heap (snd out) !! 0%nat
  = Some (Store.Frame (Store.Positions (open_positions 90 Samples.selected))) /\
  map Pos.buy_date (open_positions 90 Samples.selected)
  = [ymd 2020 7 2; ymd 2020 8 3] /\
  ~ Store.frames_kept sample_store (snd out).
Proof.
  cbv zeta.
  assert (H0 : Store.heap (snd (Store.backtest_strategy stable_sort (fun q => q) 0%nat 1%nat 90
                            None sample_store)) !! 0%nat
               = Some (Store.Frame (Store.Positions (open_positions 90 Samples.selected))))
    by (vm_compute; reflexivity).
  split; [vm_compute; reflexivity|]. split; [reflexivity|].
  split; [exact H0|]. split; [vm_compute; reflexivity|].
  intros Hkept. specialize (Hkept 0%nat (Store.Joined Samples.selected) eq_refl).
  rewrite H0 in Hkept. discriminate Hkept.
Qed.

(** C9 (amended). Whatever the store and whichever call raises, if any:
    the Merger, the Gap Detector, the Growth Feature Builder and the
    Strategy Selector leave every table of the store as it was; the
    Backtest Engine leaves every table as it was but the selected-stock
    table it is given, to which, when it returns, it has added the columns
    buy_date and sell_date without changing a row or another column;
    count_num leaves every table as it was but the one stored under
    "stk_data", to which, when it returns, it has added the columns year
    and quarter.  The last two do return when no call raises and the
    tables they are given have the columns of the pipeline. *)
Theorem stages_leave_inputs (sort : date_sort) (ln : Q -> Q) (s : Store.state) :
  (forall this, Store.frames_kept s (snd (Store.merge_all_data this s))) /\
  (forall this, Store.frames_kept s (snd (Store.filter_data sort this s))) /\
  (forall fm fin_data,
     Store.frames_kept s (snd (Store.preprocess_financial_data fm fin_data s))) /\
  (forall gap_events fin_data,
     Store.frames_kept s (snd (Store.strategy_consistent_growth sort gap_events fin_data s))) /\
  (forall selected_stocks price_data hold_period benchmark,
     let out := Store.backtest_strategy sort ln selected_stocks price_data hold_period
                  benchmark s in
     Store.frames_kept_but selected_stocks s (snd out) /\
     (forall portfolio_return,
        fst out = Store.Done portfolio_return ->
        exists rows,
          Store.heap s !! selected_stocks = Some (Store.Frame (Store.Joined rows)) /\
          Store.heap (snd out) !! selected_stocks
          = Some (Store.Frame (Store.Positions (open_positions hold_period rows))) /\
          map Pos.sel (open_positions hold_period rows) = rows) /\
     (forall rows prices,
        Store.failing s = None ->
        Store.heap s !! selected_stocks = Some (Store.Frame (Store.Joined rows)) ->
        Store.heap s !! price_data = Some (Store.Frame (Store.Trading prices)) ->
        (forall b, benchmark = Some b ->
                   exists quotes, Store.heap s !! b = Some (Store.Frame (Store.Index quotes))) ->
        exists portfolio_return, fst out = Store.Done portfolio_return)) /\
  (forall this,
     let out := Store.count_num this s in
     (forall r t, Store.entry s (Store.processed_data this) "stk_data" <> Some r ->
                  Store.heap s !! r = Some (Store.Frame t) ->
                  Store.heap (snd out) !! r = Some (Store.Frame t)) /\
     (forall u,
        fst out = Store.Done u ->
        exists df rows,
          Store.entry s (Store.processed_data this) "stk_data" = Some df /\
          Store.heap s !! df = Some (Store.Frame (Store.Trading rows)) /\
          Store.heap (snd out) !! df
          = Some (Store.Frame (Store.TradingQuarter
                           (map (fun r => (r, year_of (Trd.Trddt r),
                                           quarter_of (Trd.Trddt r))) rows)))) /\
     (forall df rows,
        Store.failing s = None ->
        Store.entry s (Store.processed_data this) "stk_data" = Some df ->
        Store.heap s !! df = Some (Store.Frame (Store.Trading rows)) ->
        fst out = Store.Done tt)).
Proof.
  split; [|split; [|split; [|split; [|split]]]].
  - intros this. eapply writes_frames_kept, merge_all_data_writes.
  - intros this. eapply writes_frames_kept, filter_data_writes.
  - intros fm fin_data.
    eapply writes_frames_kept, preprocess_financial_data_writes.
  - intros gap_events fin_data.
    eapply writes_frames_kept, strategy_consistent_growth_writes.
  - intros selected_stocks price_data hold_period benchmark. cbv zeta.
    split; [|split].
    + intros r t Hne Hr.
      destruct (backtest_strategy_writes sort ln
                  (fun r => (length (Store.heap s) <= r)%nat \/ r = selected_stocks)
                  selected_stocks price_data hold_period benchmark
                  (or_intror eq_refl) s (fun r Hr => or_introl Hr))
        as (_ & Hkept & _).
      apply Hkept; [|exact Hr]. apply lookup_lt_Some in Hr.
      intros [Hge|Heq]; [lia | now apply Hne].
    + intros portfolio_return Hout.
      destruct (Store.backtest_strategy sort ln selected_stocks price_data hold_period
                  benchmark s) as [res s'] eqn:Hrun.
      cbn [fst snd] in *. subst res.
      destruct (backtest_strategy_Done _ _ _ _ _ _ _ _ _ Hrun)
        as (rows & Hsel & Hsel').
      exists rows. split; [exact Hsel|]. split; [exact Hsel'|].
      unfold open_positions. rewrite map_map. apply map_id.
    + intros rows prices Hnone Hsel Hprice Hbench.
      destruct s as [h fl fs]. cbn [Store.heap Store.failing] in *. subst fl.
      destruct benchmark as [b|].
      * destruct (Hbench b eq_refl) as (quotes & Hb).
        destruct (backtest_strategy_benchmark_run sort ln selected_stocks
                    price_data b hold_period h fs rows prices quotes Hsel Hprice Hb)
          as (l & Hrun).
        rewrite Hrun. now eexists.
      * destruct (backtest_strategy_run sort ln selected_stocks price_data
                    hold_period h fs rows prices Hsel Hprice) as (l & Hrun & _).
        rewrite Hrun. now eexists.
  - intros this. cbv zeta.
    destruct (count_num_writes this s) as (Hkept & Hdone).
    split; [exact Hkept|]. split; [exact Hdone|].
    intros df rows Hnone Hentry Hdf.
    destruct s as [h fl fs]. cbn [Store.heap Store.failing] in *. subst fl.
    unfold Store.entry in Hentry. cbn [Store.heap] in Hentry.
    destruct (h !! Store.processed_data this) as [[t|entries]|] eqn:Hd;
      try discriminate Hentry.
    destruct (count_num_run this h fs entries df rows Hd Hentry Hdf)
      as (l & Hrun).
    now rewrite Hrun.
Qed.

(** [count_num] on the store of the sample: the merged trading table
    stored under "stk_data" is object 2, and it is changed. *)
Example count_num_adds_columns_to_stk_data :
  let out := Store.count_num sample_constructor sample_constructor_store in
  fst out = Store.Done tt /\
  Store.heap sample_constructor_store !! 2%nat = Some (Store.Frame (Store.Trading Samples.stk)) /\
  Store.heap (snd out) !! 2%nat
  = Some (Store.Frame (Store.TradingQuarter
                   (map (fun r => (r, 2020, 3)) Samples.stk))) /\
  Store.files (snd out) !! "company_count_by_quarter.csv"
  = Some (Store.CompanyCounts [Count.mk 2020 3 1]).
Proof. cbv zeta. repeat split; vm_compute; reflexivity. Qed.

(** [merge_all_data], then [filter_data], on the store of the sample: the
    six shards are concatenated into a new object, copied, and the copy
    stored; the gap event of the sample is found. *)
Example merge_all_data_then_filter_data :
  let merged := Store.merge_all_data sample_constructor sample_loaded_store in
  let out := Store.filter_data stable_sort sample_constructor (snd merged) in
  fst merged = Store.Done tt /\
  Store.entry (snd merged) 1%nat "stk_data" = Some 10%nat /\
  Store.heap (snd merged) !! 10%nat
  = Some (Store.Frame (Store.Trading (List.concat sample_shards))) /\
  fst out = Store.Done 20%nat /\
  Store.heap (snd out) !! 20%nat = Some (Store.Frame (Store.GapEvents [Samples.event])).
Proof. cbv zeta. repeat split; vm_compute; reflexivity. Qed.

(** The backtest with the benchmark quotes of the sample (object 2): it
    returns the portfolio table joined with the benchmark, whatever the
    logarithm. *)
Example backtest_with_benchmark_returns (ln : Q -> Q) :
  let out := Store.backtest_strategy stable_sort ln 0%nat 1%nat 90 (Some 2%nat)
               sample_store in
  fst out = Store.Done 17%nat /\
  Store.heap (snd out) !! 2%nat = Some (Store.Frame (Store.Index MoreSamples.index)) /\
  option_map
    (fun o => match o with
              | Store.Frame (Store.PortfolioBenchmark rows) => map (fun r => Port.buy_date (fst r)) rows
              | _ => []
              end)
    (Store.heap (snd out) !! 17%nat)
  = Some [ymd 2020 7 2; ymd 2020 8 3].
Proof. cbv zeta. repeat split; vm_compute; reflexivity. Qed.

(* ===================================================================== *)
(** ** filter_data and count_num on the store                             *)
(* ===================================================================== *)

(** X13. On a constructor whose [processed_data] holds a merged trading
    table under "stk_data" and a disclosure table under "pft_data",
    [filter_data], when no pandas call raises, returns a new object that
    holds the gap table of the two, whatever order the single-column sorts
    give to rows of equal date, and changes no object; on a constructor
    without an entry "stk_data", [filter_data] and [count_num] raise
    KeyError 'stk_data' and change nothing. *)
Theorem filter_data_on_store (sort : date_sort) (this : Store.self) (h : list Store.object)
    (fs : gmap string Store.table) (entries : gmap string Store.ref) :
  h !! Store.processed_data this = Some (Store.Dict entries) ->
  (forall stk_data pft_data stk pft,
     entries !! "stk_data" = Some stk_data ->
     entries !! "pft_data" = Some pft_data ->
     h !! stk_data = Some (Store.Frame (Store.Trading stk)) ->
     h !! pft_data = Some (Store.Frame (Store.Disclosures pft)) ->
     exists l,
       Store.filter_data sort this (Store.mkState h None fs)
       = (Store.Done (length h + 8)%nat, Store.mkState (h ++ l) None fs) /\
       l !! 8%nat = Some (Store.Frame (Store.GapEvents (filter_data_with sort stk pft)))) /\
  (entries !! "stk_data" = None ->
   forall fl,
     Store.filter_data sort this (Store.mkState h fl fs)
     = (Store.Raised (Store.KeyError "stk_data"), Store.mkState h fl fs) /\
     Store.count_num this (Store.mkState h fl fs)
     = (Store.Raised (Store.KeyError "stk_data"), Store.mkState h fl fs)).
Proof.
  intros Hd. split.
  - intros stk_data pft_data stk pft Hstk Hpft Hs Hp.
    exact (filter_data_run sort this h fs entries stk_data pft_data stk pft
             Hd Hstk Hpft Hs Hp).
  - intros Hnone fl. unfold Store.filter_data, Store.count_num.
    rewrite !bind_run, !getitem_state. unfold Store.entry. cbn [Store.heap].
    rewrite Hd, Hnone. split; reflexivity.
Qed.

Lemma filter_data_on_store_witness :
  exists l,
    Store.filter_data stable_sort sample_constructor sample_constructor_store
    = (Store.Done 12%nat, Store.mkState (Store.heap sample_constructor_store ++ l) None ∅) /\
    l !! 8%nat = Some (Store.Frame (Store.GapEvents (filter_data Samples.stk Samples.pft))).
Proof.
  destruct (filter_data_on_store stable_sort sample_constructor
              (Store.heap sample_constructor_store) ∅
              (<["stk_data" := 2%nat]> (<["pft_data" := 3%nat]> ∅)) eq_refl)
    as [Hrun _].
  exact (Hrun 2%nat 3%nat Samples.stk Samples.pft eq_refl eq_refl eq_refl eq_refl).
Defined.

(* ===================================================================== *)
(** ** filter_data: order and edge cases                                  *)
(* ===================================================================== *)

Lemma gap_row_Annodt (m : Rept.t * option TrdPrev.t) (e : Gap.t) :
  In e (gap_row m) -> Gap.Annodt e = Rept.Annodt (fst m).
Proof.
  unfold gap_row. destruct (snd m) as [s|]; [|intros []].
  intros [<-|[]]. reflexivity.
Qed.

(** X1. The table returned by the Gap Event Detector is in announcement
    order: its rows come with non-decreasing announce dates. *)
Theorem filter_data_in_announcement_order (stk : list Trd.t) (pft : list Rept.t) :
  StronglySorted (fun a b => Gap.Annodt a <= Gap.Annodt b) (filter_data stk pft).
Proof.
  unfold filter_data, filter_data_merged, merge_asof_forward.
  set (right := sort_values (by_date TrdPrev_Trddt) (lagged_stk_data stk)).
  pose proof (sorted_by_date Rept.Annodt (dropna pft)) as Hs.
  induction Hs as [|d l Hs IH Hd]; [constructor|].
  cbn [map List.filter].
  destruct (fgt _ _); [|exact IH].
  cbn [flat_map]. unfold gap_row at 1. cbn [snd fst].
  destruct (asof_forward _ _ _ _ right d) as [s|]; [|exact IH].
  cbn [app]. constructor; [exact IH|].
  apply List.Forall_forall. intros e He. cbn [Gap.Annodt].
  apply in_flat_map in He. destruct He as (m & Hm & He).
  apply gap_row_Annodt in He. rewrite He.
  apply filter_In in Hm. destruct Hm as [Hm _].
  apply in_map_iff in Hm. destruct Hm as (d' & <- & Hd').
  rewrite List.Forall_forall in Hd. now apply Hd.
Qed.

Lemma dropna_app {A} `{Row A} (l1 l2 : list A) :
  dropna (l1 ++ l2) = dropna l1 ++ dropna l2.
Proof. unfold dropna. apply List.filter_app. Qed.

Lemma dropna_incomplete {A} `{Row A} (l1 l2 : list A) (r : A) :
  has_na r = true -> dropna (l1 ++ r :: l2) = dropna (l1 ++ l2).
Proof.
  intros Hr. rewrite !dropna_app. f_equal.
  unfold dropna. cbn [List.filter]. now rewrite Hr.
Qed.

Lemma filter_data_dropna (stk stk' : list Trd.t) (pft pft' : list Rept.t) :
  dropna stk = dropna stk' -> dropna pft = dropna pft' ->
  filter_data stk pft = filter_data stk' pft'.
Proof.
  intros Hs Hp.
  unfold filter_data, filter_data_merged, lagged_stk_data, sorted_stk_data.
  now rewrite Hs, Hp.
Qed.

(** X2. A row with a missing field has no effect on the Gap Event
    Detector: putting a trading row with a missing price, or a disclosure
    with a missing type or profit, anywhere into its table leaves the
    output unchanged. *)
Theorem filter_data_ignores_incomplete_rows (stk1 stk2 : list Trd.t)
    (pft1 pft2 : list Rept.t) (t : Trd.t) (d : Rept.t) :
  has_na t = true -> has_na d = true ->
  filter_data (stk1 ++ t :: stk2) (pft1 ++ pft2) = filter_data (stk1 ++ stk2) (pft1 ++ pft2) /\
  filter_data (stk1 ++ stk2) (pft1 ++ d :: pft2) = filter_data (stk1 ++ stk2) (pft1 ++ pft2).
Proof.
  intros Ht Hd. split; apply filter_data_dropna;
    try reflexivity; now apply dropna_incomplete.
Qed.

Lemma filter_data_ignores_incomplete_rows_witness :
  filter_data (Samples.stk ++ [Trd.mk "000001" (ymd 2020 7 2) NaN (int 20) (int 20)])
              ([] ++ Samples.pft)
  = filter_data (Samples.stk ++ []) ([] ++ Samples.pft).
Proof.
  exact (proj1 (filter_data_ignores_incomplete_rows Samples.stk [] [] Samples.pft
                  (Trd.mk "000001" (ymd 2020 7 2) NaN (int 20) (int 20))
                  (Rept.mk "000001" None (ymd 2020 6 30) (ymd 2020 7 2) (int 150))
                  eq_refl eq_refl)).
Defined.

(* ===================================================================== *)
(** ** preprocess_financial_data: rows and groups                         *)
(* ===================================================================== *)

(** X4. The Growth Feature Builder returns every disclosure it is given
    exactly once, whatever its fields hold, and in (instrument,
    announce_date) order. *)
Theorem preprocess_keeps_every_disclosure (fm : fill_method) (fin : list Rept.t) :
  Permutation (map Growth.rept (preprocess_financial_data fm fin)) fin /\
  length (preprocess_financial_data fm fin) = length fin /\
  StronglySorted
    (fun a b => by_code_date Growth.Stkcd Growth.Annodt a b = true)
    (preprocess_financial_data fm fin).
Proof.
  pose proof (preprocess_rows fm fin) as Hrows.
  split; [rewrite Hrows; apply sort_values_perm|].
  split.
  - rewrite <- (length_map Growth.rept), Hrows. apply sort_values_length.
  - pose proof (sort_values_sorted (by_code_date Rept.Stkcd Rept.Annodt) fin
                  (by_code_date_total _ _) (by_code_date_trans _ _)) as Hs.
    rewrite <- Hrows in Hs. clear Hrows.
    induction (preprocess_financial_data fm fin) as [|g l IH]; [constructor|].
    cbn [map] in Hs. apply StronglySorted_inv in Hs. destruct Hs as [Hs Hg].
    constructor; [now apply IH|].
    rewrite List.Forall_forall in *. intros g' Hg'.
    apply (Hg (Growth.rept g')). now apply in_map.
Qed.

Lemma insert_sorted_head {A} (le : A -> A -> bool) (x : A) (l : list A) :
  Forall (fun y => le x y = true) l -> insert_sorted le x l = x :: l.
Proof.
  intros Hall. destruct Hall as [|y l Hy _]; [reflexivity|].
  cbn [insert_sorted]. now rewrite Hy.
Qed.

(** Sorting and selecting the rows that pass a test can be done in either
    order. *)
Lemma filter_insert_sorted {A} (le : A -> A -> bool) (P : A -> bool) (x : A)
    (l : list A) :
  le_trans le -> StronglySorted (fun a b => le a b = true) l ->
  List.filter P (insert_sorted le x l)
  = if P x then insert_sorted le x (List.filter P l) else List.filter P l.
Proof.
  intros Htr Hs. induction Hs as [|y l Hs IH Hy]; cbn [insert_sorted List.filter].
  - now destruct (P x).
  - destruct (le x y) eqn:E; cbn [List.filter].
    + destruct (P x) eqn:Px; [|reflexivity].
      destruct (P y) eqn:Py.
      * cbn [insert_sorted]. now rewrite E.
      * symmetry. apply insert_sorted_head.
        apply List.Forall_forall. intros z Hz. apply filter_In in Hz.
        destruct Hz as [Hz _]. rewrite List.Forall_forall in Hy.
        apply (Htr x y z E). now apply Hy.
    + rewrite IH. destruct (P y) eqn:Py; destruct (P x) eqn:Px; try reflexivity.
      cbn [insert_sorted]. now rewrite E.
Qed.

Lemma filter_sort_values {A} (le : A -> A -> bool) (P : A -> bool) (l : list A) :
  le_total le -> le_trans le ->
  List.filter P (sort_values le l) = sort_values le (List.filter P l).
Proof.
  intros Htot Htr. induction l as [|x l IH]; [reflexivity|].
  cbn [sort_values fold_right]. fold (sort_values le l).
  rewrite filter_insert_sorted by (try assumption; now apply sort_values_sorted).
  cbn [List.filter]. destruct (P x); [|exact IH].
  cbn [sort_values fold_right]. fold (sort_values le (List.filter P l)).
  now rewrite IH.
Qed.

Lemma series_idem {A} (code : A -> string) (k : string) (l : list A) :
  series code k (series code k l) = series code k l.
Proof.
  unfold series. induction l as [|x l IH]; [reflexivity|]. cbn [List.filter].
  destruct (String.eqb (code x) k) eqn:E; [|exact IH].
  cbn [List.filter]. rewrite E. now f_equal.
Qed.

Lemma series_all {A} (code : A -> string) (k : string) (l : list A) :
  Forall (fun r => code r = k) l -> series code k l = l.
Proof.
  intros Hall. unfold series. induction Hall as [|x l Hx _ IH]; [reflexivity|].
  cbn [List.filter]. rewrite Hx, String.eqb_refl. now f_equal.
Qed.

Lemma filter_fst_all {A B} (P : A -> bool) (l : list A) (xs : list B) :
  Forall (fun a => P a = true) l ->
  List.filter (fun q => P (fst q)) (combine l xs) = combine l xs.
Proof.
  intros Hall. revert xs. induction Hall as [|a l Ha _ IH]; intros [|x xs];
    try reflexivity.
  cbn [combine List.filter fst]. rewrite Ha. now rewrite IH.
Qed.

(** X5. The Growth Feature Builder works instrument by instrument: the
    rows it returns for an instrument are those it returns when given the
    disclosures of that instrument alone, so no growth value depends on
    another instrument's disclosures. *)
Theorem preprocess_per_instrument (fm : fill_method) (fin : list Rept.t) (k : string) :
  series Growth.Stkcd k (preprocess_financial_data fm fin)
  = preprocess_financial_data fm (series Rept.Stkcd k fin).
Proof.
  unfold preprocess_financial_data.
  set (le := by_code_date Rept.Stkcd Rept.Annodt).
  assert (Hsort : series Rept.Stkcd k (sort_values le fin)
                  = sort_values le (series Rept.Stkcd k fin)).
  { unfold series. apply filter_sort_values;
      [apply by_code_date_total | apply by_code_date_trans]. }
  set (S := sort_values le fin) in *.
  set (Sk := sort_values le (series Rept.Stkcd k fin)) in *.
  assert (Hk : Forall (fun r => Rept.Stkcd r = k) Sk).
  { apply List.Forall_forall. intros r Hr. unfold Sk in Hr.
    apply sort_values_In in Hr. now apply series_In in Hr. }
  assert (Hcol : forall n,
             map snd (List.filter (fun p => String.eqb (Rept.Stkcd (fst p)) k)
                        (combine S (groupby_pct_change fm n (Profita_col S))))
             = groupby_pct_change fm n (Profita_col Sk)).
  { intros n. unfold Profita_col.
    rewrite (groupby_pct_change_group Rept.Stkcd Rept.Profita fm n k S), Hsort.
    pose proof (groupby_pct_change_group Rept.Stkcd Rept.Profita fm n k Sk) as HR.
    rewrite (series_all Rept.Stkcd k Sk Hk) in HR. rewrite <- HR.
    rewrite (filter_fst_all (fun a => String.eqb (Rept.Stkcd a) k)).
    - apply combine_map_snd.
      now rewrite groupby_pct_change_length, length_map.
    - eapply List.Forall_impl; [|exact Hk]. cbn. intros r ->. apply String.eqb_refl. }
  unfold series at 1. rewrite filter_map_swap'.
  change (fun a : Rept.t * (num * num) =>
            String.eqb (Growth.Stkcd (Growth.mk (fst a) (fst (snd a)) (snd (snd a)))) k)
    with (fun a : Rept.t * (num * num) => String.eqb (Rept.Stkcd (fst a)) k).
  rewrite (filter_combine3 (fun r => String.eqb (Rept.Stkcd r) k))
    by (rewrite groupby_pct_change_length; unfold Profita_col; now rewrite length_map).
  rewrite !Hcol. fold (series Rept.Stkcd k S). now rewrite Hsort.
Qed.

(* ===================================================================== *)
(** ** strategy_consistent_growth: events in, rows out                    *)
(* ===================================================================== *)

Lemma flat_map_length_ge {A B} (f : A -> list B) (l : list A) :
  (forall x, (1 <= length (f x))%nat) -> (length l <= length (flat_map f l))%nat.
Proof.
  intros Hf. induction l as [|x l IH]; [reflexivity|].
  cbn [flat_map length]. rewrite length_app. specialize (Hf x). lia.
Qed.

Lemma merge_left_length (tmp : list Lag.t) (merged : list Sel.t) :
  (length merged <= length (merge_left merged tmp))%nat.
Proof.
  unfold merge_left. apply flat_map_length_ge. intros m.
  destruct (List.filter (lag_matches m) tmp) as [|t ts]; cbn [map length]; lia.
Qed.

Lemma merge_loop_length (fin_data : list Growth.t) (idx : list nat)
    (merged : list Sel.t) :
  (length merged
   <= length (fold_left (fun merged i => merge_left merged (temp i fin_data))
                        idx merged))%nat.
Proof.
  revert merged. induction idx as [|i idx IH]; intros merged; cbn [fold_left];
    [reflexivity|].
  etransitivity; [apply (merge_left_length (temp i fin_data))|apply IH].
Qed.

(** X6. The joined table of the Strategy Selector holds every gap event
    at least once and no event that was not given: the as-of merge and the
    eight left joins never drop a row, they can only repeat one. *)
Theorem strategy_merged_keeps_events (gap_events : list Gap.t)
    (fin_data : list Growth.t) :
  (forall e, In e gap_events <->
             exists m, In m (strategy_merged gap_events fin_data) /\ Sel.event m = e) /\
  (length gap_events <= length (strategy_merged gap_events fin_data))%nat.
Proof.
  split.
  - intros e. split.
    + intros He.
      assert (Hin : In (e, asof_backward Gap.Stkcd Gap.Annodt Growth.Stkcd Growth.Annodt
                             (sort_values (by_date Growth.Annodt) (dropna fin_data)) e)
                       (strategy_asof gap_events fin_data))
        by (apply strategy_asof_In; split; [exact He | reflexivity]).
      unfold strategy_merged.
      destruct (merge_loop_keeps fin_data (seq 1 8)
                  (map (fun p => Sel.mk (fst p) (snd p) [])
                       (strategy_asof gap_events fin_data))
                  (Sel.mk e (asof_backward Gap.Stkcd Gap.Annodt Growth.Stkcd
                               Growth.Annodt
                               (sort_values (by_date Growth.Annodt) (dropna fin_data)) e)
                          []))
        as (m & Hm & Hev & _).
      * apply in_map_iff. eexists. split; [|exact Hin]. reflexivity.
      * exists m. split; [exact Hm | exact Hev].
    + intros (m & Hm & <-). apply strategy_merged_In in Hm. destruct Hm as [Hin _].
      apply strategy_asof_In in Hin. now destruct Hin.
  - unfold strategy_merged.
    etransitivity; [|apply merge_loop_length].
    rewrite length_map. unfold strategy_asof.
    now rewrite merge_asof_backward_length, sort_values_length.
Qed.

(** X7. Every row the Strategy Selector returns is a given gap event
    joined with a growth record that has no missing field, belongs to the
    same instrument, was announced at or before the event and has a
    multi-period growth above 50; an event whose instrument has no such
    record is never selected. *)
Theorem strategy_selected_rows (gap_events : list Gap.t) (fin_data : list Growth.t)
    (m : Sel.t) :
  In m (strategy_consistent_growth gap_events fin_data) ->
  In (Sel.event m) gap_events /\
  exists g, Sel.growth m = Some g /\
            In g fin_data /\ has_na g = false /\
            Growth.Stkcd g = Sel.Stkcd m /\
            Growth.Annodt g <= Sel.Annodt m /\
            fgt (Growth.profit_growth_2y g) (int 50) = true.
Proof.
  intros Hm. apply strategy_consistent_growth_In in Hm. destruct Hm as [Hm Hc].
  apply strategy_merged_In in Hm. destruct Hm as [Hin _].
  apply strategy_asof_In in Hin. destruct Hin as [He Ho].
  split; [exact He|].
  unfold Sel.profit_growth_2y in Hc. unfold Sel.Stkcd, Sel.Annodt.
  destruct (Sel.growth m) as [g|]; [|discriminate Hc].
  exists g. split; [reflexivity|]. symmetry in Ho.
  apply asof_backward_Some in Ho; [|apply sorted_by_date].
  destruct Ho as (Hg & Hk & Hd & _). apply sort_values_In in Hg.
  unfold dropna in Hg. apply filter_In in Hg. destruct Hg as [Hg Hna].
  apply negb_true_iff in Hna. auto.
Qed.

Lemma strategy_selected_rows_witness :
  exists g, Sel.growth Samples.selected_000001 = Some g /\
            fgt (Growth.profit_growth_2y g) (int 50) = true.
Proof.
  assert (Hin : In Samples.selected_000001
                   (strategy_consistent_growth [Samples.event; Samples.event2]
                      (preprocess_financial_data ffill Samples.fin_surge)))
    by (vm_compute; left; reflexivity).
  destruct (strategy_selected_rows [Samples.event; Samples.event2]
              (preprocess_financial_data ffill Samples.fin_surge)
              Samples.selected_000001 Hin)
    as (_ & g & Hg & _ & _ & _ & _ & Hc).
  exists g. exact (conj Hg Hc).
Defined.

(* ===================================================================== *)
(** ** backtest_strategy: dates, buy prices, means                        *)
(* ===================================================================== *)




Lemma NoDup_map_injective {A B} (f : A -> B) (l : list A) (a b : A) :
  List.NoDup (map f l) -> In a l -> In b l -> f a = f b -> a = b.
Proof.
  induction l as [|x l IH]; intros Hnd Ha Hb Hf; [destruct Ha|].
  cbn [map] in Hnd. apply List.NoDup_cons_iff in Hnd as [Hx Hnd].
  destruct Ha as [->|Ha], Hb as [->|Hb].
  - reflexivity.
  - exfalso. apply Hx. rewrite Hf. now apply in_map.
  - exfalso. apply Hx. rewrite <- Hf. now apply in_map.
  - now apply IH.
Qed.

(** An event row, whatever the order of equal dates: it is made of a
    complete session of the trading table. *)
Lemma filter_data_with_In (s : date_sort) (stk : list Trd.t) (pft : list Rept.t)
    (e : Gap.t) :
  sorts_by_date s ->
  In e (filter_data_with s stk pft) ->
  exists d t,
    In d (dropna pft) /\ In t (lagged_stk_data stk) /\
    Trd.Stkcd (TrdPrev.row t) = Rept.Stkcd d /\
    Rept.Annodt d <= Trd.Trddt (TrdPrev.row t) /\
    fgt (Trd.Loprc (TrdPrev.row t)) (TrdPrev.prev_Hiprc t) = true /\
    e = Gap.mk (Rept.Stkcd d) (Rept.Reptyp d) (Rept.Annodt d)
          (Trd.Trddt (TrdPrev.row t)) (Trd.Loprc (TrdPrev.row t))
          (TrdPrev.prev_Hiprc t)
          (gap_pct_of (Trd.Loprc (TrdPrev.row t)) (TrdPrev.prev_Hiprc t)).
Proof.
  intros Hs He. unfold filter_data_with in He. cbv zeta in He.
  apply in_flat_map in He as ([d o] & Hin & He).
  apply filter_In in Hin as [Hin Hc].
  unfold filter_data_merged_with, merge_asof_forward in Hin.
  apply in_map_iff in Hin as (d' & Heq & Hd). injection Heq as -> Ho.
  unfold gap_row in He. cbn [fst snd] in He.
  destruct o as [t|]; [|destruct He]. destruct He as [<-|[]].
  exists d, t. split; [eapply Permutation_in; [apply Hs | exact Hd]|].
  unfold asof_forward in Ho. apply find_some in Ho as [Ht Hp].
  apply andb_true_iff in Hp as [Hk Hdate].
  apply String.eqb_eq in Hk. apply Z.leb_le in Hdate.
  split; [eapply Permutation_in; [apply Hs | exact Ht]|].
  split; [exact Hk|]. split; [exact Hdate|]. split; [exact Hc | reflexivity].
Qed.

(** X9. When selected events of the Gap Event Detector's own output are
    backtested against the trading table the detector was run on, and that
    table has one row at most per instrument and date, every position
    finds a buy price: the backward match is the complete session of the
    instrument dated on the buy date, the session of the gap itself, so its
    close is present.  This holds whatever order the single-column sorts
    give to rows of equal date. *)
Theorem buy_price_on_gap_session (s : date_sort) (stk : list Trd.t)
    (pft : list Rept.t) (selected : list Sel.t) (hold : Z) (pr : Priced) :
  sorts_by_date s ->
  List.NoDup (map (fun r => (Trd.Stkcd r, Trd.Trddt r)) stk) ->
  (forall x, In x selected -> In (Sel.event x) (filter_data_with s stk pft)) ->
  In pr (priced_positions_with s (open_positions hold selected) stk) ->
  exists r, snd (fst pr) = Some r /\ In r (dropna stk) /\
            Trd.Stkcd r = Pos.Stkcd (position pr) /\
            Trd.Trddt r = Pos.buy_date (position pr) /\
            Trd.Loprc r = Gap.Loprc (Sel.event (Pos.sel (position pr))) /\
            buy_price pr = Trd.Clsprc r /\
            isna (buy_price pr) = false.
Proof.
  intros Hs Hnd Hsel Hpr.
  unfold priced_positions_with, merge_asof_forward, merge_asof_backward in Hpr.
  apply in_map_iff in Hpr as ([p b] & <- & Hin).
  apply date_sort_In in Hin; [|exact Hs].
  apply in_map_iff in Hin as (p' & Heq & Hp). injection Heq as -> Hb.
  apply date_sort_In in Hp; [|exact Hs].
  cbn [fst snd position]. unfold buy_price. cbn [fst snd].
  unfold open_positions in Hp. apply in_map_iff in Hp as (x & <- & Hx).
  destruct (filter_data_with_In s stk pft _ Hs (Hsel x Hx))
    as (d & t & _ & Ht & Hcode & _ & _ & He).
  pose proof (lagged_row_In _ _ Ht) as Hrow.
  assert (Hstk : In (TrdPrev.row t) stk)
    by (unfold dropna in Hrow; now apply filter_In in Hrow).
  set (p := Pos.mk x (to_datetime (Sel.Trddt x))
                   (Timedelta_days hold (to_datetime (Sel.Trddt x)))) in *.
  assert (Hkey : Trd.Stkcd (TrdPrev.row t) = Pos.Stkcd p)
    by (unfold p, Pos.Stkcd, Sel.Stkcd; cbn [Pos.sel]; rewrite He; exact Hcode).
  assert (Hdate : Trd.Trddt (TrdPrev.row t) = Pos.buy_date p)
    by (unfold p, to_datetime, Sel.Trddt; cbn [Pos.buy_date]; now rewrite He).
  assert (Hlow : Trd.Loprc (TrdPrev.row t) = Gap.Loprc (Sel.event (Pos.sel p)))
    by (unfold p; cbn [Pos.sel]; now rewrite He).
  destruct (Hs _ Trd.Trddt stk) as [Hperm Hsorted].
  assert (Hin : In (TrdPrev.row t) (s _ Trd.Trddt stk))
    by (eapply Permutation_in; [symmetry; exact Hperm | exact Hstk]).
  destruct b as [r|].
  - apply asof_backward_Some in Hb; [|exact Hsorted].
    destruct Hb as (Hr & Hrk & Hrd & Hmax).
    apply (Permutation_in _ Hperm) in Hr.
    specialize (Hmax _ Hin Hkey).
    assert (Heq : r = TrdPrev.row t).
    { apply (NoDup_map_injective (fun r => (Trd.Stkcd r, Trd.Trddt r)) stk);
        [exact Hnd | exact Hr | exact Hstk|].
      cbn beta. f_equal; [congruence | lia]. }
    subst r. exists (TrdPrev.row t). cbn [matched_Clsprc].
    split; [reflexivity|]. split; [exact Hrow|]. split; [exact Hkey|].
    split; [exact Hdate|]. split; [exact Hlow|]. split; [reflexivity|].
    unfold dropna in Hrow. apply filter_In in Hrow as [_ Hna].
    apply negb_true_iff in Hna. unfold has_na, Trd_Row in Hna.
    apply orb_false_iff in Hna as [_ Hna]. exact Hna.
  - pose proof (asof_backward_None _ _ _ _ _ _ Hb _ Hin Hkey). lia.
Qed.
Lemma buy_price_on_gap_session_witness :
  exists r, In r (dropna Samples.stk) /\ Trd.Trddt r = ymd 2020 7 2 /\
            isna (Trd.Clsprc r) = false.
Proof.
  destruct (buy_price_on_gap_session stable_sort Samples.stk Samples.pft
              [Samples.selected_000001] 90
              ((Pos.mk Samples.selected_000001 (ymd 2020 7 2) (ymd 2020 9 30),
                Some (Trd.mk "000001" (ymd 2020 7 2) (int 11) (dec 105 1) (dec 108 1))),
               None))
    as (r & Hr & Hin & _ & Hd & _ & Hp & Hna).
  - exact stable_sort_sorts.
  - vm_compute. repeat constructor; cbn [In]; intros H;
      repeat (destruct H as [H|H]; [discriminate H|]); exact H.
  - intros x [<-|[]]. vm_compute. left. reflexivity.
  - vm_compute. left. reflexivity.
  - exists r. split; [exact Hin|]. cbn [fst snd] in Hr. injection Hr as <-.
    split; reflexivity.
Defined.

(* ===================================================================== *)
(** ** BenchmarkDataConstructor: merge_all_data and the pipeline          *)
(* ===================================================================== *)

Lemma lookup_all_Returned (raw : gmap string (DataFrame Trd.t)) (keys : list string)
    (dfs : list (DataFrame Trd.t)) :
  BenchmarkDataConstructor.lookup_all raw keys = Returned dfs <->
  Forall2 (fun k df => raw !! k = Some df) keys dfs.
Proof.
  revert dfs. induction keys as [|k keys IH]; intros dfs;
    cbn [BenchmarkDataConstructor.lookup_all].
  - split; [intros [= <-]; constructor | intros H; inversion H; reflexivity].
  - destruct (raw !! k) as [df|] eqn:E.
    + destruct (BenchmarkDataConstructor.lookup_all raw keys) as [dfs'|k'].
      * split.
        -- intros [= <-]. constructor; [exact E | now apply IH].
        -- intros H. inversion H as [|? df0 ? dfs0 Hk Hrest]; subst.
           apply IH in Hrest. injection Hrest as <-. congruence.
      * split; [discriminate|].
        intros H. inversion H as [|? df0 ? dfs0 Hk Hrest]; subst.
        apply IH in Hrest. discriminate Hrest.
    + split; [discriminate|].
      intros H. inversion H; subst. congruence.
Qed.

Lemma lookup_all_KeyError (raw : gmap string (DataFrame Trd.t)) (keys : list string)
    (k : string) :
  BenchmarkDataConstructor.lookup_all raw keys = KeyError k ->
  In k keys /\ raw !! k = None.
Proof.
  induction keys as [|k0 keys IH]; cbn [BenchmarkDataConstructor.lookup_all];
    [discriminate|].
  destruct (raw !! k0) as [df|] eqn:E.
  - destruct (BenchmarkDataConstructor.lookup_all raw keys) as [dfs'|k'];
      [discriminate|].
    intros [= <-]. destruct (IH eq_refl) as [Hin Hk]. split; [now right | exact Hk].
  - intros [= <-]. split; [now left | exact E].
Qed.

(** X11. [merge_all_data] ends normally exactly when the six shards
    TRD_Dalyr0 to TRD_Dalyr5 and IAR_Rept are all in [raw_data]; then
    "stk_data" holds the rows of the six shards one after the other, in
    that order and with nothing removed, and "pft_data" the disclosures
    as loaded.  With a shard missing it raises the KeyError of a missing
    shard and stores nothing; with only IAR_Rept missing it raises after
    "stk_data" has been stored. *)
Theorem merge_all_data_outcomes (s : BenchmarkDataConstructor.self) :
  let res := BenchmarkDataConstructor.merge_all_data s in
  (fst res = Returned tt <->
   (forall k, In k BenchmarkDataConstructor.shards ->
              is_Some (BenchmarkDataConstructor.raw_stk s !! k)) /\
   is_Some (BenchmarkDataConstructor.raw_pft s !! "IAR_Rept")) /\
  (fst res = Returned tt ->
   exists frames rept,
     Forall2 (fun k df => BenchmarkDataConstructor.raw_stk s !! k = Some df)
             BenchmarkDataConstructor.shards frames /\
     BenchmarkDataConstructor.raw_pft s !! "IAR_Rept" = Some rept /\
     option_map rows (BenchmarkDataConstructor.stk_data (snd res))
     = Some (flat_map rows frames) /\
     BenchmarkDataConstructor.pft_data (snd res) = Some rept) /\
  (forall k, In k BenchmarkDataConstructor.shards ->
             BenchmarkDataConstructor.raw_stk s !! k = None ->
             (exists k', fst res = KeyError k' /\
                         In k' BenchmarkDataConstructor.shards /\
                         BenchmarkDataConstructor.raw_stk s !! k' = None) /\
             snd res = s) /\
  ((forall k, In k BenchmarkDataConstructor.shards ->
              is_Some (BenchmarkDataConstructor.raw_stk s !! k)) ->
   BenchmarkDataConstructor.raw_pft s !! "IAR_Rept" = None ->
   fst res = KeyError "IAR_Rept" /\
   is_Some (BenchmarkDataConstructor.stk_data (snd res)) /\
   BenchmarkDataConstructor.pft_data (snd res) = BenchmarkDataConstructor.pft_data s).
Proof.
  cbv zeta. unfold BenchmarkDataConstructor.merge_all_data.
  destruct (BenchmarkDataConstructor.lookup_all (BenchmarkDataConstructor.raw_stk s)
              BenchmarkDataConstructor.shards) as [frames|k0] eqn:E.
  - pose proof (proj1 (lookup_all_Returned _ _ _) E) as Hall.
    assert (Hsome : forall k, In k BenchmarkDataConstructor.shards ->
                      is_Some (BenchmarkDataConstructor.raw_stk s !! k)).
    { intros k Hk. clear E. induction Hall as [|k1 df ks dfs Hk1 _ IH];
        [destruct Hk|].
      destruct Hk as [<-|Hk]; [rewrite Hk1; eauto | now apply IH]. }
    cbn [BenchmarkDataConstructor.raw_pft BenchmarkDataConstructor.raw_stk
         BenchmarkDataConstructor.stk_data BenchmarkDataConstructor.pft_data].
    destruct (BenchmarkDataConstructor.raw_pft s !! "IAR_Rept") as [rept|] eqn:Er;
      cbn [fst snd BenchmarkDataConstructor.stk_data BenchmarkDataConstructor.pft_data].
    + split; [split; [intros _; split; [exact Hsome | eauto] | reflexivity]|].
      split; [intros _; exists frames, rept; repeat split; exact Hall|].
      split.
      * intros k Hk Hnone. destruct (Hsome k Hk) as [df Hdf]. congruence.
      * intros _ Habs. discriminate Habs.
    + split; [split; [discriminate | intros [_ [x Hx]]; discriminate Hx]|].
      split; [discriminate|].
      split.
      * intros k Hk Hnone. destruct (Hsome k Hk) as [df Hdf]. congruence.
      * intros _ _. split; [reflexivity|]. split; [eauto | reflexivity].
  - destruct (lookup_all_KeyError _ _ _ E) as [Hin Hnone]. cbn [fst snd].
    split; [split; [discriminate|]|].
    { intros [Hsome _]. destruct (Hsome k0 Hin) as [df Hdf]. congruence. }
    split; [discriminate|].
    split.
    + intros k Hk Hk'. split; [exists k0; auto | reflexivity].
    + intros Hsome _. destruct (Hsome k0 Hin) as [df Hdf]. congruence.
Qed.

Lemma merge_all_data_outcomes_witness :
  fst (BenchmarkDataConstructor.merge_all_data Samples.loaded) = Returned tt /\
  exists frames rept,
    Forall2 (fun k df =>
               BenchmarkDataConstructor.raw_stk Samples.loaded !! k = Some df)
            BenchmarkDataConstructor.shards frames /\
    BenchmarkDataConstructor.raw_pft Samples.loaded !! "IAR_Rept" = Some rept /\
    option_map rows
      (BenchmarkDataConstructor.stk_data
         (snd (BenchmarkDataConstructor.merge_all_data Samples.loaded)))
    = Some (flat_map rows frames) /\
    BenchmarkDataConstructor.pft_data
      (snd (BenchmarkDataConstructor.merge_all_data Samples.loaded)) = Some rept.
Proof.
  split; [vm_compute; reflexivity|].
  apply (proj1 (proj2 (merge_all_data_outcomes Samples.loaded))).
  vm_compute. reflexivity.
Defined.

(* ===================================================================== *)
(** ** filter_data and the order of the input rows                        *)
(* ===================================================================== *)

Lemma sorted_perm_eq {A} (R : A -> A -> Prop) (l l' : list A) :
  (forall a b, In a l -> In b l -> R a b -> R b a -> a = b) ->
  StronglySorted R l -> StronglySorted R l' -> Permutation l l' -> l = l'.
Proof.
  revert l'. induction l as [|x t IH]; intros l' Hanti Hs Hs' Hp.
  - apply Permutation_nil in Hp. now subst.
  - destruct l' as [|y t'];
      [apply Permutation_sym, Permutation_nil in Hp; discriminate|].
    apply StronglySorted_inv in Hs as [Hst Hx].
    apply StronglySorted_inv in Hs' as [Hst' Hy].
    assert (Hxy : x = y).
    { assert (Hx' : In x (y :: t'))
        by (eapply Permutation_in; [exact Hp | now left]).
      assert (Hy' : In y (x :: t))
        by (eapply Permutation_in; [symmetry; exact Hp | now left]).
      destruct Hx' as [->|Hx']; [reflexivity|].
      destruct Hy' as [->|Hy']; [reflexivity|].
      apply Hanti; [now left | now right | |].
      - exact (proj1 (List.Forall_forall _ _) Hx y Hy').
      - exact (proj1 (List.Forall_forall _ _) Hy x Hx'). }
    subst y. f_equal. apply IH; [| exact Hst | exact Hst' |].
    + intros a b Ha Hb. apply Hanti; now right.
    + eapply Permutation_cons_inv; exact Hp.
Qed.

Lemma Permutation_list_filter {A} (p : A -> bool) (l l' : list A) :
  Permutation l l' -> Permutation (List.filter p l) (List.filter p l').
Proof.
  induction 1 as [|x l l' _ IH|x y l|l l' l'' _ IH1 _ IH2]; cbn [List.filter].
  - constructor.
  - destruct (p x); [now constructor | exact IH].
  - destruct (p x), (p y); try reflexivity. constructor.
  - now transitivity (List.filter p l').
Qed.

Lemma sorted_stk_data_perm (stk stk' : list Trd.t) :
  Permutation stk stk' ->
  (forall a b, In a (dropna stk) -> In b (dropna stk) ->
               Trd.Stkcd a = Trd.Stkcd b -> Trd.Trddt a = Trd.Trddt b -> a = b) ->
  sorted_stk_data stk = sorted_stk_data stk'.
Proof.
  intros Hp Hinj. unfold sorted_stk_data.
  apply (sorted_perm_eq
           (fun a b => by_code_date Trd.Stkcd Trd.Trddt a b = true)).
  - intros a b Ha Hb Hab Hba.
    apply sort_values_In in Ha. apply sort_values_In in Hb.
    unfold by_code_date in Hab, Hba.
    apply orb_true_iff in Hab. apply orb_true_iff in Hba.
    destruct Hab as [Hab|Hab].
    + exfalso. destruct Hba as [Hba|Hba].
      * pose proof (ltb_trans _ _ _ Hab Hba) as Hc. rewrite ltb_irrefl in Hc.
        discriminate Hc.
      * apply andb_true_iff in Hba as [He _]. apply String.eqb_eq in He.
        rewrite He, ltb_irrefl in Hab. discriminate Hab.
    + apply andb_true_iff in Hab as [He Hd]. apply String.eqb_eq in He.
      apply Z.leb_le in Hd.
      destruct Hba as [Hba|Hba].
      * exfalso. rewrite He, ltb_irrefl in Hba. discriminate Hba.
      * apply andb_true_iff in Hba as [_ Hd']. apply Z.leb_le in Hd'.
        apply Hinj; [exact Ha | exact Hb | exact He | lia].
  - apply sort_values_sorted; [apply by_code_date_total | apply by_code_date_trans].
  - apply sort_values_sorted; [apply by_code_date_total | apply by_code_date_trans].
  - etransitivity; [apply sort_values_perm|].
    etransitivity; [|symmetry; apply sort_values_perm].
    unfold dropna. now apply Permutation_list_filter.
Qed.

(** X12. The order of the input rows.  When no instrument has two complete
    trading rows for one date, [filter_data] returns the same table for
    the trading rows in any order (so the order in which the shards are
    concatenated does not matter); and giving it the disclosures in
    another order changes at most the order of the rows it returns. *)
Theorem filter_data_row_order (stk stk' : list Trd.t) (pft pft' : list Rept.t) :
  List.NoDup (map (fun r => (Trd.Stkcd r, Trd.Trddt r)) (dropna stk)) ->
  Permutation stk stk' -> Permutation pft pft' ->
  filter_data stk pft = filter_data stk' pft /\
  Permutation (filter_data stk pft) (filter_data stk pft').
Proof.
  intros Hnd Hstk Hpft. split.
  - unfold filter_data, filter_data_merged, lagged_stk_data.
    rewrite (sorted_stk_data_perm stk stk' Hstk); [reflexivity|].
    intros a b Ha Hb Hc Hd.
    apply (NoDup_map_injective (fun r => (Trd.Stkcd r, Trd.Trddt r))
             (dropna stk) a b Hnd Ha Hb).
    cbn beta. now rewrite Hc, Hd.
  - unfold filter_data, filter_data_merged, merge_asof_forward.
    apply Permutation_flat_map, Permutation_list_filter, Permutation_map.
    etransitivity; [apply sort_values_perm|].
    etransitivity; [|symmetry; apply sort_values_perm].
    unfold dropna. now apply Permutation_list_filter.
Qed.

Lemma filter_data_row_order_witness :
  filter_data Samples.stk Samples.pft = filter_data (rev Samples.stk) Samples.pft /\
  Permutation (filter_data Samples.stk Samples.pft)
              (filter_data Samples.stk (rev Samples.pft)).
Proof.
  apply (filter_data_row_order Samples.stk (rev Samples.stk)
           Samples.pft (rev Samples.pft)).
  - vm_compute. repeat constructor; cbn [In]; intros H;
      repeat (destruct H as [H|H]; [discriminate H|]); exact H.
  - apply Permutation_rev.
  - apply Permutation_rev.
Defined.

(* ===================================================================== *)
(** ** count_num: the company count by quarter                            *)
(* ===================================================================== *)

Lemma month_of_range (z : date) : 1 <= month_of z <= 12.
Proof.
  unfold month_of, civil_from_days. cbn [fst snd].
  set (z' := z + 719468). set (era := z' / 146097).
  set (doe := z' - era * 146097).
  assert (Hdoe : 0 <= doe <= 146096)
    by (unfold doe, era; Z.div_mod_to_equations; lia).
  clearbody doe. clear z' era.
  set (yoe := (doe - doe / 1460 + doe / 36524 - doe / 146096) / 365).
  set (doy := doe - (365 * yoe + yoe / 4 - yoe / 100)).
  assert (Hdoy : 0 <= doy <= 365)
    by (unfold doy, yoe; Z.div_mod_to_equations; lia).
  clearbody doy.
  destruct ((5 * doy + 2) / 153 <? 10) eqn:E.
  - apply Z.ltb_lt in E. Z.div_mod_to_equations. lia.
  - apply Z.ltb_ge in E. Z.div_mod_to_equations. lia.
Qed.

Lemma quarter_of_range (z : date) : 1 <= quarter_of z <= 4.
Proof.
  unfold quarter_of. pose proof (month_of_range z) as H.
  Z.div_mod_to_equations. lia.
Qed.

Lemma pair_leb_total : le_total pair_leb.
Proof. intros [a1 a2] [b1 b2]. unfold pair_leb. cbn [fst snd]. lia. Qed.

Lemma pair_leb_trans : le_trans pair_leb.
Proof. intros [a1 a2] [b1 b2] [c1 c2]. unfold pair_leb. cbn [fst snd]. lia. Qed.

Lemma pair_eqb_eq (a b : Z * Z) : pair_eqb a b = true <-> a = b.
Proof.
  destruct a as [a1 a2], b as [b1 b2]. unfold pair_eqb. cbn [fst snd].
  rewrite andb_true_iff, !Z.eqb_eq. split; [intros [-> ->]; reflexivity|].
  intros [= -> ->]. split; reflexivity.
Qed.

Lemma sort_values_sorted_id {A} (le : A -> A -> bool) (l : list A) :
  StronglySorted (fun a b => le a b = true) l -> sort_values le l = l.
Proof.
  induction 1 as [|x l Hs IH Hx]; [reflexivity|].
  unfold sort_values in *. cbn [fold_right]. rewrite IH.
  destruct l as [|y l']; [reflexivity|]. cbn [insert_sorted].
  apply Forall_inv in Hx. now rewrite Hx.
Qed.

Lemma StronglySorted_map {A B} (f : A -> B) (R : B -> B -> Prop) (l : list A) :
  StronglySorted (fun a b => R (f a) (f b)) l -> StronglySorted R (map f l).
Proof.
  induction 1 as [|x l Hs IH Hx]; cbn [map]; constructor; [exact IH|].
  apply List.Forall_forall. intros b Hb. apply in_map_iff in Hb as (a & <- & Ha).
  exact (proj1 (List.Forall_forall _ _) Hx a Ha).
Qed.

Lemma quarter_keys_sorted (df : list Trd.t) :
  StronglySorted
    (fun a b => fst a < fst b \/ (fst a = fst b /\ snd a < snd b))
    (sort_values pair_leb (nodup pair_eq_dec (map year_quarter df))).
Proof.
  set (keys := nodup pair_eq_dec (map year_quarter df)).
  assert (Hnd : List.NoDup (sort_values pair_leb keys)).
  { eapply Permutation_NoDup; [symmetry; apply sort_values_perm|].
    apply NoDup_nodup. }
  pose proof (sort_values_sorted pair_leb keys pair_leb_total pair_leb_trans) as Hs.
  induction Hs as [|x l Hs IH Hx]; [constructor|].
  apply List.NoDup_cons_iff in Hnd. destruct Hnd as [Hnin Hnd].
  constructor; [now apply IH|].
  apply List.Forall_forall. intros y Hy.
  pose proof (proj1 (List.Forall_forall _ _) Hx y Hy) as Hxy.
  assert (Hne : x <> y) by (intros ->; contradiction).
  destruct x as [x1 x2], y as [y1 y2]. unfold pair_leb in Hxy. cbn [fst snd] in *.
  assert (x1 < y1 \/ (x1 = y1 /\ x2 <= y2)) as [H|[H1 H2]] by lia; [now left|].
  right. split; [exact H1|]. subst y1.
  assert (x2 <> y2) by (intros ->; now apply Hne). lia.
Qed.

(** X14. The table [count_num] writes has one row for every (year,
    quarter) in which the merged trading table has a row and no other; its
    rows are in strictly increasing order of (Year, Quarter), the final
    [sort_values] changing nothing in what [groupby] returned; every
    Quarter is 1, 2, 3 or 4; and every Company_Count is at least 1 and at
    most the number of distinct instruments of the whole table. *)
Theorem count_num_table_rows (df : list Trd.t) :
  count_num_table df = nunique_by_quarter df /\
  StronglySorted
    (fun a b => Count.Year a < Count.Year b \/
                (Count.Year a = Count.Year b /\ Count.Quarter a < Count.Quarter b))
    (count_num_table df) /\
  (forall y q,
     (exists c, In c (count_num_table df) /\ Count.Year c = y /\ Count.Quarter c = q)
     <-> (exists r, In r df /\ year_of (Trd.Trddt r) = y /\
                    quarter_of (Trd.Trddt r) = q)) /\
  (forall c, In c (count_num_table df) ->
     1 <= Count.Quarter c <= 4 /\
     (1 <= Count.Company_Count c <= nunique (map Trd.Stkcd df))%nat).
Proof.
  pose proof (quarter_keys_sorted df) as Hkeys.
  assert (Hsorted :
    StronglySorted
      (fun a b => Count.Year a < Count.Year b \/
                  (Count.Year a = Count.Year b /\ Count.Quarter a < Count.Quarter b))
      (nunique_by_quarter df)).
  { unfold nunique_by_quarter.
    set (row := fun k : Z * Z => Count.mk (fst k) (snd k) _).
    apply (StronglySorted_map row). exact Hkeys. }
  assert (Hid : count_num_table df = nunique_by_quarter df).
  { unfold count_num_table. apply sort_values_sorted_id.
    eapply StronglySorted_weaken; [|exact Hsorted].
    intros a b. unfold pair_leb. cbn [fst snd]. lia. }
  assert (Hrow : forall c, In c (nunique_by_quarter df) <->
            exists r, In r df /\
              c = Count.mk (year_of (Trd.Trddt r)) (quarter_of (Trd.Trddt r))
                    (nunique (map Trd.Stkcd
                       (List.filter
                          (fun r' => pair_eqb (year_quarter r') (year_quarter r)) df)))).
  { intros c. unfold nunique_by_quarter. rewrite in_map_iff. split.
    - intros (k & <- & Hk). apply sort_values_In, nodup_In, in_map_iff in Hk.
      destruct Hk as (r & <- & Hr). exists r. split; [exact Hr | reflexivity].
    - intros (r & Hr & ->). exists (year_quarter r). split; [reflexivity|].
      apply sort_values_In, nodup_In, in_map_iff. exists r. split; [reflexivity | exact Hr]. }
  rewrite Hid. split; [reflexivity|]. split; [exact Hsorted|]. split.
  - intros y q. split.
    + intros (c & Hc & <- & <-). apply Hrow in Hc as (r & Hr & ->).
      exists r. split; [exact Hr|]. split; reflexivity.
    + intros (r & Hr & <- & <-). eexists. split; [apply Hrow; exists r; split;
        [exact Hr | reflexivity]|]. split; reflexivity.
  - intros c Hc. apply Hrow in Hc as (r & Hr & ->). cbn [Count.Quarter Count.Company_Count].
    split; [apply quarter_of_range|]. unfold nunique. split.
    + assert (Hin : In (Trd.Stkcd r)
                (nodup String.string_dec
                   (map Trd.Stkcd
                      (List.filter
                         (fun r' => pair_eqb (year_quarter r') (year_quarter r)) df)))).
      { apply nodup_In, in_map_iff. exists r. split; [reflexivity|].
        apply filter_In. split; [exact Hr | now apply pair_eqb_eq]. }
      revert Hin. generalize (Trd.Stkcd r).
      destruct (nodup String.string_dec _) as [|s0 l0];
        [intros s [] | intros _ _; cbn [length]; lia].
    + apply NoDup_incl_length; [apply NoDup_nodup|].
      intros s Hs. apply nodup_In, in_map_iff in Hs as (r' & <- & Hr').
      apply filter_In in Hr' as [Hr' _]. apply nodup_In, in_map_iff.
      exists r'. split; [reflexivity | exact Hr'].
Qed.

Lemma count_num_table_rows_witness :
  exists c, In c (count_num_table Samples.stk) /\
            Count.Year c = 2020 /\ Count.Quarter c = 3.
Proof.
  apply (proj2 (proj1 (proj2 (proj2 (count_num_table_rows Samples.stk))) 2020 3)).
  exists (Trd.mk "000001" (ymd 2020 7 1) (int 10) (dec 95 1) (dec 98 1)).
  split; [left; reflexivity|]. split; vm_compute; reflexivity.
Defined.

(* ===================================================================== *)
(** ** From the growth table to the selection                             *)
(* ===================================================================== *)

Lemma preprocess_growth_2y_column (fm : fill_method) (fin : list Rept.t) (k : string) :
  map Growth.profit_growth_2y (series Growth.Stkcd k (preprocess_financial_data fm fin))
  = pct_change_group fm 4
      (map Rept.Profita
         (series Rept.Stkcd k (sort_values (by_code_date Rept.Stkcd Rept.Annodt) fin))).
Proof.
  unfold preprocess_financial_data.
  set (S := sort_values (by_code_date Rept.Stkcd Rept.Annodt) fin).
  unfold series at 1. rewrite filter_map_swap', map_map.
  cbn [Growth.profit_growth_2y].
  change (fun a : Rept.t * (num * num) =>
            String.eqb (Growth.Stkcd (Growth.mk (fst a) (fst (snd a)) (snd (snd a)))) k)
    with (fun a : Rept.t * (num * num) => String.eqb (Rept.Stkcd (fst a)) k).
  rewrite (filter_combine_third (fun r => String.eqb (Rept.Stkcd r) k))
    by (rewrite groupby_pct_change_length; unfold Profita_col; now rewrite length_map).
  apply (groupby_pct_change_group Rept.Stkcd Rept.Profita fm 4 k S).
Qed.

Lemma joined_growth_record (gap_events : list Gap.t) (fin_data : list Growth.t)
    (m : Sel.t) (g : Growth.t) :
  In m (strategy_merged gap_events fin_data) -> Sel.growth m = Some g ->
  In g fin_data /\ has_na g = false /\ Growth.Stkcd g = Sel.Stkcd m /\
  Growth.Annodt g <= Sel.Annodt m.
Proof.
  intros Hm Hgm. apply strategy_merged_In in Hm. destruct Hm as [Hin _].
  apply strategy_asof_In in Hin. destruct Hin as [_ Ho]. rewrite Hgm in Ho.
  symmetry in Ho. apply asof_backward_Some in Ho; [|apply sorted_by_date].
  destruct Ho as (Hg & Hk & Hd & _). apply sort_values_In in Hg.
  unfold dropna in Hg. apply filter_In in Hg. destruct Hg as [Hg Hna].
  apply negb_true_iff in Hna. unfold Sel.Stkcd, Sel.Annodt.
  split; [exact Hg|]. split; [exact Hna|]. split; [exact Hk | exact Hd].
Qed.

(** X15. Growth Feature Builder and Strategy Selector composed: the
    growth record joined to a selected event is at least the fifth
    disclosure of its instrument in announce order, since the first four
    have no multi-period growth.  So an instrument with four disclosures or
    fewer in the financial table is never selected, whatever its profits. *)
Theorem selection_needs_five_disclosures (fm : fill_method) (gap_events : list Gap.t)
    (fin : list Rept.t) (m : Sel.t) :
  In m (strategy_consistent_growth gap_events (preprocess_financial_data fm fin)) ->
  (exists g i,
     Sel.growth m = Some g /\ (4 <= i)%nat /\
     nth_error (series Growth.Stkcd (Sel.Stkcd m) (preprocess_financial_data fm fin)) i
     = Some g) /\
  (5 <= length (series Rept.Stkcd (Sel.Stkcd m) fin))%nat.
Proof.
  intros Hm. apply strategy_consistent_growth_In in Hm. destruct Hm as [Hm Hc].
  unfold Sel.profit_growth_2y in Hc.
  destruct (Sel.growth m) as [g|] eqn:Hgm; [|discriminate Hc].
  destruct (joined_growth_record _ _ m g Hm Hgm) as (Hg & Hna & Hk & _).
  set (k := Sel.Stkcd m) in *.
  assert (Hin : In g (series Growth.Stkcd k (preprocess_financial_data fm fin)))
    by (apply series_In; split; [exact Hg | exact Hk]).
  apply In_nth_error in Hin. destruct Hin as [i Hi].
  assert (Hlen : (i < length (series Growth.Stkcd k (preprocess_financial_data fm fin)))%nat)
    by (apply nth_error_Some; rewrite Hi; discriminate).
  assert (H4 : (4 <= i)%nat).
  { destruct (Nat.lt_ge_cases i 4) as [Hlt|Hge]; [exfalso | exact Hge].
    pose proof (pct_change_group_first fm 4
                  (map Rept.Profita
                     (series Rept.Stkcd k
                        (sort_values (by_code_date Rept.Stkcd Rept.Annodt) fin)))
                  i Hlt) as Hnan.
    rewrite <- preprocess_growth_2y_column in Hnan.
    change NaN with (Growth.profit_growth_2y (Growth.mk (Growth.rept g) NaN NaN))
      in Hnan at 1.
    rewrite map_nth in Hnan.
    rewrite (nth_error_nth _ _ _ Hi) in Hnan.
    unfold has_na, Growth_Row in Hna. rewrite Hnan in Hna. cbn [isna] in Hna.
    rewrite orb_true_r in Hna. discriminate Hna. }
  split; [exists g, i; split; [reflexivity | split; [exact H4 | exact Hi]]|].
  assert (Hsame : length (series Growth.Stkcd k (preprocess_financial_data fm fin))
                  = length (series Rept.Stkcd k fin)).
  { rewrite <- (length_map Growth.rept). unfold series.
    rewrite <- (filter_map_swap' Growth.rept (fun r => String.eqb (Rept.Stkcd r) k)).
    rewrite preprocess_rows. apply Permutation_length, Permutation_list_filter,
      sort_values_perm. }
  lia.
Qed.

Lemma selection_needs_five_disclosures_witness :
  (5 <= length (series Rept.Stkcd (Sel.Stkcd Samples.selected_000001)
                  Samples.fin_surge))%nat.
Proof.
  apply (selection_needs_five_disclosures ffill [Samples.event; Samples.event2]
           Samples.fin_surge Samples.selected_000001).
  vm_compute. left. reflexivity.
Defined.

(* ===================================================================== *)
(** ** filter_data, instrument by instrument                              *)
(* ===================================================================== *)

Lemma list_filter_comm {A} (P Q : A -> bool) (l : list A) :
  List.filter P (List.filter Q l) = List.filter Q (List.filter P l).
Proof.
  induction l as [|a l IH]; [reflexivity|]. cbn [List.filter].
  destruct (P a) eqn:Pa, (Q a) eqn:Qa; cbn [List.filter];
    rewrite ?Pa, ?Qa, IH; reflexivity.
Qed.

Lemma find_filter_and {A} (P Q : A -> bool) (l : list A) :
  List.find (fun r => P r && Q r) l = List.find (fun r => P r && Q r) (List.filter P l).
Proof.
  induction l as [|a l IH]; [reflexivity|]. cbn [List.find List.filter].
  destruct (P a) eqn:Pa; cbn [andb List.find]; [|exact IH].
  rewrite Pa. cbn [andb]. destruct (Q a); [reflexivity | exact IH].
Qed.

Lemma sorted_stk_data_series (k : string) (stk : list Trd.t) :
  series Trd.Stkcd k (sorted_stk_data stk) = sorted_stk_data (series Trd.Stkcd k stk).
Proof.
  unfold sorted_stk_data, series, dropna.
  rewrite filter_sort_values by (apply by_code_date_total || apply by_code_date_trans).
  f_equal. apply list_filter_comm.
Qed.

Lemma add_prev_Hiprc_series (k : string) (l : list Trd.t) :
  series TrdPrev_Stkcd k (add_prev_Hiprc l)
  = map (fun p => TrdPrev.mk (fst p) (snd p))
        (combine (series Trd.Stkcd k l)
                 (shift_series 1 [] (map Trd.Hiprc (series Trd.Stkcd k l)))).
Proof.
  unfold add_prev_Hiprc. unfold series at 1. rewrite filter_map_swap'.
  change (fun a : Trd.t * num =>
            String.eqb (TrdPrev_Stkcd (TrdPrev.mk (fst a) (snd a))) k)
    with (fun a : Trd.t * num => String.eqb (Trd.Stkcd (fst a)) k).
  rewrite (groupby_shift_series Trd.Stkcd Trd.Hiprc 1 k l ∅), lookup_empty.
  reflexivity.
Qed.

Lemma lagged_stk_data_series (k : string) (stk : list Trd.t) :
  series TrdPrev_Stkcd k (lagged_stk_data stk)
  = lagged_stk_data (series Trd.Stkcd k stk).
Proof.
  unfold lagged_stk_data. rewrite add_prev_Hiprc_series, sorted_stk_data_series.
  set (Sk := sorted_stk_data (series Trd.Stkcd k stk)).
  assert (Hk : Forall (fun r => Trd.Stkcd r = k) Sk).
  { apply List.Forall_forall. intros r Hr. unfold Sk, sorted_stk_data in Hr.
    apply sort_values_In in Hr. unfold dropna in Hr. apply filter_In in Hr as [Hr _].
    now apply series_In in Hr. }
  assert (Hall : Forall (fun s => TrdPrev_Stkcd s = k) (add_prev_Hiprc Sk)).
  { apply List.Forall_forall. intros s Hs.
    assert (Hrow : In (TrdPrev.row s) Sk)
      by (rewrite <- (add_prev_Hiprc_rows Sk); now apply in_map).
    exact (proj1 (List.Forall_forall _ _) Hk _ Hrow). }
  rewrite <- (series_all TrdPrev_Stkcd k (add_prev_Hiprc Sk) Hall).
  rewrite add_prev_Hiprc_series. now rewrite (series_all Trd.Stkcd k Sk Hk).
Qed.

Lemma series_gap_rows (k : string) (X : list (Rept.t * option TrdPrev.t)) :
  series Gap.Stkcd k (flat_map gap_row X)
  = flat_map gap_row (List.filter (fun m => String.eqb (Rept.Stkcd (fst m)) k) X).
Proof.
  unfold series. induction X as [|m X IH]; [reflexivity|].
  cbn [flat_map List.filter]. rewrite List.filter_app, IH.
  destruct (String.eqb (Rept.Stkcd (fst m)) k) eqn:E; cbn [flat_map].
  - f_equal. unfold gap_row. destruct (snd m); [|reflexivity].
    cbn [List.filter Gap.Stkcd]. now rewrite E.
  - unfold gap_row. destruct (snd m); [|reflexivity].
    cbn [List.filter Gap.Stkcd app]. now rewrite E.
Qed.

(** On two tables sorted by date that hold the same rows of an
    instrument, at most one per date, the forward match of that instrument
    is the same, whatever else the tables hold and however rows of equal
    date are ordered. *)
Lemma asof_forward_same {L R} (lby : L -> string) (lon : L -> date)
    (rby : R -> string) (ron : R -> date) (R1 R2 : list R) (l : L) :
  StronglySorted (fun a b => ron a <= ron b) R1 ->
  StronglySorted (fun a b => ron a <= ron b) R2 ->
  (forall r, rby r = lby l -> (In r R1 <-> In r R2)) ->
  (forall a b, In a R1 -> In b R1 -> rby a = lby l -> rby b = lby l ->
               ron a = ron b -> a = b) ->
  asof_forward lby lon rby ron R1 l = asof_forward lby lon rby ron R2 l.
Proof.
  intros Hs1 Hs2 Hsame Huniq.
  destruct (asof_forward lby lon rby ron R1 l) as [r1|] eqn:E1;
    destruct (asof_forward lby lon rby ron R2 l) as [r2|] eqn:E2;
    [| | |reflexivity].
  - apply asof_forward_Some in E1; [|exact Hs1].
    apply asof_forward_Some in E2; [|exact Hs2].
    destruct E1 as (Hin1 & Hk1 & Hd1 & Hmin1), E2 as (Hin2 & Hk2 & Hd2 & Hmin2).
    f_equal. apply Huniq; [exact Hin1 | now apply Hsame | exact Hk1 | exact Hk2|].
    pose proof (Hmin1 r2 (proj2 (Hsame r2 Hk2) Hin2) Hk2 Hd2).
    pose proof (Hmin2 r1 (proj1 (Hsame r1 Hk1) Hin1) Hk1 Hd1). lia.
  - apply asof_forward_Some in E1; [|exact Hs1].
    destruct E1 as (Hin1 & Hk1 & Hd1 & _).
    pose proof (asof_forward_None _ _ _ _ _ _ E2 r1 (proj1 (Hsame r1 Hk1) Hin1) Hk1).
    lia.
  - apply asof_forward_Some in E2; [|exact Hs2].
    destruct E2 as (Hin2 & Hk2 & Hd2 & _).
    pose proof (asof_forward_None _ _ _ _ _ _ E1 r2 (proj2 (Hsame r2 Hk2) Hin2) Hk2).
    lia.
Qed.

Lemma NoDup_of_map {A B} (f : A -> B) (l : list A) :
  List.NoDup (map f l) -> List.NoDup l.
Proof.
  induction l as [|a l IH]; intros Hnd; [constructor|].
  cbn [map] in Hnd. apply List.NoDup_cons_iff in Hnd as [Ha Hnd].
  constructor; [|now apply IH]. intros Hin. apply Ha. now apply in_map.
Qed.

(** With one complete session at most per instrument and date, the
    sessions with their prior high are told apart by instrument and
    date. *)
Lemma lagged_rows_unique (stk : list Trd.t) (a b : TrdPrev.t) :
  List.NoDup (map (fun r => (Trd.Stkcd r, Trd.Trddt r)) (dropna stk)) ->
  In a (lagged_stk_data stk) -> In b (lagged_stk_data stk) ->
  TrdPrev_Stkcd a = TrdPrev_Stkcd b -> TrdPrev_Trddt a = TrdPrev_Trddt b -> a = b.
Proof.
  intros Hnd Ha Hb Hk Hd.
  assert (Hrow : TrdPrev.row a = TrdPrev.row b).
  { apply (NoDup_map_injective (fun r => (Trd.Stkcd r, Trd.Trddt r)) (dropna stk));
      [exact Hnd | now apply lagged_row_In | now apply lagged_row_In|].
    unfold TrdPrev_Stkcd, TrdPrev_Trddt in *. cbn beta. now rewrite Hk, Hd. }
  apply (NoDup_map_injective TrdPrev.row (lagged_stk_data stk));
    [|exact Ha | exact Hb | exact Hrow].
  unfold lagged_stk_data. rewrite add_prev_Hiprc_rows. unfold sorted_stk_data.
  eapply Permutation_NoDup; [symmetry; apply sort_values_perm|].
  eapply NoDup_of_map. exact Hnd.
Qed.

(** X16. The Gap Event Detector works instrument by instrument.  When no
    instrument has two complete trading rows for one date, the rows it
    returns for an instrument are, up to their order, the rows it returns
    when given that instrument's trading rows and disclosures alone,
    whatever order the single-column sorts of the two runs give to rows of
    equal date.  No gap depends on another instrument's data. *)
Theorem filter_data_per_instrument (s1 s2 : date_sort) (stk : list Trd.t)
    (pft : list Rept.t) (k : string) :
  sorts_by_date s1 -> sorts_by_date s2 ->
  List.NoDup (map (fun r => (Trd.Stkcd r, Trd.Trddt r)) (dropna stk)) ->
  Permutation (series Gap.Stkcd k (filter_data_with s1 stk pft))
              (filter_data_with s2 (series Trd.Stkcd k stk) (series Rept.Stkcd k pft)).
Proof.
  intros Hs1 Hs2 Hnd.
  unfold filter_data_with, filter_data_merged_with, merge_asof_forward.
  rewrite series_gap_rows, list_filter_comm.
  rewrite (filter_map_swap' (fun l => (l, _))
             (fun m => String.eqb (Rept.Stkcd (fst m)) k)).
  cbn [fst].
  set (R1 := s1 _ TrdPrev_Trddt (lagged_stk_data stk)).
  set (R2 := s2 _ TrdPrev_Trddt (lagged_stk_data (series Trd.Stkcd k stk))).
  set (L1 := List.filter (fun a => String.eqb (Rept.Stkcd a) k)
                         (s1 _ Rept.Annodt (dropna pft))).
  set (L2 := s2 _ Rept.Annodt (dropna (series Rept.Stkcd k pft))).
  assert (HL : Permutation L1 L2).
  { unfold L1, L2. etransitivity;
      [apply Permutation_list_filter, (proj1 (Hs1 _ Rept.Annodt (dropna pft)))|].
    etransitivity;
      [|symmetry; apply (proj1 (Hs2 _ Rept.Annodt (dropna (series Rept.Stkcd k pft))))].
    unfold dropna, series. now rewrite list_filter_comm. }
  assert (Hmatch : forall l, In l L1 ->
            asof_forward Rept.Stkcd Rept.Annodt TrdPrev_Stkcd TrdPrev_Trddt R1 l
            = asof_forward Rept.Stkcd Rept.Annodt TrdPrev_Stkcd TrdPrev_Trddt R2 l).
  { intros l Hl. unfold L1 in Hl. apply filter_In in Hl as [_ Hk].
    apply String.eqb_eq in Hk.
    apply asof_forward_same;
      [apply (proj2 (Hs1 _ TrdPrev_Trddt (lagged_stk_data stk)))
      |apply (proj2 (Hs2 _ TrdPrev_Trddt (lagged_stk_data (series Trd.Stkcd k stk))))
      | |].
    - intros r Hr. rewrite Hk in Hr. unfold R1, R2.
      rewrite !date_sort_In by assumption.
      rewrite <- lagged_stk_data_series, series_In. tauto.
    - intros a b Ha Hb Hka Hkb Hd. unfold R1 in Ha, Hb.
      apply date_sort_In in Ha; [|exact Hs1]. apply date_sort_In in Hb; [|exact Hs1].
      apply (lagged_rows_unique stk a b Hnd Ha Hb); [congruence | exact Hd]. }
  apply Permutation_flat_map, Permutation_list_filter.
  rewrite (map_ext_in _ (fun l => (l, asof_forward Rept.Stkcd Rept.Annodt
                                       TrdPrev_Stkcd TrdPrev_Trddt R2 l)) L1)
    by (intros l Hl; now rewrite (Hmatch l Hl)).
  now apply Permutation_map.
Qed.

Lemma filter_data_per_instrument_witness :
  Permutation (series Gap.Stkcd "000001" (filter_data Samples.price_data Samples.pft))
              (filter_data (series Trd.Stkcd "000001" Samples.price_data)
                           (series Rept.Stkcd "000001" Samples.pft)).
Proof.
  apply (filter_data_per_instrument stable_sort stable_sort Samples.price_data
           Samples.pft "000001" stable_sort_sorts stable_sort_sorts).
  vm_compute. repeat constructor; cbn [In]; intros H;
    repeat (destruct H as [H|H]; [discriminate H|]); exact H.
Defined.

(* ===================================================================== *)
(** ** backtest_strategy with a benchmark                                 *)
(* ===================================================================== *)

Lemma backtest_dates_increasing (selected : list Sel.t) (prices : list Trd.t)
    (hold : Z) :
  StronglySorted Z.lt (map Port.buy_date (backtest_strategy selected prices hold)).
Proof.
  rewrite backtest_strategy_positions.
  destruct (backtest_positions_columns (open_positions hold selected) prices)
    as (Hd & _ & _). cbv zeta in Hd. rewrite Hd.
  unfold portfolio_return. rewrite groupby_mean_keys. apply group_keys_increasing.
Qed.

Lemma increasing_NoDup (l : list Z) : StronglySorted Z.lt l -> List.NoDup l.
Proof.
  induction 1 as [|x l Hs IH Hx]; constructor; [|exact IH].
  intros Hin. pose proof (proj1 (List.Forall_forall _ _) Hx x Hin). lia.
Qed.

Lemma benchmark_table_columns (ln : Q -> Q) (dates : list date) (benchmark : list Idx.t) :
  map Bench.date (benchmark_table ln dates benchmark) = dates /\
  Forall (fun b => isna (Bench.benchmark_return b) = false)
         (benchmark_table ln dates benchmark).
Proof.
  unfold benchmark_table.
  set (bm := sort_values (by_date Idx.date) _).
  set (merged := map (fun d => (d, asof_date_backward bm d)) dates).
  set (close := ffill_series NaN _).
  set (ret := map (fun p => fillna (int 0) (np_log ln (fdiv (fst p) (snd p)))) _).
  assert (Hclose : length close = length dates)
    by (unfold close, merged; now rewrite ffill_series_length, !length_map).
  assert (Hret : length ret = length dates)
    by (unfold ret; rewrite length_map, length_combine, shift_series_length; lia).
  assert (Hfst : map fst merged = dates)
    by (unfold merged; rewrite map_map; apply map_id).
  rewrite Hfst. split.
  - rewrite map_map. cbn [Bench.date].
    rewrite <- (map_map fst fst), combine_map_fst, combine_map_fst;
      [reflexivity | now rewrite Hret |].
    rewrite length_combine, cum_returns_length, Hret. lia.
  - apply List.Forall_forall. intros b Hb. apply in_map_iff in Hb as ([[d r] c] & <- & Hin).
    cbn [Bench.benchmark_return fst snd].
    apply in_combine_l, in_combine_r in Hin. unfold ret in Hin.
    apply in_map_iff in Hin as (p & <- & _). unfold fillna.
    destruct (isna (np_log ln (fdiv (fst p) (snd p)))) eqn:E; [reflexivity | exact E].
Qed.

Lemma filter_unique_date (bench : list Bench.t) (b : Bench.t) :
  List.NoDup (map Bench.date bench) -> In b bench ->
  List.filter (fun b' => Bench.date b' =? Bench.date b) bench = [b].
Proof.
  induction bench as [|x bench IH]; intros Hnd Hin; [destruct Hin|].
  cbn [map] in Hnd. apply List.NoDup_cons_iff in Hnd as [Hx Hnd].
  cbn [List.filter]. destruct Hin as [->|Hin].
  - rewrite Z.eqb_refl. f_equal.
    assert (Hnone : forall b', In b' bench ->
                      (Bench.date b' =? Bench.date b) = false).
    { intros b' Hb'. apply Z.eqb_neq. intros E.
      apply Hx. rewrite <- E. now apply in_map. }
    clear -Hnone. induction bench as [|y l IH]; [reflexivity|].
    cbn [List.filter]. rewrite (Hnone y (or_introl eq_refl)).
    apply IH. intros z Hz. apply Hnone. now right.
  - assert (Hne : (Bench.date x =? Bench.date b) = false).
    { apply Z.eqb_neq. intros E. apply Hx. rewrite E. now apply in_map. }
    rewrite Hne. now apply IH.
Qed.

Lemma merge_benchmark_aligned (pr : list Port.t) (bench : list Bench.t) :
  map Bench.date bench = map Port.buy_date pr ->
  List.NoDup (map Port.buy_date pr) ->
  merge_benchmark pr bench = combine pr (map Some bench).
Proof.
  intros Hdates Hnd.
  assert (Hnd' : List.NoDup (map Bench.date bench)) by now rewrite Hdates.
  assert (Hgen : forall pr' suffix,
            map Bench.date suffix = map Port.buy_date pr' ->
            (forall b, In b suffix -> In b bench) ->
            merge_benchmark pr' bench = combine pr' (map Some suffix)).
  { induction pr' as [|p pr' IH]; intros [|b suffix] Hd Hsub;
      try discriminate Hd; [reflexivity|].
    cbn [map] in Hd. injection Hd as Hb Hd.
    unfold merge_benchmark. cbn [flat_map map combine]. rewrite <- Hb.
    rewrite (filter_unique_date bench b Hnd' (Hsub b (or_introl eq_refl))).
    cbn [map app]. f_equal. apply IH; [exact Hd|].
    intros b' Hb'. apply Hsub. now right. }
  apply Hgen; [exact Hdates | auto].
Qed.

Lemma combine_Some_rows (pr : list Port.t) (bench : list Bench.t) (p : Port.t)
    (o : option Bench.t) :
  map Bench.date bench = map Port.buy_date pr ->
  In (p, o) (combine pr (map Some bench)) ->
  exists b, o = Some b /\ In b bench /\ Bench.date b = Port.buy_date p.
Proof.
  revert bench. induction pr as [|p0 pr IH]; intros [|b0 bench] Hd Hin;
    try discriminate Hd; [destruct Hin|].
  cbn [map] in Hd. injection Hd as Hb Hd. cbn [map combine] in Hin.
  destruct Hin as [Heq|Hin].
  - injection Heq as <- <-. exists b0. split; [reflexivity|].
    split; [now left | exact Hb].
  - destruct (IH bench Hd Hin) as (b & Ho & Hb' & Hdate).
    exists b. split; [exact Ho|]. split; [now right | exact Hdate].
Qed.

Lemma benchmark_table_head (ln : Q -> Q) (d : date) (dates : list date)
    (benchmark : list Idx.t) :
  exists b rest,
    benchmark_table ln (d :: dates) benchmark = b :: rest /\
    Bench.benchmark_return b = int 0 /\ Bench.benchmark_cum b = int 0.
Proof.
  unfold benchmark_table. cbn [map].
  cbn [ffill_series shift_series combine map nth fst snd].
  set (c0 := if isna _ then NaN else _).
  assert (Hr : fillna (int 0) (np_log ln (fdiv c0 NaN)) = int 0)
    by (now destruct c0).
  rewrite Hr. unfold cum_returns, cumprod. cbn [map cumprod_from isna fadd int].
  cbn [combine map fst snd].
  eexists. eexists. split; [reflexivity|].
  cbn [Bench.benchmark_return Bench.benchmark_cum]. split; reflexivity.
Qed.

(** X17. With a benchmark, [backtest_strategy] returns the rows it returns
    without one, in the same order and none repeated or dropped, each with
    the benchmark columns of its own buy date; [benchmark_return] is never
    missing; and on the first row [benchmark_return] and [benchmark_cum]
    are 0, whatever the benchmark table holds. *)
Theorem backtest_benchmark_columns (ln : Q -> Q) (selected : list Sel.t)
    (prices : list Trd.t) (hold : Z) (benchmark : list Idx.t) :
  let out := backtest_strategy_benchmark ln selected prices hold benchmark in
  map fst out = backtest_strategy selected prices hold /\
  (forall r, In r out ->
     exists b, snd r = Some b /\ Bench.date b = Port.buy_date (fst r) /\
               isna (Bench.benchmark_return b) = false) /\
  (forall r, hd_error out = Some r ->
     exists b, snd r = Some b /\ Bench.benchmark_return b = int 0 /\
               Bench.benchmark_cum b = int 0).
Proof.
  cbv zeta. unfold backtest_strategy_benchmark.
  pose proof (increasing_NoDup _ (backtest_dates_increasing selected prices hold))
    as Hnd.
  generalize dependent (backtest_strategy selected prices hold). intros pr Hnd.
  destruct (benchmark_table_columns ln (map Port.buy_date pr) benchmark)
    as [Hdates Hret].
  rewrite (merge_benchmark_aligned pr _ Hdates Hnd).
  assert (Hlen : length (benchmark_table ln (map Port.buy_date pr) benchmark)
                 = length pr)
    by (rewrite <- (length_map Bench.date), Hdates; apply length_map).
  split; [apply combine_map_fst; now rewrite length_map|]. split.
  - intros [p o] Hin. cbn [fst snd].
    destruct (combine_Some_rows pr _ p o Hdates Hin) as (b & Ho & Hb & Hd).
    exists b. split; [exact Ho|]. split; [exact Hd|].
    exact (proj1 (List.Forall_forall _ _) Hret b Hb).
  - intros [p o] Hhd. cbn [fst snd].
    destruct pr as [|p0 pr']; [discriminate Hhd|]. cbn [map] in Hhd.
    destruct (benchmark_table_head ln (Port.buy_date p0) (map Port.buy_date pr')
                benchmark) as (b & rest & Heq & Hr & Hc).
    rewrite Heq in Hhd. cbn [map combine hd_error] in Hhd.
    injection Hhd as _ <-. exists b. split; [reflexivity|]. split; [exact Hr | exact Hc].
Qed.

Lemma backtest_benchmark_columns_witness :
  exists r b,
    hd_error (backtest_strategy_benchmark (fun q => q) [Samples.selected_000001]
                Samples.price_data 90 MoreSamples.index) = Some r /\
    snd r = Some b /\ Bench.benchmark_return b = int 0 /\
    Bench.benchmark_cum b = int 0.
Proof.
  destruct (hd_error (backtest_strategy_benchmark (fun q => q)
                        [Samples.selected_000001] Samples.price_data 90
                        MoreSamples.index)) as [r|] eqn:E.
  - destruct (proj2 (proj2 (backtest_benchmark_columns (fun q => q)
                              [Samples.selected_000001] Samples.price_data 90
                              MoreSamples.index)) r E) as (b & Hb & Hr & Hc).
    exists r, b. split; [reflexivity|]. split; [exact Hb|]. split; [exact Hr | exact Hc].
  - vm_compute in E. discriminate E.
Defined.

(* ===================================================================== *)
(** ** load_csv_files: the instrument codes                               *)
(* ===================================================================== *)

Lemma string_of_uint_length (d : Decimal.uint) :
  String.length (DecimalString.NilEmpty.string_of_uint d) = Decimal.nb_digits d.
Proof. induction d; cbn; congruence. Qed.

Lemma zeros_length (k : nat) (s : string) :
  String.length (zeros k s) = (k + String.length s)%nat.
Proof. induction k as [|k IH]; cbn; congruence. Qed.

Lemma zfill_length (w : nat) (s : string) :
  String.length (zfill w s) = Nat.max w (String.length s).
Proof. unfold zfill. rewrite zeros_length. lia. Qed.

Lemma uint_of_string_zeros (k : nat) (s : string) :
  DecimalString.NilEmpty.uint_of_string (zeros k s)
  = option_map (Nat.iter k Decimal.D0) (DecimalString.NilEmpty.uint_of_string s).
Proof.
  induction k as [|k IH];
    [cbn [zeros]; now destruct (DecimalString.NilEmpty.uint_of_string s)|].
  cbn [zeros DecimalString.NilEmpty.uint_of_string]. rewrite IH.
  now destruct (DecimalString.NilEmpty.uint_of_string s).
Qed.

Lemma of_uint_iter_D0 (k : nat) (d : Decimal.uint) :
  N.of_uint (Nat.iter k Decimal.D0 d) = N.of_uint d.
Proof. induction k as [|k IH]; [reflexivity | exact IH]. Qed.

Lemma str_of_N_nonempty (n : N) : (1 <= String.length (str_of_N n))%nat.
Proof.
  unfold str_of_N. rewrite string_of_uint_length.
  destruct (Decimal.nb_digits (N.to_uint n)) eqn:E; [|lia].
  apply DecimalFacts.nb_digits_0 in E. exfalso. destruct n as [|p]; [discriminate E|].
  now apply (DecimalPos.Unsigned.to_uint_nonnil p).
Qed.

Lemma int_of_Stkcd_str (n : N) : int_of_str (Stkcd_str n) = Some n.
Proof.
  unfold int_of_str, Stkcd_str.
  assert (Hlen : (1 <= String.length (zfill 6 (str_of_N n)))%nat)
    by (rewrite zfill_length; lia).
  destruct (zfill 6 (str_of_N n)) as [|c s] eqn:E; [cbn in Hlen; lia|].
  rewrite <- E. unfold zfill, str_of_N.
  rewrite uint_of_string_zeros, DecimalString.NilEmpty.usu. cbn [option_map].
  now rewrite of_uint_iter_D0, DecimalN.Unsigned.of_to.
Qed.

(** The digit [k] put in front of little-endian [d]. *)
Lemma of_lu_digit (k : N) (d : Decimal.uint) :
  (k < 10)%N ->
  exists d', Decimal.nb_digits d' = S (Decimal.nb_digits d) /\
             DecimalPos.Unsigned.of_lu d' = (k + 10 * DecimalPos.Unsigned.of_lu d)%N.
Proof.
  intros Hk.
  assert (Hcase : (k = 0 \/ k = 1 \/ k = 2 \/ k = 3 \/ k = 4 \/ k = 5 \/ k = 6 \/
                   k = 7 \/ k = 8 \/ k = 9)%N) by lia.
  destruct Hcase as [->|[->|[->|[->|[->|[->|[->|[->|[->| ->]]]]]]]]].
  - exists (Decimal.D0 d). split; [reflexivity|]. now rewrite DecimalPos.Unsigned.of_lu_eqn.
  - exists (Decimal.D1 d). split; [reflexivity|]. now rewrite DecimalPos.Unsigned.of_lu_eqn.
  - exists (Decimal.D2 d). split; [reflexivity|]. now rewrite DecimalPos.Unsigned.of_lu_eqn.
  - exists (Decimal.D3 d). split; [reflexivity|]. now rewrite DecimalPos.Unsigned.of_lu_eqn.
  - exists (Decimal.D4 d). split; [reflexivity|]. now rewrite DecimalPos.Unsigned.of_lu_eqn.
  - exists (Decimal.D5 d). split; [reflexivity|]. now rewrite DecimalPos.Unsigned.of_lu_eqn.
  - exists (Decimal.D6 d). split; [reflexivity|]. now rewrite DecimalPos.Unsigned.of_lu_eqn.
  - exists (Decimal.D7 d). split; [reflexivity|]. now rewrite DecimalPos.Unsigned.of_lu_eqn.
  - exists (Decimal.D8 d). split; [reflexivity|]. now rewrite DecimalPos.Unsigned.of_lu_eqn.
  - exists (Decimal.D9 d). split; [reflexivity|]. now rewrite DecimalPos.Unsigned.of_lu_eqn.
Qed.

(** A number below [10 ^ w] is written by some [w] digits. *)
Lemma digits_below (w : nat) (n : N) :
  (n < 10 ^ N.of_nat w)%N ->
  exists d, Decimal.nb_digits d = w /\ DecimalPos.Unsigned.of_lu d = n.
Proof.
  revert n. induction w as [|w IH]; intros n Hn.
  - exists Decimal.Nil. split; [reflexivity|]. cbn in Hn. cbn. lia.
  - assert (Hq : (n / 10 < 10 ^ N.of_nat w)%N).
    { rewrite Nat2N.inj_succ, N.pow_succ_r' in Hn.
      apply N.Div0.div_lt_upper_bound. exact Hn. }
    destruct (IH _ Hq) as (d & Hd & Hof).
    destruct (of_lu_digit (n mod 10) d) as (d' & Hd' & Hof').
    { apply N.mod_lt. discriminate. }
    exists d'. split; [now rewrite Hd', Hd|].
    rewrite Hof', Hof. rewrite N.add_comm. symmetry. apply N.Div0.div_mod.
Qed.

Lemma str_of_N_short (w : nat) (n : N) :
  (n < 10 ^ N.of_nat w)%N -> (String.length (str_of_N n) <= Nat.max w 1)%nat.
Proof.
  intros Hn. destruct (digits_below w n Hn) as (d & Hd & Hof).
  unfold str_of_N. rewrite string_of_uint_length.
  rewrite <- DecimalPos.Unsigned.of_lu_rev in Hof.
  change (Pos.of_uint (Decimal.rev d)) with (N.of_uint (Decimal.rev d)) in Hof.
  rewrite <- Hof, DecimalN.Unsigned.to_of.
  destruct (Decimal.rev d) as [| | | | | | | | | |] eqn:E;
    try (etransitivity;
         [apply DecimalFacts.nb_digits_unorm; discriminate
         |rewrite <- E, DecimalFacts.nb_digits_rev; lia]).
  cbn. lia.
Qed.

(** X18. The code column as [load_csv_files] stores it, for a
    non-negative integer code: reading the stored text back as an integer
    gives the code, so different codes are stored as different texts; the
    text has at least six characters, and exactly six for a code below one
    million. *)
Theorem Stkcd_str_codes (n m : N) :
  int_of_str (Stkcd_str n) = Some n /\
  (Stkcd_str n = Stkcd_str m -> n = m) /\
  (6 <= String.length (Stkcd_str n))%nat /\
  ((n < 1000000)%N -> String.length (Stkcd_str n) = 6%nat).
Proof.
  split; [apply int_of_Stkcd_str|]. split.
  - intros Heq. pose proof (int_of_Stkcd_str n) as Hn.
    rewrite Heq, int_of_Stkcd_str in Hn. congruence.
  - unfold Stkcd_str. rewrite zfill_length. split; [lia|].
    intros Hn. pose proof (str_of_N_short 6 n Hn). lia.
Qed.

Lemma Stkcd_str_codes_witness :
  Stkcd_str 2 = "000002" /\ String.length (Stkcd_str 600519) = 6%nat /\
  (Stkcd_str 2 = Stkcd_str 2 -> 2 = 2)%N.
Proof.
  split; [reflexivity|]. split.
  - apply (Stkcd_str_codes 600519 0). reflexivity.
  - apply (Stkcd_str_codes 2 2).
Defined.

(* ===================================================================== *)
(** ** load_csv_files: which files end up under which key                 *)
(* ===================================================================== *)

Lemma load_folder_lookup {Raw} (store : list Raw -> raw_table)
    (listing : list (string * read_result Raw)) (raw : gmap string raw_table)
    (k : string) :
  load_folder store listing raw !! k
  = match List.find
            (fun file =>
               endswith (fst file) ".csv" && negb (startswith (fst file) "~$")
               && String.eqb (splitext_root (fst file)) k
               && match snd file with ReadOk _ => true | ReadFailed => false end)
            (rev listing) with
    | Some (_, ReadOk rows) => Some (store rows)
    | _ => raw !! k
    end.
Proof.
  induction listing as [|[f res] listing IH] using rev_ind; [reflexivity|].
  unfold load_folder in *. rewrite fold_left_app, rev_app_distr.
  cbn [fold_left rev app List.find fst snd].
  destruct (endswith f ".csv"); [|exact IH].
  destruct (startswith f "~$"); [exact IH|].
  destruct res as [rows|]; cbn [andb negb].
  - destruct (String.eqb (splitext_root f) k) eqn:E; cbn [andb].
    + apply String.eqb_eq in E. subst k. apply lookup_insert_eq.
    + apply String.eqb_neq in E. rewrite lookup_insert_ne by exact E. exact IH.
  - rewrite andb_false_r. exact IH.
Qed.

Lemma load_folder_sound {Raw} (store : list Raw -> raw_table)
    (listing : list (string * read_result Raw)) (raw : gmap string raw_table)
    (k : string) (t : raw_table) :
  load_folder store listing raw !! k = Some t ->
  raw !! k = Some t \/
  exists f rows, In (f, ReadOk rows) listing /\ endswith f ".csv" = true /\
                 startswith f "~$" = false /\ splitext_root f = k /\
                 t = store rows.
Proof.
  rewrite load_folder_lookup.
  destruct (List.find _ (rev listing)) as [[f [rows|]]|] eqn:E; [|now left|now left].
  intros [= <-]. right. apply find_some in E. destruct E as [Hin Hp].
  apply in_rev in Hin. cbn [fst snd] in Hp.
  rewrite !andb_true_iff, negb_true_iff, String.eqb_eq in Hp.
  destruct Hp as [[[He Hs] Hk] _]. exists f, rows. auto.
Qed.

Lemma load_folder_stored {Raw} (store : list Raw -> raw_table)
    (listing : list (string * read_result Raw)) (raw : gmap string raw_table)
    (f : string) (rows : list Raw) :
  In (f, ReadOk rows) listing -> endswith f ".csv" = true ->
  startswith f "~$" = false ->
  (forall f' rows', In (f', ReadOk rows') listing -> endswith f' ".csv" = true ->
                    startswith f' "~$" = false ->
                    splitext_root f' = splitext_root f -> rows' = rows) ->
  load_folder store listing raw !! splitext_root f = Some (store rows).
Proof.
  intros Hin He Hs Huniq. rewrite load_folder_lookup.
  destruct (List.find _ (rev listing)) as [[f' res]|] eqn:E.
  - apply find_some in E. destruct E as [Hin' Hp].
    apply in_rev in Hin'. cbn [fst snd] in Hp.
    rewrite !andb_true_iff, negb_true_iff, String.eqb_eq in Hp.
    destruct Hp as [[[He' Hs'] Hk] Hok]. destruct res as [rows'|]; [|discriminate Hok].
    now rewrite (Huniq f' rows' Hin' He' Hs' Hk).
  - exfalso. apply in_rev in Hin.
    pose proof (find_none _ _ E _ Hin) as Hp. cbn [fst snd] in Hp.
    now rewrite He, Hs, String.eqb_refl in Hp.
Qed.

Lemma load_folder_other {Raw} (store : list Raw -> raw_table)
    (listing : list (string * read_result Raw)) (raw : gmap string raw_table)
    (k : string) :
  (forall f rows, In (f, ReadOk rows) listing -> endswith f ".csv" = true ->
                  startswith f "~$" = false -> splitext_root f <> k) ->
  load_folder store listing raw !! k = raw !! k.
Proof.
  intros Hnone.
  destruct (load_folder store listing raw !! k) as [t|] eqn:E.
  - rewrite load_folder_lookup in E.
    destruct (List.find _ (rev listing)) as [[f [rows|]]|] eqn:Ef;
      [|now symmetry|now symmetry].
    exfalso. apply find_some in Ef. destruct Ef as [Hin Hp].
    apply in_rev in Hin. cbn [fst snd] in Hp.
    rewrite !andb_true_iff, negb_true_iff, String.eqb_eq in Hp.
    destruct Hp as [[[He Hs] Hk] _]. exact (Hnone f rows Hin He Hs Hk).
  - rewrite load_folder_lookup in E.
    destruct (List.find _ (rev listing)) as [[f [rows|]]|]; [discriminate E| |];
      now symmetry.
Qed.

Lemma list_ascii_of_string_append (s1 s2 : string) :
  String.list_ascii_of_string (String.append s1 s2)
  = String.list_ascii_of_string s1 ++ String.list_ascii_of_string s2.
Proof.
  induction s1 as [|c s1 IH]; [reflexivity|].
  change (String.append (String c s1) s2) with (String c (String.append s1 s2)).
  cbn [String.list_ascii_of_string app]. now f_equal.
Qed.

Lemma list_prefix_app (p x : list ascii) : list_prefix p (p ++ x) = true.
Proof.
  induction p as [|a p IH]; [reflexivity|]. cbn [app list_prefix].
  now rewrite Ascii.eqb_refl.
Qed.

Lemma rfind_dot_csv (l : list ascii) :
  rfind_dot (l ++ String.list_ascii_of_string ".csv") = Some (length l).
Proof.
  induction l as [|c l IH]; [reflexivity|].
  cbn [app rfind_dot length]. now rewrite IH.
Qed.

(** X19. What [load_csv_files] stores.  An entry of [raw_data] after the
    call was there before or is the table of a readable file of one of the
    two folders whose name ends in .csv and does not start with ~$, under
    that name's root.  Such a file of the disclosure folder is stored even
    if files before or after it cannot be read, provided no other stored
    file of that folder has its root; one of the stock folder is stored
    provided, in addition, no file of the disclosure folder takes its key,
    the disclosure folder being read last.  A key no file takes is left as
    it was.  The root of [stem.csv] is [stem] when [stem] holds a
    character other than a dot. *)
Theorem load_csv_files_entries (stk_listing : list (string * read_result RawTrd.t))
    (pft_listing : list (string * read_result RawRept.t))
    (raw_data : gmap string raw_table) :
  let loaded := load_csv_files stk_listing pft_listing raw_data in
  (forall k t, loaded !! k = Some t ->
     raw_data !! k = Some t \/
     (exists f rows, In (f, ReadOk rows) stk_listing /\ endswith f ".csv" = true /\
                     startswith f "~$" = false /\ splitext_root f = k /\
                     t = store_stk rows) \/
     (exists f rows, In (f, ReadOk rows) pft_listing /\ endswith f ".csv" = true /\
                     startswith f "~$" = false /\ splitext_root f = k /\
                     t = store_pft rows)) /\
  (forall f rows,
     In (f, ReadOk rows) pft_listing -> endswith f ".csv" = true ->
     startswith f "~$" = false ->
     (forall f' rows', In (f', ReadOk rows') pft_listing ->
                       endswith f' ".csv" = true -> startswith f' "~$" = false ->
                       splitext_root f' = splitext_root f -> rows' = rows) ->
     loaded !! splitext_root f = Some (store_pft rows)) /\
  (forall f rows,
     In (f, ReadOk rows) stk_listing -> endswith f ".csv" = true ->
     startswith f "~$" = false ->
     (forall f' rows', In (f', ReadOk rows') stk_listing ->
                       endswith f' ".csv" = true -> startswith f' "~$" = false ->
                       splitext_root f' = splitext_root f -> rows' = rows) ->
     (forall f' rows', In (f', ReadOk rows') pft_listing ->
                       endswith f' ".csv" = true -> startswith f' "~$" = false ->
                       splitext_root f' <> splitext_root f) ->
     loaded !! splitext_root f = Some (store_stk rows)) /\
  (forall k,
     (forall f rows, In (f, ReadOk rows) stk_listing -> endswith f ".csv" = true ->
                     startswith f "~$" = false -> splitext_root f <> k) ->
     (forall f rows, In (f, ReadOk rows) pft_listing -> endswith f ".csv" = true ->
                     startswith f "~$" = false -> splitext_root f <> k) ->
     loaded !! k = raw_data !! k) /\
  (forall stem,
     existsb (fun c => negb (Ascii.eqb c "."%char)) (String.list_ascii_of_string stem)
     = true ->
     endswith (String.append stem ".csv") ".csv" = true /\
     splitext_root (String.append stem ".csv") = stem).
Proof.
  cbv zeta. unfold load_csv_files. split; [|split; [|split; [|split]]].
  - intros k t Ht. apply load_folder_sound in Ht. destruct Ht as [Ht|Ht].
    + apply load_folder_sound in Ht. destruct Ht as [Ht|Ht]; [now left|].
      right. now left.
    + right. now right.
  - intros f rows Hin He Hs Huniq. now apply load_folder_stored.
  - intros f rows Hin He Hs Huniq Hpft.
    rewrite load_folder_other by exact Hpft. now apply load_folder_stored.
  - intros k Hstk Hpft. rewrite load_folder_other by exact Hpft.
    now apply load_folder_other.
  - intros stem Hstem. split.
    + unfold endswith. rewrite list_ascii_of_string_append, rev_app_distr.
      apply list_prefix_app.
    + unfold splitext_root.
      rewrite list_ascii_of_string_append, rfind_dot_csv.
      rewrite firstn_app, Nat.sub_diag, firstn_all. cbn [firstn].
      rewrite app_nil_r, Hstem. apply String.string_of_list_ascii_of_string.
Qed.

Lemma load_csv_files_entries_witness :
  load_csv_files MoreSamples.stk_listing MoreSamples.pft_listing ∅ !! "IAR_Rept"
  = Some (store_pft MoreSamples.rept) /\
  load_csv_files MoreSamples.stk_listing MoreSamples.pft_listing ∅ !! "TRD_Dalyr0"
  = Some (store_stk MoreSamples.shard0) /\
  load_csv_files MoreSamples.stk_listing MoreSamples.pft_listing ∅ !! "TRD_Dalyr1"
  = None.
Proof.
  pose proof (load_csv_files_entries MoreSamples.stk_listing MoreSamples.pft_listing ∅)
    as (_ & Hpft & Hstk & Hnone & _).
  split; [|split].
  - apply (Hpft "IAR_Rept.csv" MoreSamples.rept);
      [left; reflexivity | reflexivity | reflexivity|].
    intros f' rows' [H|[]] _ _ _. now injection H as _ <-.
  - apply (Hstk "TRD_Dalyr0.csv" MoreSamples.shard0);
      [left; reflexivity | reflexivity | reflexivity | |].
    + intros f' rows' [H|[H|[H|[H|[]]]]] He Hs _; try discriminate H.
      * now injection H as _ <-.
      * injection H as <- _. discriminate Hs.
    + intros f' rows' [H|[]] _ _. injection H as <- _. vm_compute. discriminate.
  - rewrite (Hnone "TRD_Dalyr1"); [reflexivity | |].
    + intros f rows [H|[H|[H|[H|[]]]]] He Hs; try discriminate H.
      * injection H as <- _. vm_compute. discriminate.
      * injection H as <- _. discriminate Hs.
    + intros f rows [H|[]] _ _. injection H as <- _. vm_compute. discriminate.
Defined.

(* ===================================================================== *)
(** ** backtest_strategy on positive prices                               *)
(* ===================================================================== *)

Lemma matched_row_In {L} (lby : L -> string) (lon : L -> date) (prices : list Trd.t)
    (l : L) (r : Trd.t) :
  asof_backward lby lon Trd.Stkcd Trd.Trddt prices l = Some r \/
  asof_forward lby lon Trd.Stkcd Trd.Trddt prices l = Some r ->
  In r prices.
Proof.
  unfold asof_backward, asof_forward. intros [H|H]; apply find_some in H as [H _];
    [now apply in_rev in H | exact H].
Qed.

Lemma pct_positive_prices (s b : num) :
  (s = NaN \/ exists q, s = Fin q /\ (0 < q)%Q) ->
  (b = NaN \/ exists q, b = Fin q /\ (0 < q)%Q) ->
  pct s b = NaN \/ exists q, pct s b = Fin q /\ (- (1) <= q)%Q.
Proof.
  intros [->|(qs & -> & Hs)] [->|(qb & -> & Hb)]; try (now left).
  right. unfold pct. cbn [fdiv].
  assert (Hc : (qb ?= 0)%Q = Gt) by (now apply Qgt_alt).
  rewrite Hc. unfold int. cbn [fsub]. eexists. split; [reflexivity|].
  assert (H0 : (0 <= qs / qb)%Q).
  { apply Qle_shift_div_l; [exact Hb|]. rewrite Qmult_0_l. now apply Qlt_le_weak. }
  change (inject_Z 1) with 1%Q. lra.
Qed.

Lemma inject_Z_succ (n : nat) :
  (inject_Z (Z.of_nat (S n)) == inject_Z (Z.of_nat n) + 1)%Q.
Proof. rewrite Nat2Z.inj_succ. unfold Z.succ. now rewrite inject_Z_plus. Qed.

Lemma fold_fadd_ge (lo : Q) (ys : list num) (a : Q) (n : nat) :
  Forall (fun y => exists q, y = Fin q /\ (lo <= q)%Q) ys ->
  (lo * inject_Z (Z.of_nat n) <= a)%Q ->
  exists s, fold_left fadd ys (Fin a) = Fin s /\
            (lo * inject_Z (Z.of_nat (n + length ys)) <= s)%Q.
Proof.
  intros Hall. revert a n. induction Hall as [|y ys (q & -> & Hq) _ IH]; intros a n Ha.
  - exists a. rewrite Nat.add_0_r. split; [reflexivity | exact Ha].
  - cbn [fold_left fadd length].
    destruct (IH (a + q)%Q (S n)) as (s & Hs & Hb).
    + rewrite inject_Z_succ. lra.
    + exists s. split; [exact Hs|].
      now replace (n + S (length ys))%nat with (S n + length ys)%nat by lia.
Qed.

Lemma mean_ge (lo : Q) (xs : list num) :
  (forall x, In x xs -> x = NaN \/ exists q, x = Fin q /\ (lo <= q)%Q) ->
  mean xs = NaN \/ exists m, mean xs = Fin m /\ (lo <= m)%Q.
Proof.
  intros Hall.
  assert (Hys : Forall (fun y => exists q, y = Fin q /\ (lo <= q)%Q)
                       (List.filter notna xs)).
  { apply List.Forall_forall. intros y Hy. apply filter_In in Hy.
    destruct Hy as [Hy Hn]. destruct (Hall y Hy) as [->|H]; [discriminate Hn | exact H]. }
  unfold mean. destruct (List.filter notna xs) as [|y ys]; [now left | right].
  apply Forall_cons_iff in Hys. destruct Hys as [(q & -> & Hq) Hys].
  destruct (fold_fadd_ge lo ys q 1 Hys) as (s & Hs & Hb).
  { change (inject_Z (Z.of_nat 1)) with 1%Q. lra. }
  rewrite Hs. cbn [Nat.add] in Hb.
  set (N := inject_Z (Z.of_nat (S (length ys)))) in *.
  assert (HN : (0 < N)%Q).
  { unfold N. change 0%Q with (inject_Z 0). rewrite <- Zlt_Qlt. lia. }
  unfold int. fold N. cbn [fdiv].
  assert (Hc : (N ?= 0)%Q = Gt) by (now apply Qgt_alt).
  rewrite Hc. exists (s / N)%Q. split; [reflexivity|].
  now apply Qle_shift_div_l.
Qed.

Lemma cumprod_from_nonneg (acc : option num) (xs : list num) :
  (acc = None \/ exists a, acc = Some (Fin a) /\ (0 <= a)%Q) ->
  Forall (fun x => x = NaN \/ exists q, x = Fin q /\ (0 <= q)%Q) xs ->
  Forall (fun p => p = NaN \/ exists q, p = Fin q /\ (0 <= q)%Q) (cumprod_from acc xs).
Proof.
  intros Hacc Hall. revert acc Hacc.
  induction Hall as [|x xs Hx _ IH]; intros acc Hacc; [constructor|].
  cbn [cumprod_from]. destruct Hx as [->|(q & -> & Hq)]; cbn [isna].
  - constructor; [now left | now apply IH].
  - destruct Hacc as [->|(a & -> & Ha)].
    + constructor; [right; eauto|]. apply IH. right. eauto.
    + cbn [fmul].
      assert (Hp : (0 <= a * q)%Q) by (now apply Qmult_le_0_compat).
      constructor; [right; eauto|]. apply IH. right. eauto.
Qed.

Lemma cum_returns_ge (rs : list num) :
  Forall (fun r => r = NaN \/ exists q, r = Fin q /\ (- (1) <= q)%Q) rs ->
  Forall (fun c => c = NaN \/ exists q, c = Fin q /\ (- (1) <= q)%Q) (cum_returns rs).
Proof.
  intros Hall. unfold cum_returns, cumprod.
  assert (Hone : Forall (fun x => x = NaN \/ exists q, x = Fin q /\ (0 <= q)%Q)
                        (map (fadd (int 1)) rs)).
  { apply List.Forall_forall. intros x Hx. apply in_map_iff in Hx as (r & <- & Hr).
    destruct (proj1 (List.Forall_forall _ _) Hall r Hr) as [->|(q & -> & Hq)];
      [now left | right].
    unfold int. cbn [fadd]. eexists. split; [reflexivity|].
    change (inject_Z 1) with 1%Q. lra. }
  pose proof (cumprod_from_nonneg None _ (or_introl eq_refl) Hone) as Hprod.
  apply List.Forall_forall. intros c Hc. apply in_map_iff in Hc as (p & <- & Hp).
  destruct (proj1 (List.Forall_forall _ _) Hprod p Hp) as [->|(q & -> & Hq)];
    [now left | right].
  unfold int. cbn [fsub]. eexists. split; [reflexivity|].
  change (inject_Z 1) with 1%Q. lra.
Qed.

(** X20. On a price table whose closes are all positive numbers, no row of
    the backtest shows a loss of more than everything: [return] and
    [cum_return] are each missing or not below -1.  (In the arithmetic of
    this file a value that is not missing is a finite number; float64 can
    also give +infinity, where a quotient or a product overflows.) *)
Theorem backtest_returns_bounded_below (selected : list Sel.t) (prices : list Trd.t)
    (hold : Z) (row : Port.t) :
  (forall r, In r prices -> exists q, Trd.Clsprc r = Fin q /\ (0 < q)%Q) ->
  In row (backtest_strategy selected prices hold) ->
  (Port.Return row = NaN \/ Port.Return row = PInf \/
   exists q, Port.Return row = Fin q /\ (- (1) <= q)%Q) /\
  (Port.cum_return row = NaN \/ Port.cum_return row = PInf \/
   exists c, Port.cum_return row = Fin c /\ (- (1) <= c)%Q).
Proof.
  intros Hpos Hrow. rewrite backtest_strategy_positions in Hrow.
  set (positions := open_positions hold selected) in *.
  destruct (backtest_positions_columns positions prices) as (_ & Hret & Hcum).
  cbv zeta in Hret, Hcum.
  set (pr := portfolio_return (priced_positions positions prices)) in *.
  assert (Hmatched : forall o : option Trd.t,
            (forall r, o = Some r -> In r prices) ->
            matched_Clsprc o = NaN \/
            exists q, matched_Clsprc o = Fin q /\ (0 < q)%Q).
  { intros [r|] Ho; [right; apply Hpos, Ho; reflexivity | now left]. }
  assert (Hpriced : forall m, In m (priced_positions positions prices) ->
            Return m = NaN \/ exists q, Return m = Fin q /\ (- (1) <= q)%Q).
  { intros m Hm. apply priced_positions_In in Hm. destruct Hm as (p & _ & Hm).
    cbv zeta in Hm. subst m. unfold Return, sell_price, buy_price. cbn [fst snd].
    apply pct_positive_prices; apply Hmatched; intros r Hr.
    - apply sort_values_In with (le := by_date Trd.Trddt).
      eapply matched_row_In. right. exact Hr.
    - apply sort_values_In with (le := by_date Trd.Trddt).
      eapply matched_row_In. left. exact Hr. }
  assert (Hmeans : Forall (fun r => r = NaN \/ exists q, r = Fin q /\ (- (1) <= q)%Q)
                          (map snd pr)).
  { apply List.Forall_forall. intros v Hv. apply in_map_iff in Hv as ([k v'] & <- & Hin).
    cbn [snd]. unfold pr, portfolio_return in Hin.
    apply groupby_mean_In in Hin. destruct Hin as [_ ->].
    apply mean_ge. intros x Hx. unfold group in Hx.
    apply in_map_iff in Hx as ([k' x'] & <- & Hf). apply filter_In in Hf as [Hf _].
    apply in_map_iff in Hf as (m & Heq & Hm). injection Heq as _ <-. cbn [snd].
    now apply Hpriced. }
  split.
  - assert (Hin : In (Port.Return row) (map snd pr))
      by (rewrite <- Hret; now apply in_map).
    destruct (proj1 (List.Forall_forall _ _) Hmeans _ Hin) as [H|H];
      [now left | now right; right].
  - assert (Hin : In (Port.cum_return row) (cum_returns (map snd pr)))
      by (rewrite <- Hcum; now apply in_map).
    destruct (proj1 (List.Forall_forall _ _) (cum_returns_ge _ Hmeans) _ Hin)
      as [H|H]; [now left | now right; right].
Qed.


Lemma backtest_returns_bounded_below_witness :
  Forall (fun row =>
            (Port.Return row = NaN \/ Port.Return row = PInf \/
             exists q, Port.Return row = Fin q /\ (- (1) <= q)%Q) /\
            (Port.cum_return row = NaN \/ Port.cum_return row = PInf \/
             exists c, Port.cum_return row = Fin c /\ (- (1) <= c)%Q))
         (backtest_strategy [Samples.selected_000001; MoreSamples.selected_000002]
            Samples.price_data 90).
Proof.
  apply List.Forall_forall. intros row Hrow.
  apply (backtest_returns_bounded_below
           [Samples.selected_000001; MoreSamples.selected_000002]
           Samples.price_data 90 row); [|exact Hrow].
  intros r Hr. cbn in Hr.
  repeat (destruct Hr as [<-|Hr];
          [eexists; split; [reflexivity | reflexivity]|]).
  destruct Hr.
Defined.

(* ===================================================================== *)
(** ** strategy_consistent_growth, instrument by instrument               *)
(* ===================================================================== *)

Lemma list_filter_rev {A} (P : A -> bool) (l : list A) :
  List.filter P (rev l) = rev (List.filter P l).
Proof.
  induction l as [|a l IH]; [reflexivity|]. cbn [rev List.filter].
  rewrite List.filter_app, IH. cbn [List.filter].
  destruct (P a); cbn [rev]; [reflexivity | now rewrite app_nil_r].
Qed.









